(** * benchmark_script.py: a shallow embedding and its checked properties

    The script drives an external zero-knowledge toolchain: it runs
    commands, parses the text they print (the [ms_print] table of a Massif
    profile, the [elapsed] token of [time]) and keeps four results in a
    session object.  This file embeds the parsing and the session logic as
    Rocq functions and proves the properties of the specification about
    them.

    Modelling conventions.
    - A Python [str] is a list of characters; characters are the code
      points below 256, so [\s] and [\d] are the restrictions of CPython's
      Unicode classes to that range.
    - A Python [int] is a [Z].  A pandas [int64] column holds [Z] values in
      the signed 64-bit range and sums with wrap-around.
    - A Python [float] is an IEEE binary64 value, kept as an integer
      mantissa and a binary exponent; conversions and additions round to
      nearest, ties to even.
    - A raised exception is the [Raise] branch of [result]. *)

From Stdlib Require Import ZArith List Ascii String Bool Lia Arith DecimalString.
Import ListNotations.

Set Implicit Arguments.

(** ** Text *)

Definition str := list ascii.

Definition lit (s : string) : str := list_ascii_of_string s.
Coercion lit : string >-> str.

Local Open Scope string_scope.
Local Open Scope list_scope.

Definition ascii_in (lo hi : nat) (c : ascii) : bool :=
  (lo <=? nat_of_ascii c)%nat && (nat_of_ascii c <=? hi)%nat.

(** [\d]: the decimal digits.  Below 256 these are '0'..'9' only. *)
Definition is_digit (c : ascii) : bool := ascii_in 48 57 c.

(** [\s], [str.strip] and [int]'s trimming: CPython's [Py_UNICODE_ISSPACE],
    which below 256 holds of 0x09-0x0D, 0x1C-0x1F, 0x20, 0x85 and 0xA0. *)
Definition is_space (c : ascii) : bool :=
  ascii_in 9 13 c || ascii_in 28 32 c
  || (nat_of_ascii c =? 133)%nat || (nat_of_ascii c =? 160)%nat.

Definition digit_value (c : ascii) : Z := Z.of_nat (nat_of_ascii c) - 48.

Fixpoint drop_while (p : ascii -> bool) (s : str) : str :=
  match s with
  | c :: s' => if p c then drop_while p s' else s
  | [] => []
  end.

Fixpoint take_while (p : ascii -> bool) (s : str) : str :=
  match s with
  | c :: s' => if p c then c :: take_while p s' else []
  | [] => []
  end.

(** [s.strip()] *)
Definition strip (s : str) : str :=
  rev (drop_while is_space (rev (drop_while is_space s))).

(** [s.split(sep)] for a one-character separator. *)
Fixpoint split_on (sep : ascii) (cur : str) (s : str) : list str :=
  match s with
  | [] => [rev cur]
  | c :: s' =>
      if Ascii.eqb c sep then rev cur :: split_on sep [] s'
      else split_on sep (c :: cur) s'
  end.

Definition newline : ascii := ascii_of_nat 10.

Definition split_lines (s : str) : list str := split_on newline [] s.

(** [s.replace(',', '')] *)
Definition remove_commas (s : str) : str :=
  filter (fun c => negb (Ascii.eqb c ",")) s.

(** [sep.join(xs)] *)
Fixpoint join (sep : str) (xs : list str) : str :=
  match xs with
  | [] => []
  | [x] => x
  | x :: xs' => x ++ sep ++ join sep xs'
  end.

(** ** Exceptions *)

Inductive exn :=
| ValueError
| OverflowError
| KeyError (key : str)
| TypeError
| IndexError
| EOFError
| OSError.

Inductive result (A : Type) :=
| Ok (a : A)
| Raise (e : exn).
Arguments Ok {A} a.
Arguments Raise {A} e.

Definition rbind {A B} (r : result A) (f : A -> result B) : result B :=
  match r with
  | Ok a => f a
  | Raise e => Raise e
  end.

Declare Scope result_scope.
Delimit Scope result_scope with result.
Notation "x <- r ;; k" := (rbind r (fun x => k))
  (at level 61, r at next level, right associativity) : result_scope.

Fixpoint rmap {A B} (f : A -> result B) (xs : list A) : result (list B) :=
  match xs with
  | [] => Ok []
  | x :: xs' =>
      rbind (f x) (fun y => rbind (rmap f xs') (fun ys => Ok (y :: ys)))
  end.

(** ** Regular expressions

    The two patterns of the script quantify character classes only and
    have no nested or alternative groups, so the matcher below covers
    them: a backtracking matcher in continuation-passing style, greedy as
    Python's, that records each group's text when the group closes. *)

Inductive regex :=
| Lit (w : str)                 (* literal text *)
| Cls (p : ascii -> bool)       (* one character of a class *)
| Star (p : ascii -> bool)      (* class*, greedy *)
| Plus (p : ascii -> bool)      (* class+, greedy *)
| Cat (r1 r2 : regex)
| Group (r : regex)             (* ( ... ) *)
| Bol.                          (* ^ *)

Fixpoint strip_prefix (w s : str) : option str :=
  match w, s with
  | [], _ => Some s
  | a :: w', c :: s' => if Ascii.eqb a c then strip_prefix w' s' else None
  | _ :: _, [] => None
  end.

Section Matcher.
Variable R : Type.

(** The longest run of [p] first; on failure of the continuation give
    back one character at a time. *)
Fixpoint greedy (p : ascii -> bool) (i : nat) (s : str)
         (k : nat -> str -> option R) : option R :=
  match s with
  | c :: s' =>
      if p c then
        match greedy p (S i) s' k with
        | Some r => Some r
        | None => k i s
        end
      else k i s
  | [] => k i s
  end.

(** [exec r i s caps k]: match [r] at offset [i], where [s] is the text
    from offset [i] on; [caps] are the groups closed so far. *)
Fixpoint exec (r : regex) (i : nat) (s : str) (caps : list str)
         (k : nat -> str -> list str -> option R) : option R :=
  match r with
  | Lit w =>
      match strip_prefix w s with
      | Some s' => k (i + List.length w)%nat s' caps
      | None => None
      end
  | Cls p =>
      match s with
      | c :: s' => if p c then k (S i) s' caps else None
      | [] => None
      end
  | Star p => greedy p i s (fun j s' => k j s' caps)
  | Plus p =>
      match s with
      | c :: s' =>
          if p c then greedy p (S i) s' (fun j s' => k j s' caps) else None
      | [] => None
      end
  | Cat r1 r2 =>
      exec r1 i s caps (fun j s' caps' => exec r2 j s' caps' k)
  | Group r1 =>
      exec r1 i s caps
           (fun j s' caps' => k j s' (caps' ++ [firstn (j - i) s]))
  | Bol => if (i =? 0)%nat then k i s caps else None
  end.
End Matcher.

(** A match object: its groups and the offset where the match ends. *)
Definition match_obj : Type := list str * nat.

Definition match_at (r : regex) (i : nat) (s : str) : option match_obj :=
  exec r i s [] (fun j _ caps => Some (caps, j)).

(** [re.match(r, s)] *)
Definition re_match (r : regex) (s : str) : option match_obj := match_at r 0 s.

(** [re.search(r, s)]: the first offset, from the left, with a match. *)
Fixpoint search_from (r : regex) (i : nat) (s : str) : option match_obj :=
  match match_at r i s with
  | Some m => Some m
  | None =>
      match s with
      | [] => None
      | _ :: s' => search_from r (S i) s'
      end
  end.

Definition re_search (r : regex) (s : str) : option match_obj :=
  search_from r 0 s.

(** [re.split(r"\s+", s)]: cut at every maximal run of white space; a run
    at either end leaves an empty field there. *)
Fixpoint split_ws (in_run : bool) (cur : str) (s : str) : list str :=
  match s with
  | [] => [rev cur]
  | c :: s' =>
      if is_space c then
        if in_run then split_ws true [] s'
        else rev cur :: split_ws true [] s'
      else split_ws false (c :: cur) s'
  end.

Definition re_split_ws (s : str) : list str := split_ws false [] s.

(** ** Python's [int(str)] *)

(** CPython refuses to convert more than 4300 digits. *)
Definition int_max_str_digits : nat := 4300.

(** Digits, single underscores allowed between two digits.  Returns the
    value and the number of digits. *)
Fixpoint int_body (after_digit : bool) (acc : Z) (n : nat) (s : str)
  : option (Z * nat) :=
  match s with
  | [] => if after_digit then Some (acc, n) else None
  | c :: s' =>
      if is_digit c then int_body true (acc * 10 + digit_value c) (S n) s'
      else if Ascii.eqb c "_" then
        if after_digit then int_body false acc n s' else None
      else None
  end.

Definition py_int (s : str) : result Z :=
  let t := strip s in
  let '(sign, body) :=
    match t with
    | c :: b =>
        if Ascii.eqb c "+" then (1%Z, b)
        else if Ascii.eqb c "-" then ((-1)%Z, b)
        else (1%Z, t)
    | [] => (1%Z, t)
    end in
  match int_body false 0 0 body with
  | None => Raise ValueError
  | Some (v, n) =>
      if (int_max_str_digits <? n)%nat then Raise ValueError
      else Ok (sign * v)%Z
  end.

(** ** Python's [float]: IEEE binary64

    The script builds floats from non-negative decimal text, from integers
    and by addition and division, so neither a negative zero, nor a
    negative infinity can arise; the type has neither. *)

Module Float64.
Local Open Scope Z_scope.

(** [Finite m e] is the number [m * 2^e].  In a value built by the
    functions below either [2^52 <= |m| < 2^53] and [-1074 <= e <= 971],
    or [|m| < 2^52] and [e = -1074]. *)
Inductive t :=
| Finite (m e : Z)
| Inf
| NaN.

Definition emin : Z := -1074.
Definition emax : Z := 971.

(** The integer part of the base-2 logarithm of [p/q], for [0 < p] and
    [0 < q]. *)
Definition ilog2_ratio (p q : Z) : Z :=
  let k := Z.log2 p - Z.log2 q in
  if (if 0 <=? k then q * 2 ^ k <=? p else q <=? p * 2 ^ (- k))
  then k else k - 1.

(** [p/q] rounded to an integer, ties to even ([0 <= p], [0 < q]). *)
Definition round_half_even (p q : Z) : Z :=
  let m := p / q in
  let r := p mod q in
  if (q <? 2 * r) || ((q =? 2 * r) && Z.odd m) then m + 1 else m.

(** The binary64 value nearest to [p/q] ([0 <= p], [0 < q]), ties to
    even; [Inf] on overflow. *)
Definition of_ratio (p q : Z) : t :=
  if p =? 0 then Finite 0 emin
  else
    let e := Z.max emin (ilog2_ratio p q - 52) in
    let m :=
      if 0 <=? e then round_half_even p (q * 2 ^ e)
      else round_half_even (p * 2 ^ (- e)) q in
    let '(m, e) := if m =? 2 ^ 53 then (2 ^ 52, e + 1) else (m, e) in
    if emax <? e then Inf else Finite m e.

(** The same for a ratio of any sign ([0 < q]). *)
Definition of_signed_ratio (p q : Z) : t :=
  if p <? 0 then
    match of_ratio (- p) q with
    | Finite m e => Finite (- m) e
    | x => x
    end
  else of_ratio p q.

(** [float(n)] for a Python int, as in [n + x] or [n / d]: the nearest
    binary64 value, or [OverflowError] when that would be infinite. *)
Definition of_int (n : Z) : result t :=
  match of_signed_ratio n 1 with
  | Finite m e => Ok (Finite m e)
  | _ => Raise OverflowError
  end.

(** The number that the digits of [s] write after those already read
    into [acc]. *)
Fixpoint digits_value (acc : Z) (s : str) : Z :=
  match s with
  | [] => acc
  | c :: s' => digits_value (acc * 10 + digit_value c) s'
  end.

(** [float(s)] for [s] of the form digits, point, digits; other text
    (signs, exponents, [inf], [nan]) never reaches [float] here and is
    answered with [ValueError]. *)
Definition of_str (s : str) : result t :=
  let ip := take_while is_digit s in
  match drop_while is_digit s with
  | c :: fp =>
      if Ascii.eqb c "." && negb (Nat.eqb (List.length ip) 0)
         && negb (Nat.eqb (List.length fp) 0) && forallb is_digit fp
      then Ok (of_ratio (digits_value 0 (ip ++ fp))
                        (10 ^ Z.of_nat (List.length fp)))
      else Raise ValueError
  | [] => Raise ValueError
  end.

(** [x + y]: the exact sum, as a ratio over a power of two, rounded; an
    overflow gives [Inf], as in C. *)
Definition add (x y : t) : t :=
  match x, y with
  | Finite m1 e1, Finite m2 e2 =>
      let e := Z.min (Z.min e1 e2) 0 in
      of_signed_ratio (m1 * 2 ^ (e1 - e) + m2 * 2 ^ (e2 - e)) (2 ^ (- e))
  | NaN, _ | _, NaN => NaN
  | _, _ => Inf
  end.

(** [x / 2^k] for [0 <= k], rounded. *)
Definition div_pow2 (x : t) (k : Z) : t :=
  match x with
  | Finite m e =>
      if 0 <=? e then of_signed_ratio (m * 2 ^ e) (2 ^ k)
      else of_signed_ratio m (2 ^ (k - e))
  | x => x
  end.

Definition is_finite (x : t) : bool :=
  match x with
  | Finite _ _ => true
  | _ => false
  end.

(** The digits of a natural number, most significant first. *)
Definition decimal (n : Z) : str :=
  lit (NilZero.string_of_uint (N.to_uint (Z.to_N n))).

Definition digit_char (d : Z) : ascii := ascii_of_nat (Z.to_nat (48 + d)).

(** [format(x, '.2f')]: the exact value of [x] rounded to hundredths,
    ties to even; the sign is kept even when the digits are all zero. *)
Definition format_2f (x : t) : str :=
  match x with
  | Finite m e =>
      let a := Z.abs m in
      let n := if 0 <=? e then a * 2 ^ e * 100
               else round_half_even (a * 100) (2 ^ (- e)) in
      (if m <? 0 then lit "-" else []) ++
      decimal (n / 100) ++ lit "." ++
      [digit_char (n mod 100 / 10); digit_char (n mod 10)]
  | Inf => lit "inf"
  | NaN => lit "nan"
  end.
End Float64.

(** ** The elapsed-time extractor *)

(** [r'(\d+):(\d+\.\d+)elapsed'] *)
Definition time_pattern : regex :=
  Cat (Group (Plus is_digit))
      (Cat (Lit ":")
           (Cat (Group (Cat (Plus is_digit) (Cat (Lit ".") (Plus is_digit))))
                (Lit "elapsed"))).

Local Open Scope result_scope.

(** [extract_and_convert_time(output)].  Python evaluates [int(minutes)],
    then [float(seconds)], and converts the product to a float inside the
    addition. *)
Definition extract_and_convert_time (output : str)
  : result (option Float64.t) :=
  match re_search time_pattern output with
  | Some ([minutes; seconds], _) =>
      m <- py_int minutes ;;
      sec <- Float64.of_str seconds ;;
      total <- Float64.of_int (m * 60) ;;
      Ok (Some (Float64.add total sec))
  | Some _ => Raise ValueError
  | None => Ok None
  end.

(** ** The memory-report parser *)

(** A value held in a dict or in a DataFrame: text, an integer, or the
    missing value pandas fills gaps with. *)
Inductive cell :=
| CStr (s : str)
| CInt (z : Z)
| CNaN.

(** A dict with text keys, in insertion order. *)
Definition record : Type := list (str * cell).

Definition Series : Type := list cell.

(** A DataFrame: its columns in order, each with its values by row. *)
Definition DataFrame : Type := list (str * Series).

Fixpoint str_eqb (a b : str) : bool :=
  match a, b with
  | [], [] => true
  | x :: a', y :: b' => Ascii.eqb x y && str_eqb a' b'
  | _, _ => false
  end.

Fixpoint lookup {V} (k : str) (d : list (str * V)) : option V :=
  match d with
  | [] => None
  | (k', v) :: d' => if str_eqb k k' then Some v else lookup k d'
  end.

Definition keys {V} (d : list (str * V)) : list str := map fst d.

Definition nrows (df : DataFrame) : nat :=
  match df with
  | [] => 0
  | (_, col) :: _ => List.length col
  end.

(** The keys of all records, each once, in order of first appearance. *)
Fixpoint union_keys (seen : list str) (ks : list str) : list str :=
  match ks with
  | [] => []
  | k :: ks' =>
      if existsb (str_eqb k) seen then union_keys seen ks'
      else k :: union_keys (k :: seen) ks'
  end.

Definition get_or_nan (k : str) (r : record) : cell :=
  match lookup k r with
  | Some c => c
  | None => CNaN
  end.

(** [pd.DataFrame(records)]: one column per key; a list without records
    gives a frame without columns. *)
Definition DataFrame_of_records (rs : list record) : DataFrame :=
  map (fun k => (k, map (get_or_nan k) rs))
      (union_keys [] (List.concat (map keys rs))).

(** [df[k]] *)
Definition get_column (df : DataFrame) (k : str) : result Series :=
  match lookup k df with
  | Some col => Ok col
  | None => Raise (KeyError k)
  end.

(** [df[k] = col] *)
Fixpoint set_column (df : DataFrame) (k : str) (col : Series) : DataFrame :=
  match df with
  | [] => [(k, col)]
  | (k', c) :: df' =>
      if str_eqb k k' then (k', col) :: df'
      else (k', c) :: set_column df' k col
  end.

(** [col.str.replace(',', '')] *)
Definition str_replace_commas (col : Series) : Series :=
  map (fun c => match c with
                | CStr t => CStr (remove_commas t)
                | _ => CNaN
                end) col.

Definition int64_min : Z := (- 2 ^ 63)%Z.
Definition int64_max : Z := (2 ^ 63 - 1)%Z.

Definition in_int64 (z : Z) : bool :=
  ((int64_min <=? z) && (z <=? int64_max))%Z.

(** Conversion of one value to [int64]: Python's [int], then the range. *)
Definition to_int64 (c : cell) : result cell :=
  match c with
  | CStr t =>
      z <- py_int t ;;
      if in_int64 z then Ok (CInt z) else Raise OverflowError
  | CInt z => if in_int64 z then Ok (CInt z) else Raise OverflowError
  | CNaN => Raise ValueError
  end.

(** [col.astype(int)] *)
Definition astype_int (col : Series) : result Series := rmap to_int64 col.

(** Signed 64-bit wrap-around. *)
Definition wrap64 (z : Z) : Z := ((z + 2 ^ 63) mod 2 ^ 64 - 2 ^ 63)%Z.

Definition int_of_cell (c : cell) : Z :=
  match c with
  | CInt z => z
  | _ => 0%Z
  end.

Definition exact_sum (col : Series) : Z :=
  fold_right (fun c acc => (int_of_cell c + acc)%Z) 0%Z col.

(** [col.sum()] of an [int64] column: numpy adds in 64 bits and wraps. *)
Definition series_sum (col : Series) : cell := CInt (wrap64 (exact_sum col)).

(** [pd.concat([a, b], ignore_index=True)] *)
Definition pd_concat (a b : DataFrame) : DataFrame :=
  map (fun k =>
         (k, match lookup k a with
             | Some col => col
             | None => repeat CNaN (nrows a)
             end ++
             match lookup k b with
             | Some col => col
             | None => repeat CNaN (nrows b)
             end))
      (union_keys [] (keys a ++ keys b)).

(** [r"^\s*\d+\s+\d"] *)
Definition table_pattern : regex :=
  Cat Bol (Cat (Star is_space)
               (Cat (Plus is_digit) (Cat (Plus is_space) (Cls is_digit)))).

Definition is_table_line (line : str) : bool :=
  match re_match table_pattern line with
  | Some _ => true
  | None => false
  end.

(** [re.split(r"\s+", line.strip())] *)
Definition parts_of (line : str) : list str := re_split_ws (strip line).

Definition part (i : nat) (parts : list str) : str := nth i parts [].

(** The body of the loop over [table_lines]: the dict of one line, or
    nothing for a line with fewer than six parts. *)
Definition parse_table_line (line : str) : result (option record) :=
  let parts := parts_of line in
  if (6 <=? List.length parts)%nat then
    n <- py_int (part 0 parts) ;;
    Ok (Some [(lit "n", CInt n);
              (lit "time(i)", CStr (part 1 parts));
              (lit "total(B)", CStr (part 2 parts));
              (lit "useful-heap(B)", CStr (part 3 parts));
              (lit "extra-heap(B)", CStr (part 4 parts));
              (lit "stacks(B)", CStr (part 5 parts))])
  else Ok None.

Fixpoint parse_table_lines (table_lines : list str) : result (list record) :=
  match table_lines with
  | [] => Ok []
  | line :: rest =>
      r <- parse_table_line line ;;
      rs <- parse_table_lines rest ;;
      Ok (match r with
          | Some d => d :: rs
          | None => rs
          end)
  end.

(** [df[k] = df[k].str.replace(',', '').astype(int)] *)
Definition convert_column (k : str) (df : DataFrame) : result DataFrame :=
  col <- get_column df k ;;
  ints <- astype_int (str_replace_commas col) ;;
  Ok (set_column df k ints).

Definition columns_to_sum : list str :=
  [lit "time(i)"; lit "total(B)"; lit "useful-heap(B)";
   lit "extra-heap(B)"; lit "stacks(B)"].

Definition total_row (df : DataFrame) : record :=
  map (fun '(k, col) =>
         (k, if existsb (str_eqb k) columns_to_sum then series_sum col
             else CStr (lit "Total")))
      df.

(** [process_massif_output(output)] *)
Definition process_massif_output (output : str) : result DataFrame :=
  let lines := split_lines output in
  let table_lines := filter is_table_line lines in
  parsed_tables <- parse_table_lines table_lines ;;
  let df := DataFrame_of_records parsed_tables in
  df <- convert_column (lit "time(i)") df ;;
  df <- convert_column (lit "total(B)") df ;;
  df <- convert_column (lit "useful-heap(B)") df ;;
  df <- convert_column (lit "extra-heap(B)") df ;;
  df <- convert_column (lit "stacks(B)") df ;;
  Ok (pd_concat df (DataFrame_of_records [total_row df])).

(** [table.at[table.index[-1], 'total(B)'] / (2**30)]: the last value of
    the column, as a float, divided by [2^30]. *)
Definition last_total_gb (table : DataFrame) : result Float64.t :=
  if (nrows table =? 0)%nat then Raise IndexError
  else
    col <- get_column table (lit "total(B)") ;;
    match last col CNaN with
    | CInt z =>
        x <- Float64.of_int z ;;
        Ok (Float64.div_pow2 x 30)
    | CStr _ => Raise TypeError
    | CNaN => Ok Float64.NaN
    end.

(** ** The benchmark session *)

(** The object [BenchmarkTool]; a path is kept as its text. *)
Record BenchmarkTool := {
  current_dir_path : str;
  zkllvm_template_path : str;
  build_src : str;
  build : str;
  input_json : str;
  assigner_total_gb : option Float64.t;
  proof_total_gb : option Float64.t;
  assigner_formatted_time : option Float64.t;
  proof_formatted_time : option Float64.t
}.

Definition set_assigner_total_gb (v : option Float64.t) (t : BenchmarkTool) :=
  {| current_dir_path := current_dir_path t;
     zkllvm_template_path := zkllvm_template_path t;
     build_src := build_src t; build := build t; input_json := input_json t;
     assigner_total_gb := v;
     proof_total_gb := proof_total_gb t;
     assigner_formatted_time := assigner_formatted_time t;
     proof_formatted_time := proof_formatted_time t |}.

Definition set_proof_total_gb (v : option Float64.t) (t : BenchmarkTool) :=
  {| current_dir_path := current_dir_path t;
     zkllvm_template_path := zkllvm_template_path t;
     build_src := build_src t; build := build t; input_json := input_json t;
     assigner_total_gb := assigner_total_gb t;
     proof_total_gb := v;
     assigner_formatted_time := assigner_formatted_time t;
     proof_formatted_time := proof_formatted_time t |}.

Definition set_assigner_formatted_time (v : option Float64.t)
           (t : BenchmarkTool) :=
  {| current_dir_path := current_dir_path t;
     zkllvm_template_path := zkllvm_template_path t;
     build_src := build_src t; build := build t; input_json := input_json t;
     assigner_total_gb := assigner_total_gb t;
     proof_total_gb := proof_total_gb t;
     assigner_formatted_time := v;
     proof_formatted_time := proof_formatted_time t |}.

Definition set_proof_formatted_time (v : option Float64.t)
           (t : BenchmarkTool) :=
  {| current_dir_path := current_dir_path t;
     zkllvm_template_path := zkllvm_template_path t;
     build_src := build_src t; build := build t; input_json := input_json t;
     assigner_total_gb := assigner_total_gb t;
     proof_total_gb := proof_total_gb t;
     assigner_formatted_time := assigner_formatted_time t;
     proof_formatted_time := v |}.

(** [BenchmarkTool.__init__], given [os.getcwd()] and the template path;
    the three derived paths are joined as text. *)
Definition init (cwd template : str) : BenchmarkTool :=
  {| current_dir_path := cwd;
     zkllvm_template_path := template;
     build_src := template ++ lit "/build/src";
     build := template ++ lit "/build";
     input_json := template ++ lit "/src/main-input.json";
     assigner_total_gb := None;
     proof_total_gb := None;
     assigner_formatted_time := None;
     proof_formatted_time := None |}.

Inductive level := ERROR | INFO.

(** What [subprocess.run] returns. *)
Record CompletedProcess := {
  returncode : Z;
  stdout : str;
  stderr : str
}.

Section Session.
(** The machine outside the script: its state, what [Path.exists()]
    answers for a path in it, and what running a shell command in a
    directory does to it.  [Path.exists()] answers [False] for a path
    that is not there, and raises [OSError] when the path cannot be
    examined (a name that is too long, a directory that may not be
    searched).  [subprocess.run] may itself raise (a missing directory,
    undecodable output). *)
Variable OS : Type.
Variable path_exists : OS -> str -> result bool.
Variable subprocess_run :
  OS -> str -> option str -> result CompletedProcess * OS.

(** [str(x)] of a float, as an f-string field without a format prints
    it. *)
Variable float_str : Float64.t -> str.

(** Everything a method can read or change. *)
Record world := {
  self : BenchmarkTool;
  os : OS;
  logged : list (level * str);       (* calls of logging.error / info *)
  printed : list str;                (* text written to standard output *)
  commands : list (str * option str) (* commands run, with their cwd *)
}.

Definition M (A : Type) : Type := world -> result A * world.

Definition ret {A} (a : A) : M A := fun w => (Ok a, w).

Definition raise {A} (e : exn) : M A := fun w => (Raise e, w).

Definition bind {A B} (m : M A) (f : A -> M B) : M B :=
  fun w =>
    match m w with
    | (Ok a, w') => f a w'
    | (Raise e, w') => (Raise e, w')
    end.

Definition lift {A} (r : result A) : M A := fun w => (r, w).

Definition get_self : M BenchmarkTool := fun w => (Ok (self w), w).

Definition update_self (f : BenchmarkTool -> BenchmarkTool) : M unit :=
  fun w =>
    (Ok tt, {| self := f (self w); os := os w; logged := logged w;
               printed := printed w; commands := commands w |}).

Definition logging (l : level) (msg : str) : M unit :=
  fun w =>
    (Ok tt, {| self := self w; os := os w;
               logged := logged w ++ [(l, msg)];
               printed := printed w; commands := commands w |}).

Definition write (text : str) : M unit :=
  fun w =>
    (Ok tt, {| self := self w; os := os w; logged := logged w;
               printed := printed w ++ [text]; commands := commands w |}).

(** [print(text)] *)
Definition print (text : str) : M unit := write (text ++ [newline]).

(** [path.exists()] *)
Definition exists_ (path : str) : M bool :=
  fun w => (path_exists (os w) path, w).

Definition spawn (command : str) (cwd : option str) : M CompletedProcess :=
  fun w =>
    let '(r, os') := subprocess_run (os w) command cwd in
    (r, {| self := self w; os := os'; logged := logged w;
           printed := printed w;
           commands := commands w ++ [(command, cwd)] |}).

Declare Scope session_scope.
Delimit Scope session_scope with session.
Notation "x <- m ;; k" := (bind m (fun x => k))
  (at level 61, m at next level, right associativity) : session_scope.
Notation "m ;;; k" := (bind m (fun _ => k))
  (at level 61, right associativity) : session_scope.
Local Open Scope session_scope.

(** [run_command(command, cwd)] *)
Definition run_command (command : str) (cwd : option str)
  : M (str * str) :=
  result <- spawn command cwd ;;
  (if negb (returncode result =? 0)%Z
   then logging ERROR (lit "Command failed with error: " ++ stderr result)
   else logging INFO (lit "Command output: " ++ stdout result)) ;;;
  ret (stdout result, stderr result).

Definition required_files : list str :=
  [lit "template.ll"; lit "template.crct"; lit "template.tbl"].

(** [path / name] *)
Definition joinpath (path name : str) : str := path ++ lit "/" ++ name.

(** The list comprehension [[x for x in xs if not test(x)]]. *)
Fixpoint reject (test : str -> M bool) (xs : list str) : M (list str) :=
  match xs with
  | [] => ret []
  | x :: xs' =>
      b <- test x ;;
      rest <- reject test xs' ;;
      ret (if b then rest else x :: rest)
  end.

(** [verify_build()] *)
Definition verify_build : M bool :=
  t <- get_self ;;
  missing_files <-
    reject (fun f => exists_ (joinpath (build_src t) f)) required_files ;;
  match missing_files with
  | _ :: _ =>
      logging ERROR (lit "Missing required build files: "
                     ++ join (lit ", ") missing_files) ;;;
      ret false
  | [] => ret true
  end.

(** [compile_circuit()] *)
Definition compile_circuit : M unit :=
  t <- get_self ;;
  run_command (lit "scripts/run.sh --docker compile")
              (Some (zkllvm_template_path t)) ;;;
  ret tt.

Definition assigner_arguments (t : BenchmarkTool) : str :=
  lit "assigner -b " ++ build_src t ++ lit "/template.ll -p "
  ++ input_json t ++ lit " -c " ++ build_src t ++ lit "/template.crct -t "
  ++ build_src t ++ lit "/template.tbl -e pallas".

(** [measure_assigner_heap_allocation()] *)
Definition measure_assigner_heap_allocation : M (str * str) :=
  t <- get_self ;;
  run_command
    (lit "valgrind --massif-out-file=assigner_memory_bench --tool=massif "
     ++ assigner_arguments t)
    (Some (current_dir_path t)).

(** [measure_proof_generation_heap_allocation()] *)
Definition measure_proof_generation_heap_allocation : M (str * str) :=
  t <- get_self ;;
  run_command
    (lit "valgrind --massif-out-file=proof_memory_bench --tool=massif "
     ++ lit "proof-generator-single-threaded --circuit " ++ build t
     ++ lit "/template.crct --assignment " ++ build_src t
     ++ lit "/template.tbl --proof proof.bin")
    (Some (current_dir_path t)).

Definition assigner_time_command (t : BenchmarkTool) : str :=
  lit "time " ++ assigner_arguments t.

(** [measure_assigner_execution_time()] *)
Definition measure_assigner_execution_time : M (str * str) :=
  t <- get_self ;;
  run_command (assigner_time_command t) (Some (current_dir_path t)).

Definition proof_time_command (t : BenchmarkTool) : str :=
  lit "time proof-generator-single-threaded --circuit " ++ build_src t
  ++ lit "/template.crct --assignment " ++ build_src t
  ++ lit "/template.tbl --proof " ++ build t ++ lit "/proof.bin".

(** [measure_proof_generation_execution_time()] *)
Definition measure_proof_generation_execution_time : M (str * str) :=
  t <- get_self ;;
  run_command (proof_time_command t) (Some (current_dir_path t)).

(** [parse_memory_usage(file_name)] *)
Definition parse_memory_usage (file_name : str) : M DataFrame :=
  out <- run_command (lit "ms_print " ++ file_name) None ;;
  lift (process_massif_output (fst out)).

(** [display_results()] *)
Definition display_results : M unit :=
  t <- get_self ;;
  match assigner_total_gb t, assigner_formatted_time t,
        proof_total_gb t, proof_formatted_time t with
  | Some am, Some at_, Some pm, Some pt =>
      print (lit "1. Assigner:" ++ [newline] ++ lit "   Memory: "
             ++ Float64.format_2f am ++ lit "GB," ++ [newline]
             ++ lit "   Time: " ++ float_str at_ ++ lit "s") ;;;
      print (lit "2. Proof:" ++ [newline] ++ lit "   Memory: "
             ++ Float64.format_2f pm ++ lit "GB," ++ [newline]
             ++ lit "   Time: " ++ float_str pt ++ lit "s")
  | _, _, _, _ =>
      logging ERROR
        (lit "Benchmark results are incomplete. Please run the benchmark first.")
  end.

Definition build_failed : str :=
  lit "Build verification failed. Please ensure the zkllvm-template is correctly built before proceeding.".

(** One turn of the menu for the line [choice] the operator typed:
    whether the loop goes on. *)
Definition menu_action (choice : str) : M bool :=
  if str_eqb choice (lit "1") then
    ok <- verify_build ;;
    (if negb ok then logging ERROR build_failed
     else logging INFO (lit "Build verification succeeded.")) ;;;
    ret true
  else if str_eqb choice (lit "2") then
    measure_assigner_heap_allocation ;;;
    assigner_memory_table <- parse_memory_usage (lit "assigner_memory_bench") ;;
    gb <- lift (last_total_gb assigner_memory_table) ;;
    update_self (set_assigner_total_gb (Some gb)) ;;;
    logging INFO (lit "Assigner heap allocation measured.") ;;;
    ret true
  else if str_eqb choice (lit "3") then
    measure_proof_generation_heap_allocation ;;;
    proof_memory_table <- parse_memory_usage (lit "proof_memory_bench") ;;
    gb <- lift (last_total_gb proof_memory_table) ;;
    update_self (set_proof_total_gb (Some gb)) ;;;
    logging INFO (lit "Proof generation heap allocation measured.") ;;;
    ret true
  else if str_eqb choice (lit "4") then
    out <- measure_proof_generation_execution_time ;;
    time <- lift (extract_and_convert_time (snd out)) ;;
    update_self (set_assigner_formatted_time time) ;;;
    logging INFO (lit "Assigner execution time measured.") ;;;
    ret true
  else if str_eqb choice (lit "5") then
    out <- measure_proof_generation_execution_time ;;
    time <- lift (extract_and_convert_time (snd out)) ;;
    update_self (set_proof_formatted_time time) ;;;
    logging INFO (lit "Proof generation execution time measured.") ;;;
    ret true
  else if str_eqb choice (lit "6") then
    logging INFO (lit "Printing Benchmark Details:") ;;;
    display_results ;;;
    ret true
  else if str_eqb choice (lit "7") then
    logging INFO (lit "Exiting.") ;;;
    ret false
  else ret true.

Definition print_menu : M unit :=
  print ([newline] ++ lit "Benchmark Tool Menu:") ;;;
  print (lit "1. Verify Build") ;;;
  print (lit "2. Measure Assigner Heap Allocation") ;;;
  print (lit "3. Measure Proof Generation Heap Allocation") ;;;
  print (lit "4. Measure Assigner Execution Time") ;;;
  print (lit "5. Measure Proof Generation Execution Time") ;;;
  print (lit "6. Display Results") ;;;
  print (lit "7. Exit") ;;;
  write (lit "Enter your choice (1-7): ").

(** The [while True] loop, over the lines the operator will type;
    [input] raises [EOFError] when they run out. *)
Fixpoint menu_loop (inputs : list str) : M unit :=
  match inputs with
  | [] => print_menu ;;; raise EOFError
  | choice :: rest =>
      print_menu ;;;
      continue <- menu_action choice ;;
      if continue then menu_loop rest else ret tt
  end.

(** [run()] *)
Definition run (inputs : list str) : M unit :=
  ok <- verify_build ;;
  if negb ok then logging ERROR build_failed
  else menu_loop inputs.
End Session.

(** * Properties *)

(** ** Character classes and runs *)

Lemma is_digit_not_space c : is_digit c = true -> is_space c = false.
Proof.
  destruct c as [[] [] [] [] [] [] [] []]; intro H;
    (reflexivity || discriminate H).
Qed.

Lemma is_space_not_digit c : is_space c = true -> is_digit c = false.
Proof.
  destruct (is_digit c) eqn:E; [|reflexivity].
  rewrite (is_digit_not_space c E). discriminate.
Qed.

Lemma is_digit_not_char c (a : ascii) :
  is_digit a = false -> is_digit c = true -> Ascii.eqb a c = false.
Proof.
  intros Ha Hc. destruct (Ascii.eqb_spec a c); [subst; congruence|reflexivity].
Qed.

Definition nonempty (s : str) : bool :=
  match s with
  | [] => false
  | _ :: _ => true
  end.

Section Runs.
Variable p : ascii -> bool.

Lemma take_drop_while s : take_while p s ++ drop_while p s = s.
Proof.
  induction s as [|c s IH]; simpl; [reflexivity|].
  destruct (p c); simpl; [rewrite IH|]; reflexivity.
Qed.

Lemma take_while_all s : forallb p (take_while p s) = true.
Proof.
  induction s as [|c s IH]; simpl; [reflexivity|].
  destruct (p c) eqn:E; simpl; [rewrite E, IH|]; reflexivity.
Qed.

Lemma drop_while_head s c r : drop_while p s = c :: r -> p c = false.
Proof.
  induction s as [|a s IH]; simpl; [discriminate|].
  destruct (p a) eqn:E; [exact IH|].
  intros H; injection H as -> _; exact E.
Qed.

(** A text that does not start with a [p] character. *)
Definition stops (s : str) : Prop :=
  match s with
  | c :: _ => p c = false
  | [] => True
  end.

Lemma drop_while_stops s : stops (drop_while p s).
Proof.
  destruct (drop_while p s) as [|c r] eqn:E; simpl; [exact I|].
  exact (drop_while_head _ E).
Qed.

Lemma take_while_app a b :
  forallb p a = true -> stops b -> take_while p (a ++ b) = a.
Proof.
  induction a as [|c a IH]; simpl; intros Ha Hb.
  - destruct b as [|c b]; simpl in *; [reflexivity|now rewrite Hb].
  - apply andb_prop in Ha as [Hc Ha]. rewrite Hc, IH; auto.
Qed.

Lemma drop_while_app a b :
  forallb p a = true -> stops b -> drop_while p (a ++ b) = b.
Proof.
  induction a as [|c a IH]; simpl; intros Ha Hb.
  - destruct b as [|c b]; simpl in *; [reflexivity|now rewrite Hb].
  - apply andb_prop in Ha as [Hc Ha]. rewrite Hc, IH; auto.
Qed.

Lemma firstn_take_while s :
  firstn (List.length (take_while p s)) s = take_while p s.
Proof.
  induction s as [|c s IH]; simpl; [reflexivity|].
  destruct (p c); simpl; [rewrite IH|]; reflexivity.
Qed.

(** When the continuation refuses every text that starts with a [p]
    character, giving back characters cannot help: the greedy loop
    commits to the longest run. *)
Lemma greedy_commit R (k : nat -> str -> option R) :
  (forall j c s', p c = true -> k j (c :: s') = None) ->
  forall s i,
    greedy p i s k
    = k (i + List.length (take_while p s))%nat (drop_while p s).
Proof.
  intros Hk. induction s as [|c s IH]; intros i; simpl.
  - now rewrite Nat.add_0_r.
  - destruct (p c) eqn:E; simpl.
    + rewrite IH. replace (S i + List.length (take_while p s))%nat
        with (i + S (List.length (take_while p s)))%nat by lia.
      destruct (k _ (drop_while p s)) eqn:Ek; [reflexivity|].
      now rewrite Hk.
    + now rewrite Nat.add_0_r.
Qed.

Lemma exec_Star R i s caps (k : nat -> str -> list str -> option R) :
  (forall j c s', p c = true -> k j (c :: s') caps = None) ->
  exec (Star p) i s caps k
  = k (i + List.length (take_while p s))%nat (drop_while p s) caps.
Proof.
  intros Hk. simpl. now rewrite greedy_commit.
Qed.

Lemma exec_Plus R i s caps (k : nat -> str -> list str -> option R) :
  (forall j c s', p c = true -> k j (c :: s') caps = None) ->
  exec (Plus p) i s caps k
  = if nonempty (take_while p s)
    then k (i + List.length (take_while p s))%nat (drop_while p s) caps
    else None.
Proof.
  intros Hk. destruct s as [|c s]; simpl; [reflexivity|].
  destruct (p c) eqn:E; [|reflexivity].
  rewrite greedy_commit by auto. simpl. f_equal. lia.
Qed.
End Runs.

Lemma firstn_exact A n (a b : list A) :
  n = List.length a -> firstn n (a ++ b) = a.
Proof.
  intros ->. rewrite firstn_app, firstn_all, Nat.sub_diag. simpl.
  apply app_nil_r.
Qed.

Lemma app_inj_len A (a a' b b' : list A) :
  List.length a = List.length a' -> a ++ b = a' ++ b' -> a = a' /\ b = b'.
Proof.
  revert a'. induction a as [|x a IH]; intros [|x' a']; simpl;
    try discriminate; [now split|].
  intros [= Hl] [= -> Hab]. destruct (IH _ Hl Hab) as [-> ->]. now split.
Qed.

Lemma strip_prefix_app w s : strip_prefix w (w ++ s) = Some s.
Proof.
  induction w as [|a w IH]; simpl; [reflexivity|].
  now rewrite Ascii.eqb_refl.
Qed.

Lemma strip_prefix_Some w s r : strip_prefix w s = Some r -> s = w ++ r.
Proof.
  revert s. induction w as [|a w IH]; intros s; simpl.
  - now intros [= ->].
  - destruct s as [|c s]; [discriminate|].
    destruct (Ascii.eqb_spec a c); [|discriminate].
    subst. intros H. now rewrite (IH _ H).
Qed.

Lemma exec_Cat R r1 r2 i s caps (k : nat -> str -> list str -> option R) :
  exec (Cat r1 r2) i s caps k
  = exec r1 i s caps (fun j s' caps' => exec r2 j s' caps' k).
Proof. reflexivity. Qed.

Lemma exec_Group R r i s caps (k : nat -> str -> list str -> option R) :
  exec (Group r) i s caps k
  = exec r i s caps (fun j s' caps' => k j s' (caps' ++ [firstn (j - i) s])).
Proof. reflexivity. Qed.

Lemma exec_Lit R w i s caps (k : nat -> str -> list str -> option R) :
  exec (Lit w) i s caps k
  = match strip_prefix w s with
    | Some s' => k (i + List.length w)%nat s' caps
    | None => None
    end.
Proof. reflexivity. Qed.

(** A literal that starts with a character outside a class refuses every
    text that starts inside the class. *)
Lemma exec_Lit_refuses R (p : ascii -> bool) a w j c s caps
      (k : nat -> str -> list str -> option R) :
  p a = false -> p c = true -> exec (Lit (a :: w)) j (c :: s) caps k = None.
Proof.
  intros Ha Hc. simpl.
  destruct (Ascii.eqb_spec a c); [subst; congruence|reflexivity].
Qed.

(** ** The shape of a match of [time_pattern] *)

(** The match of [time_pattern] at the head of [s], in closed form. *)
Definition time_token (i : nat) (s : str) : option match_obj :=
  let m := take_while is_digit s in
  if nonempty m then
    match strip_prefix (lit ":") (drop_while is_digit s) with
    | Some s1 =>
        let sd := take_while is_digit s1 in
        if nonempty sd then
          match strip_prefix (lit ".") (drop_while is_digit s1) with
          | Some s2 =>
              let fd := take_while is_digit s2 in
              if nonempty fd then
                match strip_prefix (lit "elapsed") (drop_while is_digit s2) with
                | Some _ =>
                    Some ([m; sd ++ lit "." ++ fd],
                          (i + List.length m + 1 + List.length sd + 1
                           + List.length fd + 7)%nat)
                | None => None
                end
              else None
          | None => None
          end
        else None
    | None => None
    end
  else None.

Lemma match_at_time_pattern i s : match_at time_pattern i s = time_token i s.
Proof.
  unfold match_at, time_pattern, time_token.
  rewrite exec_Cat, exec_Group, exec_Plus
    by (intros; rewrite exec_Cat; now apply exec_Lit_refuses with is_digit).
  destruct (nonempty (take_while is_digit s)); [|reflexivity].
  rewrite exec_Cat, exec_Lit.
  destruct (strip_prefix (lit ":") (drop_while is_digit s)) as [s1|] eqn:E1;
    [|reflexivity].
  rewrite exec_Cat, exec_Group, exec_Cat, exec_Plus
    by (intros; rewrite exec_Cat; now apply exec_Lit_refuses with is_digit).
  destruct (nonempty (take_while is_digit s1)); [|reflexivity].
  rewrite exec_Cat, exec_Lit.
  destruct (strip_prefix (lit ".") (drop_while is_digit s1)) as [s2|] eqn:E2;
    [|reflexivity].
  rewrite exec_Plus by (intros; now apply exec_Lit_refuses with is_digit).
  destruct (nonempty (take_while is_digit s2)); [|reflexivity].
  rewrite exec_Lit.
  destruct (strip_prefix (lit "elapsed") (drop_while is_digit s2)) as [s3|] eqn:E3;
    [|reflexivity].
  apply strip_prefix_Some in E2.
  f_equal. f_equal.
  - simpl. f_equal.
    + replace (i + List.length (take_while is_digit s) - i)%nat
        with (List.length (take_while is_digit s)) by lia.
      apply firstn_take_while.
    + f_equal.
      rewrite <- (take_drop_while is_digit s1) at 2. rewrite E2.
      set (sd := take_while is_digit s1). set (fd := take_while is_digit s2).
      rewrite <- (take_drop_while is_digit s2). fold fd.
      replace (sd ++ lit "." ++ fd ++ drop_while is_digit s2)
        with ((sd ++ lit "." ++ fd) ++ drop_while is_digit s2)
        by (now rewrite <- !app_assoc).
      apply firstn_exact. rewrite !length_app. simpl. lia.
Qed.

(** ** What the specification calls an elapsed token *)

(** One or more decimal digits. *)
Definition digits (s : str) : Prop := s <> [] /\ forallb is_digit s = true.

(** The text [<minutes>:<seconds>.<fraction>elapsed]. *)
Definition elapsed_token (m sd fd : str) : str :=
  m ++ lit ":" ++ sd ++ lit "." ++ fd ++ lit "elapsed".

(** [text] holds such a token right after [pre]. *)
Definition token_at (text pre m sd fd post : str) : Prop :=
  text = pre ++ elapsed_token m sd fd ++ post
  /\ digits m /\ digits sd /\ digits fd.

Definition has_token (text : str) : Prop :=
  exists pre m sd fd post, token_at text pre m sd fd post.

(** The token that starts first; its start fixes the token, since each of
    its digit runs ends at a character that is not a digit. *)
Definition first_token (text pre m sd fd post : str) : Prop :=
  token_at text pre m sd fd post
  /\ forall pre' m' sd' fd' post',
       token_at text pre' m' sd' fd' post' ->
       (List.length pre <= List.length pre')%nat.

(** The number a run of digits writes. *)
Definition decimal_value (s : str) : Z := Float64.digits_value 0 s.

Lemma digits_nonempty s : digits s -> nonempty s = true.
Proof. intros [H _]. destruct s; [congruence|reflexivity]. Qed.

Lemma nonempty_digits s :
  nonempty (take_while is_digit s) = true -> digits (take_while is_digit s).
Proof.
  intros H. split; [|apply take_while_all].
  destruct (take_while is_digit s); [discriminate|congruence].
Qed.

Lemma time_token_complete i m sd fd post :
  digits m -> digits sd -> digits fd ->
  time_token i (elapsed_token m sd fd ++ post)
  = Some ([m; sd ++ lit "." ++ fd],
          (i + List.length (elapsed_token m sd fd))%nat).
Proof.
  intros Hm Hsd Hfd. unfold time_token, elapsed_token.
  rewrite <- !app_assoc.
  rewrite take_while_app, drop_while_app by (apply Hm || exact eq_refl).
  rewrite (digits_nonempty Hm), strip_prefix_app.
  rewrite take_while_app, drop_while_app by (apply Hsd || exact eq_refl).
  rewrite (digits_nonempty Hsd), strip_prefix_app.
  rewrite take_while_app, drop_while_app by (apply Hfd || exact eq_refl).
  rewrite (digits_nonempty Hfd), strip_prefix_app.
  do 2 f_equal. rewrite !length_app. simpl. lia.
Qed.

Lemma time_token_sound i s caps j :
  time_token i s = Some (caps, j) ->
  exists m sd fd post,
    s = elapsed_token m sd fd ++ post
    /\ digits m /\ digits sd /\ digits fd
    /\ caps = [m; sd ++ lit "." ++ fd].
Proof.
  unfold time_token.
  destruct (nonempty (take_while is_digit s)) eqn:Nm; [|discriminate].
  destruct (strip_prefix (lit ":") (drop_while is_digit s)) as [s1|] eqn:E1;
    [|discriminate].
  destruct (nonempty (take_while is_digit s1)) eqn:Nsd; [|discriminate].
  destruct (strip_prefix (lit ".") (drop_while is_digit s1)) as [s2|] eqn:E2;
    [|discriminate].
  destruct (nonempty (take_while is_digit s2)) eqn:Nfd; [|discriminate].
  destruct (strip_prefix (lit "elapsed") (drop_while is_digit s2)) as [s3|] eqn:E3;
    [|discriminate].
  intros [= <- _].
  exists (take_while is_digit s), (take_while is_digit s1),
    (take_while is_digit s2), s3.
  repeat split; try (apply nonempty_digits; assumption).
  apply strip_prefix_Some in E1, E2, E3.
  unfold elapsed_token. rewrite <- !app_assoc.
  rewrite <- E3, (take_drop_while is_digit s2), <- E2,
    (take_drop_while is_digit s1), <- E1.
  symmetry. apply take_drop_while.
Qed.

(** ** [re.search] finds the leftmost match *)

Lemma search_from_first r m rest pre i :
  (forall p1 c p2, pre = p1 ++ c :: p2 ->
     match_at r (i + List.length p1) (c :: p2 ++ rest) = None) ->
  match_at r (i + List.length pre) rest = Some m ->
  search_from r i (pre ++ rest) = Some m.
Proof.
  revert i. induction pre as [|c pre IH]; intros i Hnone Hm.
  - simpl in *. rewrite Nat.add_0_r in Hm.
    destruct rest; simpl; now rewrite Hm.
  - simpl. specialize (Hnone [] c pre eq_refl) as H0.
    simpl in H0. rewrite Nat.add_0_r in H0. rewrite H0.
    apply IH.
    + intros p1 c' p2 ->. specialize (Hnone (c :: p1) c' p2 eq_refl).
      simpl in Hnone. now replace (S i + List.length p1)%nat
        with (i + S (List.length p1))%nat by lia.
    + simpl in Hm. now replace (S i + List.length pre)%nat
        with (i + S (List.length pre))%nat by lia.
Qed.

Lemma search_from_Some r m s i :
  search_from r i s = Some m ->
  exists pre rest,
    s = pre ++ rest
    /\ match_at r (i + List.length pre) rest = Some m
    /\ forall p1 c p2, pre = p1 ++ c :: p2 ->
         match_at r (i + List.length p1) (c :: p2 ++ rest) = None.
Proof.
  revert i. induction s as [|c s IH]; intros i; simpl.
  - destruct (match_at r i []) eqn:E; [|discriminate].
    intros [= ->]. exists [], []. simpl. rewrite Nat.add_0_r.
    repeat split; auto. intros [|? ?] ? ? ?; discriminate.
  - destruct (match_at r i (c :: s)) eqn:E.
    + intros [= ->]. exists [], (c :: s). simpl. rewrite Nat.add_0_r.
      repeat split; auto. intros [|? ?] ? ? ?; discriminate.
    + intros H. destruct (IH _ H) as (pre & rest & -> & Hm & Hnone).
      exists (c :: pre), rest. simpl. repeat split.
      * now replace (i + S (List.length pre))%nat
          with (S i + List.length pre)%nat by lia.
      * intros [|a p1] c' p2 Heq; simpl in *.
        -- injection Heq as <- <-. now rewrite Nat.add_0_r.
        -- injection Heq as <- ->.
           replace (i + S (List.length p1))%nat
             with (S i + List.length p1)%nat by lia.
           now apply Hnone.
Qed.

Lemma search_from_None r s i :
  search_from r i s = None ->
  forall pre rest, s = pre ++ rest ->
    match_at r (i + List.length pre) rest = None.
Proof.
  revert i. induction s as [|c s IH]; intros i; simpl.
  - destruct (match_at r i []) eqn:E; [discriminate|].
    intros _ [|? ?] [|? ?]; try discriminate. simpl.
    now rewrite Nat.add_0_r.
  - destruct (match_at r i (c :: s)) eqn:E; [discriminate|].
    intros H [|a pre] rest Heq; simpl in *.
    + subst rest. now rewrite Nat.add_0_r.
    + injection Heq as <- ->.
      replace (i + S (List.length pre))%nat
        with (S i + List.length pre)%nat by lia.
      now apply IH.
Qed.

(** The whole of [re.search(time_pattern, text)]: the groups of the first
    token, or nothing when the text holds no token. *)
Lemma re_search_time_pattern text :
  match re_search time_pattern text with
  | Some (caps, _) =>
      exists pre m sd fd post,
        first_token text pre m sd fd post /\ caps = [m; sd ++ lit "." ++ fd]
  | None => ~ has_token text
  end.
Proof.
  unfold re_search.
  destruct (search_from time_pattern 0 text) as [[caps j]|] eqn:E.
  - apply search_from_Some in E as (pre & rest & -> & Hm & Hnone).
    rewrite match_at_time_pattern in Hm.
    apply time_token_sound in Hm as (m & sd & fd & post & -> & Hd1 & Hd2 & Hd3 & ->).
    exists pre, m, sd, fd, post. split; [|reflexivity].
    split; [exact (conj eq_refl (conj Hd1 (conj Hd2 Hd3)))|].
    intros pre' m' sd' fd' post' (Heq & H1 & H2 & H3).
    destruct (Nat.le_gt_cases (List.length pre) (List.length pre'))
      as [|Hlt]; [assumption|exfalso].
    (* an earlier token would have matched first *)
    assert (Hsplit : exists c p2, pre = pre' ++ c :: p2
               /\ c :: p2 ++ elapsed_token m sd fd ++ post
                  = elapsed_token m' sd' fd' ++ post').
    { clear Hnone. revert pre' Heq Hlt.
      induction pre as [|a pre IH]; intros pre' Heq Hlt;
        [simpl in Hlt; lia|].
      destruct pre' as [|a' pre'].
      - exists a, pre. split; [reflexivity|]. exact Heq.
      - simpl in Heq. injection Heq as <- Heq. simpl in Hlt.
        destruct (IH pre' Heq) as (c & p2 & -> & Hc); [lia|].
        exists c, p2. split; [reflexivity|exact Hc]. }
    destruct Hsplit as (c & p2 & -> & Hc).
    specialize (Hnone pre' c p2 eq_refl).
    rewrite match_at_time_pattern, Hc, time_token_complete in Hnone by auto.
    discriminate.
  - intros (pre & m & sd & fd & post & -> & H1 & H2 & H3).
    pose proof (@search_from_None _ _ _ E pre _ eq_refl) as Hn.
    rewrite match_at_time_pattern, time_token_complete in Hn by auto.
    discriminate.
Qed.

(** ** Conversions of the two groups *)

Lemma drop_while_id p s : stops p s -> drop_while p s = s.
Proof. destruct s as [|c s]; simpl; [reflexivity|now intros ->]. Qed.

Lemma forallb_stops (p q : ascii -> bool) s :
  (forall c, q c = true -> p c = false) -> forallb q s = true -> stops p s.
Proof.
  intros Hpq. destruct s as [|c s]; simpl; [trivial|].
  intros H. apply andb_prop in H as [H _]. auto.
Qed.

Lemma forallb_rev A (f : A -> bool) (l : list A) :
  forallb f (rev l) = forallb f l.
Proof.
  induction l as [|a l IH]; simpl; [reflexivity|].
  rewrite forallb_app, IH. simpl. rewrite andb_true_r. apply andb_comm.
Qed.

Lemma strip_digits s : forallb is_digit s = true -> strip s = s.
Proof.
  intros H. unfold strip.
  rewrite (drop_while_id is_space s)
    by (eapply forallb_stops; [apply is_digit_not_space|exact H]).
  rewrite drop_while_id, rev_involutive; [reflexivity|].
  eapply forallb_stops; [apply is_digit_not_space|].
  now rewrite forallb_rev.
Qed.

Lemma int_body_digits s :
  forallb is_digit s = true ->
  forall b acc n, s <> [] \/ b = true ->
    int_body b acc n s
    = Some (Float64.digits_value acc s, (n + List.length s)%nat).
Proof.
  induction s as [|c s IH]; simpl; intros H b acc n Hb.
  - destruct Hb as [Hb| ->]; [congruence|]. now rewrite Nat.add_0_r.
  - apply andb_prop in H as [Hc Hs]. rewrite Hc.
    rewrite IH by auto. do 2 f_equal. lia.
Qed.

(** [int] of a run of digits: its value, unless the run is longer than
    CPython allows. *)
Lemma py_int_digits s :
  digits s ->
  py_int s = if (int_max_str_digits <? List.length s)%nat
             then Raise ValueError else Ok (decimal_value s).
Proof.
  intros [Hne Hd]. unfold py_int. rewrite (strip_digits _ Hd).
  destruct s as [|c s]; [congruence|].
  assert (Hc : is_digit c = true) by (simpl in Hd; now apply andb_prop in Hd).
  rewrite (Ascii.eqb_sym c "+"), (Ascii.eqb_sym c "-").
  rewrite !(is_digit_not_char c) by (exact Hc || reflexivity).
  rewrite int_body_digits by (auto; left; discriminate).
  simpl Nat.add. destruct (_ <? _)%nat; [reflexivity|].
  unfold decimal_value. f_equal.
  destruct (Float64.digits_value 0 (c :: s)); reflexivity.
Qed.

(** The float nearest to the decimal number [sd.fd]. *)
Definition seconds_value (sd fd : str) : Float64.t :=
  Float64.of_ratio (decimal_value (sd ++ fd))
                   (10 ^ Z.of_nat (List.length fd)).

Lemma of_str_decimal sd fd :
  digits sd -> digits fd ->
  Float64.of_str (sd ++ lit "." ++ fd) = Ok (seconds_value sd fd).
Proof.
  intros [Hn1 Hd1] [Hn2 Hd2]. unfold Float64.of_str.
  rewrite take_while_app, drop_while_app by (exact Hd1 || exact eq_refl).
  simpl. rewrite Hd2.
  destruct sd; [congruence|]. destruct fd; [congruence|]. reflexivity.
Qed.

(** The call on a text whose first token is known. *)
Lemma extract_first_token text pre m sd fd post :
  first_token text pre m sd fd post ->
  extract_and_convert_time text
  = if (int_max_str_digits <? List.length m)%nat then Raise ValueError
    else match Float64.of_int (decimal_value m * 60) with
         | Ok total => Ok (Some (Float64.add total (seconds_value sd fd)))
         | Raise e => Raise e
         end.
Proof.
  intros Hfirst. unfold extract_and_convert_time.
  pose proof (re_search_time_pattern text) as Hs.
  destruct (re_search time_pattern text) as [[caps j]|].
  - destruct Hs as (pre' & m' & sd' & fd' & post' & Hfirst' & ->).
    (* both are the first token, so they are the same token *)
    destruct Hfirst as [Ht Hmin], Hfirst' as [Ht' Hmin'].
    pose proof (Hmin _ _ _ _ _ Ht') as L1.
    pose proof (Hmin' _ _ _ _ _ Ht) as L2.
    destruct Ht as (Heq & Hm & Hsd & Hfd), Ht' as (Heq' & Hm' & Hsd' & Hfd').
    assert (Hpre : pre = pre' /\
                   elapsed_token m sd fd ++ post
                   = elapsed_token m' sd' fd' ++ post').
    { rewrite Heq in Heq'. apply app_inj_len; [lia|exact Heq']. }
    destruct Hpre as [_ Htok].
    pose proof (time_token_complete 0 post Hm Hsd Hfd) as T.
    pose proof (time_token_complete 0 post' Hm' Hsd' Hfd') as T'.
    rewrite Htok, T' in T. injection T as -> Hsec _.
    rewrite py_int_digits by assumption.
    destruct (_ <? _)%nat; [reflexivity|]. simpl rbind.
    rewrite Hsec. change (sd ++ "."%char :: fd) with (sd ++ lit "." ++ fd).
    rewrite of_str_decimal by assumption. simpl rbind.
    destruct (Float64.of_int _); reflexivity.
  - exfalso. apply Hs. destruct Hfirst as [Ht _].
    now exists pre, m, sd, fd, post.
Qed.

(** ** When an integer converts to a float *)

Section FloatRange.
Local Open Scope Z_scope.
Import Float64.

(** The least integer that no longer rounds to a finite binary64
    value: halfway between the largest one and [2^1024]. *)
Definition float_overflow : Z := 2 ^ 1024 - 2 ^ 970.

Lemma ilog2_ratio_le p q : ilog2_ratio p q <= Z.log2 p - Z.log2 q.
Proof.
  unfold ilog2_ratio.
  destruct (if 0 <=? _ then _ else _); lia.
Qed.

Lemma round_half_even_le p q :
  0 <= p -> 0 < q -> round_half_even p q <= p / q + 1.
Proof.
  intros Hp Hq. unfold round_half_even.
  destruct (_ || _); lia.
Qed.

(** Below [float_overflow] the mantissa at the top exponent stays under
    [2^53]. *)
Lemma round_top n :
  0 <= n < float_overflow -> round_half_even n (1 * 2 ^ 971) < 2 ^ 53.
Proof.
  unfold float_overflow. intros [H0 Hn].
  replace (2 ^ 1024) with (2 ^ 54 * 2 ^ 970) in Hn
    by (rewrite <- Z.pow_add_r by lia; reflexivity).
  replace (1 * 2 ^ 971) with (2 * 2 ^ 970)
    by (rewrite Z.mul_1_l; change 971 with (1 + 970);
        rewrite Z.pow_add_r by lia; reflexivity).
  assert (HQ : 0 < 2 ^ 970) by (apply Z.pow_pos_nonneg; lia).
  set (Q := 2 ^ 970) in *. clearbody Q.
  unfold round_half_even.
  pose proof (Z.div_mod n (2 * Q) ltac:(lia)) as Hdm.
  pose proof (Z.mod_pos_bound n (2 * Q) ltac:(lia)) as Hr.
  set (m := n / (2 * Q)) in *. set (r := n mod (2 * Q)) in *.
  clearbody m r.
  assert (Hm : m <= 2 ^ 53 - 1) by nia.
  destruct (Z.eq_dec m (2 ^ 53 - 1)) as [->|Hne].
  - assert (r < Q) by lia.
    replace (2 * Q <? 2 * r) with false by (symmetry; apply Z.ltb_ge; lia).
    replace (2 * Q =? 2 * r) with false by (symmetry; apply Z.eqb_neq; lia).
    simpl. lia.
  - destruct (_ || _); lia.
Qed.

Lemma of_int_below_overflow n :
  0 <= n < float_overflow -> exists m e, of_int n = Ok (Finite m e).
Proof.
  intros Hn. unfold of_int, of_signed_ratio.
  replace (n <? 0) with false by (symmetry; apply Z.ltb_ge; lia).
  unfold of_ratio. destruct (n =? 0) eqn:E0; [eauto|].
  apply Z.eqb_neq in E0.
  assert (Hlog : Z.log2 n <= 1023).
  { assert (Z.log2 n < 1024); [|lia].
    apply Z.log2_lt_pow2; [lia|]. unfold float_overflow in Hn.
    assert (0 < 2 ^ 970) by (apply Z.pow_pos_nonneg; lia). lia. }
  pose proof (ilog2_ratio_le n 1) as Hk. change (Z.log2 1) with 0 in Hk.
  set (e0 := Z.max emin (ilog2_ratio n 1 - 52)).
  assert (He0 : e0 <= 971) by (unfold e0, emin; lia).
  set (m0 := if 0 <=? e0 then round_half_even n (1 * 2 ^ e0)
             else round_half_even (n * 2 ^ (- e0)) 1).
  destruct (m0 =? 2 ^ 53) eqn:Em.
  - assert (e0 <> 971).
    { intros He. apply Z.eqb_eq in Em. unfold m0 in Em.
      rewrite He in Em. change (0 <=? 971) with true in Em. cbv iota in Em.
      pose proof (round_top Hn). lia. }
    replace (emax <? e0 + 1) with false
      by (symmetry; apply Z.ltb_ge; unfold emax; lia).
    eauto.
  - replace (emax <? e0) with false
      by (symmetry; apply Z.ltb_ge; unfold emax; lia).
    eauto.
Qed.

(** The only exception of the conversion is [OverflowError]. *)
Lemma of_int_raises n e : of_int n = Raise e -> e = OverflowError.
Proof.
  unfold of_int. destruct (of_signed_ratio n 1); congruence.
Qed.

Lemma ilog2_ratio_int n : 0 < n -> ilog2_ratio n 1 = Z.log2 n.
Proof.
  intros Hn. unfold ilog2_ratio. change (Z.log2 1) with 0.
  rewrite Z.sub_0_r. pose proof (Z.log2_nonneg n).
  replace (0 <=? Z.log2 n) with true by (symmetry; apply Z.leb_le; lia).
  replace (1 * 2 ^ Z.log2 n <=? n) with true; [reflexivity|].
  symmetry. apply Z.leb_le. rewrite Z.mul_1_l. now apply Z.log2_spec.
Qed.

(** From [float_overflow] on the mantissa at the top exponent rounds up
    to [2^53]. *)
Lemma round_top_up n :
  float_overflow <= n < 2 ^ 1024 -> round_half_even n (1 * 2 ^ 971) = 2 ^ 53.
Proof.
  unfold float_overflow. intros [Hn Hlt].
  replace (2 ^ 1024) with (2 ^ 54 * 2 ^ 970) in Hn, Hlt
    by (rewrite <- Z.pow_add_r by lia; reflexivity).
  replace (1 * 2 ^ 971) with (2 * 2 ^ 970)
    by (rewrite Z.mul_1_l; change 971 with (1 + 970);
        rewrite Z.pow_add_r by lia; reflexivity).
  assert (HQ : 0 < 2 ^ 970) by (apply Z.pow_pos_nonneg; lia).
  set (Q := 2 ^ 970) in *. clearbody Q.
  unfold round_half_even.
  pose proof (Z.div_mod n (2 * Q) ltac:(lia)) as Hdm.
  pose proof (Z.mod_pos_bound n (2 * Q) ltac:(lia)) as Hr.
  set (m := n / (2 * Q)) in *. set (r := n mod (2 * Q)) in *.
  clearbody m r.
  assert (Hm : m = 2 ^ 53 - 1) by nia. subst m.
  assert (Q <= r) by lia.
  destruct (Z.eq_dec r Q) as [->|Hne].
  - replace (2 * Q =? 2 * Q) with true by (symmetry; apply Z.eqb_refl).
    change (Z.odd (2 ^ 53 - 1)) with true. rewrite orb_true_r. reflexivity.
  - replace (2 * Q <? 2 * r) with true by (symmetry; apply Z.ltb_lt; lia).
    reflexivity.
Qed.

(** An integer from [float_overflow] on does not convert. *)
Lemma of_int_from_overflow n :
  float_overflow <= n -> of_int n = Raise OverflowError.
Proof.
  intros Hn.
  assert (H1023 : 2 ^ 1023 <= float_overflow) by (vm_compute; discriminate).
  assert (Hpos : 0 < 2 ^ 1023) by (apply Z.pow_pos_nonneg; lia).
  unfold of_int, of_signed_ratio.
  replace (n <? 0) with false by (symmetry; apply Z.ltb_ge; lia).
  unfold of_ratio.
  replace (n =? 0) with false by (symmetry; apply Z.eqb_neq; lia).
  rewrite ilog2_ratio_int by lia.
  assert (Hlog : 1023 <= Z.log2 n).
  { rewrite <- (Z.log2_pow2 1023) by lia. apply Z.log2_le_mono. lia. }
  replace (Z.max emin (Z.log2 n - 52)) with (Z.log2 n - 52)
    by (unfold emin; lia).
  destruct (Z.eq_dec (Z.log2 n) 1023) as [E|NE].
  - rewrite E. change (1023 - 52) with 971. change (0 <=? 971) with true.
    cbv iota. rewrite round_top_up.
    + reflexivity.
    + split; [assumption|].
      pose proof (Z.log2_spec n ltac:(lia)) as [_ Hs].
      rewrite E in Hs. exact Hs.
  - destruct (_ =? 2 ^ 53).
    + replace (emax <? Z.log2 n - 52 + 1) with true
        by (symmetry; apply Z.ltb_lt; unfold emax; lia).
      reflexivity.
    + replace (emax <? Z.log2 n - 52) with true
        by (symmetry; apply Z.ltb_lt; unfold emax; lia).
      reflexivity.
Qed.
End FloatRange.

Lemma is_digit_value c : is_digit c = true -> (0 <= digit_value c <= 9)%Z.
Proof.
  unfold is_digit, ascii_in, digit_value. intros H.
  apply andb_prop in H as [H1 H2].
  apply Nat.leb_le in H1, H2. lia.
Qed.

Lemma digits_value_nonneg s :
  forallb is_digit s = true ->
  forall acc, (0 <= acc)%Z -> (0 <= Float64.digits_value acc s)%Z.
Proof.
  induction s as [|c s IH]; simpl; intros H acc Hacc; [assumption|].
  apply andb_prop in H as [Hc Hs]. apply IH; [assumption|].
  pose proof (is_digit_value c Hc). lia.
Qed.

Lemma decimal_value_nonneg s : digits s -> (0 <= decimal_value s)%Z.
Proof. intros [_ H]. now apply digits_value_nonneg. Qed.

Lemma has_token_dot text : has_token text -> In "."%char text.
Proof.
  intros (pre & m & sd & fd & post & -> & _).
  unfold elapsed_token. rewrite !in_app_iff. simpl. tauto.
Qed.

Lemma digits_no_dot s : forallb is_digit s = true -> ~ In "."%char s.
Proof.
  intros H Hin. rewrite forallb_forall in H. now apply H in Hin.
Qed.

(** ** C2 and C10: the elapsed-time extractor *)

Lemma extract_no_token text :
  ~ has_token text -> extract_and_convert_time text = Ok None.
Proof.
  intros Hno. unfold extract_and_convert_time.
  pose proof (re_search_time_pattern text) as Hs.
  destruct (re_search time_pattern text) as [[caps j]|]; [|reflexivity].
  destruct Hs as (pre & m & sd & fd & post & [Ht _] & _).
  exfalso. apply Hno. now exists pre, m, sd, fd, post.
Qed.

(** C2, as the code has it.  When the text holds no token of the form
    [<minutes>:<seconds>.<fraction>elapsed] the call returns [None].
    Otherwise only the first token counts: if its minutes have at most
    4300 digits and sixty times their value is below [float_overflow],
    the call returns the float sum of [60 * minutes] and of the float
    nearest to the seconds.  The call raises in no other case: an
    exception means that the minutes of the first token have more than
    4300 digits ([ValueError]) or are too large for a float
    ([OverflowError]), and in these two cases it does raise.  A text
    with a token has a first one. *)
Theorem extract_and_convert_time_first_match text :
  (~ has_token text -> extract_and_convert_time text = Ok None)
  /\ (forall pre m sd fd post,
        first_token text pre m sd fd post ->
        (List.length m <= int_max_str_digits)%nat ->
        (decimal_value m * 60 < float_overflow)%Z ->
        exists total,
          Float64.of_int (decimal_value m * 60) = Ok total
          /\ extract_and_convert_time text
             = Ok (Some (Float64.add total (seconds_value sd fd))))
  /\ (forall e,
        extract_and_convert_time text = Raise e ->
        exists pre m sd fd post,
          first_token text pre m sd fd post
          /\ ((int_max_str_digits < List.length m)%nat /\ e = ValueError
              \/ (float_overflow <= decimal_value m * 60)%Z
                 /\ e = OverflowError))
  /\ (forall pre m sd fd post,
        first_token text pre m sd fd post ->
        ((int_max_str_digits < List.length m)%nat ->
         extract_and_convert_time text = Raise ValueError)
        /\ ((List.length m <= int_max_str_digits)%nat ->
            (float_overflow <= decimal_value m * 60)%Z ->
            extract_and_convert_time text = Raise OverflowError))
  /\ (has_token text ->
      exists pre m sd fd post, first_token text pre m sd fd post).
Proof.
  split; [|split; [|split; [|split]]]; cycle 3.
  - intros pre m sd fd post Hfirst.
    rewrite (extract_first_token Hfirst). split.
    + intros Hlen.
      now replace (int_max_str_digits <? List.length m)%nat with true
        by (symmetry; apply Nat.ltb_lt; exact Hlen).
    + intros Hlen Hval.
      replace (int_max_str_digits <? List.length m)%nat with false
        by (symmetry; apply Nat.ltb_ge; exact Hlen).
      now rewrite of_int_from_overflow.
  - intros Htok.
    pose proof (re_search_time_pattern text) as Hs.
    destruct (re_search time_pattern text) as [[caps j]|].
    + destruct Hs as (pre & m & sd & fd & post & Hfirst & _). eauto 6.
    + contradiction.
  - apply extract_no_token.
  - intros pre m sd fd post Hfirst Hlen Hval.
    rewrite (extract_first_token Hfirst).
    replace (int_max_str_digits <? List.length m)%nat with false
      by (symmetry; apply Nat.ltb_ge; exact Hlen).
    destruct Hfirst as [(_ & Hm & _) _].
    destruct (@of_int_below_overflow (decimal_value m * 60)) as (fm & fe & ->).
    + pose proof (decimal_value_nonneg Hm). lia.
    + eauto.
  - intros e He.
    pose proof (re_search_time_pattern text) as Hs.
    destruct (re_search time_pattern text) as [[caps j]|] eqn:Es.
    + destruct Hs as (pre & m & sd & fd & post & Hfirst & _).
      exists pre, m, sd, fd, post. split; [assumption|].
      rewrite (extract_first_token Hfirst) in He.
      destruct (int_max_str_digits <? List.length m)%nat eqn:El.
      * left. apply Nat.ltb_lt in El. split; congruence.
      * right. destruct (Float64.of_int (decimal_value m * 60)) as [total|e'] eqn:Eo;
          [discriminate|].
        injection He as ->. split; [|exact (of_int_raises _ Eo)].
        destruct (Z_lt_le_dec (decimal_value m * 60) float_overflow) as [Hlt|];
          [|assumption].
        destruct Hfirst as [(_ & Hm & _) _].
        destruct (@of_int_below_overflow (decimal_value m * 60)) as (fm & fe & Hok).
        -- pose proof (decimal_value_nonneg Hm). lia.
        -- congruence.
    + unfold extract_and_convert_time in He. rewrite Es in He. discriminate.
Qed.

Definition timing_report : str := lit "0:12.50elapsed 0:12.30 total".

Lemma extract_and_convert_time_first_match_witness :
  first_token timing_report [] (lit "0") (lit "12") (lit "50")
              (lit " 0:12.30 total")
  /\ (List.length (lit "0") <= int_max_str_digits)%nat
  /\ (decimal_value (lit "0") * 60 < float_overflow)%Z
  /\ extract_and_convert_time timing_report
     = Ok (Some (Float64.Finite 7036874417766400 (-49))).
Proof.
  assert (Hfirst : first_token timing_report [] (lit "0") (lit "12")
                               (lit "50") (lit " 0:12.30 total")).
  { split.
    - repeat split; (discriminate || reflexivity).
    - intros. simpl. apply Nat.le_0_l. }
  assert (Hlen : (List.length (lit "0") <= int_max_str_digits)%nat)
    by (vm_compute; lia).
  assert (Hval : (decimal_value (lit "0") * 60 < float_overflow)%Z)
    by (vm_compute; reflexivity).
  split; [exact Hfirst|]. split; [exact Hlen|]. split; [exact Hval|].
  destruct (extract_and_convert_time_first_match timing_report)
    as (_ & H & _).
  destruct (H _ _ _ _ _ Hfirst Hlen Hval) as (total & Htotal & ->).
  vm_compute in Htotal. injection Htotal as <-. reflexivity.
Defined.

(** The claim of C2 that the call never raises fails on a minutes field of
    401 digits: [int] reads it, and adding the float of the seconds raises
    [OverflowError]. *)
Lemma extract_and_convert_time_overflow :
  extract_and_convert_time
    (lit "1" ++ repeat "0"%char 400 ++ lit ":0.0elapsed")
  = Raise OverflowError.
Proof. vm_compute. reflexivity. Qed.

(** C10.  A text with an elapsed token whose seconds are a bare integer,
    and with no token that has a fraction, gives [None]; so does the bare
    token alone, whatever its digits: the match needs a point and digits
    after it. *)
Theorem extract_and_convert_time_needs_fraction :
  (forall pre m s post,
     digits m -> digits s ->
     ~ has_token (pre ++ m ++ lit ":" ++ s ++ lit "elapsed" ++ post) ->
     extract_and_convert_time
       (pre ++ m ++ lit ":" ++ s ++ lit "elapsed" ++ post) = Ok None)
  /\ (forall m s,
        digits m -> digits s ->
        extract_and_convert_time (m ++ lit ":" ++ s ++ lit "elapsed")
        = Ok None).
Proof.
  split.
  - intros pre m s post _ _ Hno.
    now apply extract_no_token.
  - intros m s [_ Hm] [_ Hs].
    apply extract_no_token.
    intros Ht. apply has_token_dot in Ht.
    rewrite !in_app_iff in Ht.
    destruct Ht as [Ht|[Ht|[Ht|Ht]]].
    + exact (digits_no_dot _ Hm Ht).
    + simpl in Ht. intuition discriminate.
    + exact (digits_no_dot _ Hs Ht).
    + simpl in Ht. intuition discriminate.
Qed.

Lemma extract_and_convert_time_needs_fraction_witness :
  digits (lit "1") /\ digits (lit "05")
  /\ extract_and_convert_time (lit "1:05elapsed") = Ok None.
Proof.
  assert (H1 : digits (lit "1")) by (split; [discriminate|reflexivity]).
  assert (H2 : digits (lit "05")) by (split; [discriminate|reflexivity]).
  split; [exact H1|]. split; [exact H2|].
  exact (proj2 extract_and_convert_time_needs_fraction _ _ H1 H2).
Defined.

(** ** The shape of a table line *)

Lemma exec_Plus_refuses R (p : ascii -> bool) j c s caps
      (k : nat -> str -> list str -> option R) :
  p c = false -> exec (Plus p) j (c :: s) caps k = None.
Proof. intros H. simpl. now rewrite H. Qed.

Lemma exec_Cls_refuses R (p : ascii -> bool) j c s caps
      (k : nat -> str -> list str -> option R) :
  p c = false -> exec (Cls p) j (c :: s) caps k = None.
Proof. intros H. simpl. now rewrite H. Qed.

Lemma exec_Bol R s caps (k : nat -> str -> list str -> option R) :
  exec Bol 0 s caps k = k 0%nat s caps.
Proof. reflexivity. Qed.

(** Whether [table_pattern] matches a line, in closed form. *)
Definition table_line_runs (line : str) : bool :=
  let s1 := drop_while is_space line in
  let s2 := drop_while is_digit s1 in
  nonempty (take_while is_digit s1)
  && nonempty (take_while is_space s2)
  && match drop_while is_space s2 with
     | c :: _ => is_digit c
     | [] => false
     end.

Lemma is_table_line_runs line : is_table_line line = table_line_runs line.
Proof.
  unfold is_table_line, re_match, match_at, table_pattern, table_line_runs.
  rewrite exec_Cat, exec_Bol.
  rewrite exec_Cat, exec_Star
    by (intros; rewrite exec_Cat; apply exec_Plus_refuses;
        now apply is_space_not_digit).
  rewrite exec_Cat, exec_Plus
    by (intros; rewrite exec_Cat; apply exec_Plus_refuses;
        now apply is_digit_not_space).
  destruct (nonempty (take_while is_digit _)); [|reflexivity].
  rewrite exec_Cat, exec_Plus
    by (intros; apply exec_Cls_refuses; now apply is_space_not_digit).
  destruct (nonempty (take_while is_space _)); [|reflexivity].
  simpl. destruct (drop_while is_space _) as [|c r]; [reflexivity|].
  destruct (is_digit c); reflexivity.
Qed.

(** The shape in the words of the specification: optional white space,
    one or more digits, one or more white-space characters, a digit. *)
Definition table_shape (line : str) : Prop :=
  exists ws ds ws' d rest,
    line = ws ++ ds ++ ws' ++ d :: rest
    /\ forallb is_space ws = true
    /\ digits ds
    /\ ws' <> [] /\ forallb is_space ws' = true
    /\ is_digit d = true.

Lemma nonempty_true s : nonempty s = true <-> s <> [].
Proof. destruct s; simpl; split; congruence. Qed.

Lemma is_table_line_shape line :
  is_table_line line = true <-> table_shape line.
Proof.
  rewrite is_table_line_runs. unfold table_line_runs. split.
  - intros H. apply andb_prop in H as [H H3]. apply andb_prop in H as [H1 H2].
    set (s1 := drop_while is_space line) in *.
    set (s2 := drop_while is_digit s1) in *.
    destruct (drop_while is_space s2) as [|d rest] eqn:E3; [discriminate|].
    exists (take_while is_space line), (take_while is_digit s1),
      (take_while is_space s2), d, rest.
    repeat split; try apply take_while_all; try (now apply nonempty_true);
      try assumption.
    rewrite <- E3, (take_drop_while is_space s2).
    unfold s2. rewrite (take_drop_while is_digit s1).
    symmetry. apply take_drop_while.
  - intros (ws & ds & ws' & d & rest & -> & Hws & [Hne Hds] & Hne' & Hws' & Hd).
    assert (S1 : stops is_space (ds ++ ws' ++ d :: rest)).
    { destruct ds as [|c ds]; [congruence|]. simpl in *.
      apply andb_prop in Hds as [Hc _]. now apply is_digit_not_space. }
    assert (S2 : stops is_digit (ws' ++ d :: rest)).
    { destruct ws' as [|c ws']; [congruence|]. simpl in *.
      apply andb_prop in Hws' as [Hc _]. now apply is_space_not_digit. }
    assert (S3 : stops is_space (d :: rest))
      by (simpl; now apply is_digit_not_space).
    rewrite (@drop_while_app _ _ _ Hws S1).
    rewrite (@take_while_app _ _ _ Hds S2), (@drop_while_app _ _ _ Hds S2).
    rewrite (@take_while_app _ _ _ Hws' S3), (@drop_while_app _ _ _ Hws' S3).
    rewrite Hd. rewrite (proj2 (nonempty_true ds) Hne).
    now rewrite (proj2 (nonempty_true ws') Hne').
Qed.

(** ** The stages of [process_massif_output] *)

(** A line that becomes a row: it has the shape of a table line and at
    least six parts. *)
Definition is_data_line (line : str) : bool :=
  is_table_line line && (6 <=? List.length (parts_of line))%nat.

Definition data_lines (output : str) : list str :=
  filter is_data_line (split_lines output).

(** The dict built for a line with index [n] and parts [ps]. *)
Definition row_record (n : Z) (ps : list str) : record :=
  [(lit "n", CInt n);
   (lit "time(i)", CStr (part 1 ps));
   (lit "total(B)", CStr (part 2 ps));
   (lit "useful-heap(B)", CStr (part 3 ps));
   (lit "extra-heap(B)", CStr (part 4 ps));
   (lit "stacks(B)", CStr (part 5 ps))].

Definition index_of_line (line : str) : result Z :=
  py_int (part 0 (parts_of line)).

Definition parse_data_line (line : str) : result record :=
  n <- index_of_line line ;; Ok (row_record n (parts_of line)).

(** The frame with the six columns of the report. *)
Definition frame6 (c0 c1 c2 c3 c4 c5 : Series) : DataFrame :=
  [(lit "n", c0); (lit "time(i)", c1); (lit "total(B)", c2);
   (lit "useful-heap(B)", c3); (lit "extra-heap(B)", c4);
   (lit "stacks(B)", c5)].

(** Field [i] of a line as an [int64] cell. *)
Definition cell_field (i : nat) (line : str) : result cell :=
  to_int64 (CStr (remove_commas (part i (parts_of line)))).

Lemma parse_table_lines_data lines :
  parse_table_lines (filter is_table_line lines)
  = rmap parse_data_line (filter is_data_line lines).
Proof.
  induction lines as [|l lines IH]; [reflexivity|].
  cbn [filter]. unfold is_data_line at 1.
  destruct (is_table_line l) eqn:Et; cbn [andb]; [|exact IH].
  cbn [parse_table_lines]. rewrite IH. unfold parse_table_line.
  destruct (6 <=? List.length (parts_of l))%nat eqn:E6.
  - cbn [rmap]. unfold parse_data_line, index_of_line.
    destruct (py_int (part 0 (parts_of l))); cbn [rbind]; [|reflexivity].
    destruct (rmap _ _); reflexivity.
  - cbn [rbind]. destruct (rmap _ _); reflexivity.
Qed.

Lemma rmap_map A B C (f : B -> result C) (g : A -> B) xs :
  rmap f (map g xs) = rmap (fun x => f (g x)) xs.
Proof.
  induction xs as [|x xs IH]; simpl; [reflexivity|]. now rewrite IH.
Qed.

Lemma rmap_length A B (f : A -> result B) xs ys :
  rmap f xs = Ok ys -> List.length ys = List.length xs.
Proof.
  revert ys. induction xs as [|x xs IH]; simpl; intros ys.
  - now intros [= <-].
  - destruct (f x); simpl; [|discriminate].
    destruct (rmap f xs); simpl; [|discriminate].
    intros [= <-]. simpl. now rewrite (IH _ eq_refl).
Qed.

Definition records_of (ns : list Z) (ls : list str) : list record :=
  map (fun nl => row_record (fst nl) (parts_of (snd nl))) (combine ns ls).

Lemma rmap_parse_data_line ls :
  rmap parse_data_line ls
  = (ns <- rmap index_of_line ls ;; Ok (records_of ns ls)).
Proof.
  induction ls as [|l ls IH]; simpl; [reflexivity|].
  unfold parse_data_line at 1.
  destruct (index_of_line l); simpl; [|reflexivity].
  rewrite IH. destruct (rmap index_of_line ls); reflexivity.
Qed.

Definition six_keys : list str :=
  [lit "n"; lit "time(i)"; lit "total(B)"; lit "useful-heap(B)";
   lit "extra-heap(B)"; lit "stacks(B)"].

Lemma union_keys_seen rs :
  Forall (fun r => keys r = six_keys) rs ->
  union_keys (rev six_keys) (List.concat (map (@keys cell) rs)) = [].
Proof.
  induction 1 as [|r rs Hr _ IH]; simpl; [reflexivity|].
  rewrite Hr. exact IH.
Qed.

Lemma DataFrame_of_row_records rs :
  Forall (fun r => keys r = six_keys) rs -> rs <> [] ->
  DataFrame_of_records rs
  = map (fun k => (k, map (get_or_nan k) rs)) six_keys.
Proof.
  intros H Hne. unfold DataFrame_of_records.
  destruct rs as [|r rs]; [congruence|].
  inversion H as [|? ? Hr Hrs]; subst. simpl List.concat. rewrite Hr.
  change (union_keys [] (six_keys ++ ?x))
    with (six_keys ++ union_keys (rev six_keys) x).
  now rewrite (union_keys_seen Hrs), app_nil_r.
Qed.

Lemma records_of_keys ns ls :
  Forall (fun r => keys r = six_keys) (records_of ns ls).
Proof.
  unfold records_of. apply Forall_map. apply Forall_forall.
  intros [n l] _. reflexivity.
Qed.

Lemma records_of_cells ns ls :
  List.length ns = List.length ls ->
  map (get_or_nan (lit "n")) (records_of ns ls) = map CInt ns
  /\ forall i k,
       In (i, k) [(1%nat, lit "time(i)"); (2%nat, lit "total(B)");
                  (3%nat, lit "useful-heap(B)"); (4%nat, lit "extra-heap(B)");
                  (5%nat, lit "stacks(B)")] ->
       map (get_or_nan k) (records_of ns ls)
       = map (fun l => CStr (part i (parts_of l))) ls.
Proof.
  revert ls. induction ns as [|n ns IH]; intros [|l ls] Hlen;
    try discriminate.
  - split; [reflexivity|]. intros; reflexivity.
  - injection Hlen as Hlen. destruct (IH _ Hlen) as [IH0 IHk].
    unfold records_of in *. cbn [combine map fst snd]. split.
    + now rewrite IH0.
    + intros i k Hin. rewrite (IHk _ _ Hin). f_equal.
      cbn [In] in Hin.
      repeat (destruct Hin as [[= <- <-]|Hin]; [reflexivity|]).
      destruct Hin.
Qed.

Lemma records_of_nonempty ns l ls :
  List.length ns = List.length (l :: ls) -> records_of ns (l :: ls) <> [].
Proof. destruct ns; discriminate. Qed.

Lemma records_of_frame ns ls :
  List.length ns = List.length ls ->
  DataFrame_of_records (records_of ns ls)
  = match ls with
    | [] => []
    | _ :: _ =>
        frame6 (map CInt ns)
               (map (fun l => CStr (part 1 (parts_of l))) ls)
               (map (fun l => CStr (part 2 (parts_of l))) ls)
               (map (fun l => CStr (part 3 (parts_of l))) ls)
               (map (fun l => CStr (part 4 (parts_of l))) ls)
               (map (fun l => CStr (part 5 (parts_of l))) ls)
    end.
Proof.
  intros Hlen. destruct ls as [|l ls].
  - destruct ns; [reflexivity|discriminate].
  - rewrite DataFrame_of_row_records
      by (apply records_of_keys || now apply records_of_nonempty).
    destruct (records_of_cells ns (l :: ls) Hlen) as [H0 Hk].
    unfold frame6, six_keys. cbn [map]. rewrite H0.
    rewrite (Hk 1%nat (lit "time(i)")) by (cbn; tauto).
    rewrite (Hk 2%nat (lit "total(B)")) by (cbn; tauto).
    rewrite (Hk 3%nat (lit "useful-heap(B)")) by (cbn; tauto).
    rewrite (Hk 4%nat (lit "extra-heap(B)")) by (cbn; tauto).
    rewrite (Hk 5%nat (lit "stacks(B)")) by (cbn; tauto).
    reflexivity.
Qed.

Lemma astype_fields i ls :
  astype_int (str_replace_commas
                (map (fun l => CStr (part i (parts_of l))) ls))
  = rmap (cell_field i) ls.
Proof.
  unfold astype_int, str_replace_commas. rewrite map_map.
  now rewrite rmap_map.
Qed.

(** The report built from the six columns of the samples. *)
Definition with_totals (c0 c1 c2 c3 c4 c5 : Series) : DataFrame :=
  frame6 (c0 ++ [CStr (lit "Total")]) (c1 ++ [series_sum c1])
         (c2 ++ [series_sum c2]) (c3 ++ [series_sum c3])
         (c4 ++ [series_sum c4]) (c5 ++ [series_sum c5]).

Lemma concat_total_row c0 c1 c2 c3 c4 c5 :
  pd_concat (frame6 c0 c1 c2 c3 c4 c5)
            (DataFrame_of_records [total_row (frame6 c0 c1 c2 c3 c4 c5)])
  = with_totals c0 c1 c2 c3 c4 c5.
Proof. reflexivity. Qed.

(** [process_massif_output] stage by stage, over the data lines. *)
Definition process_stages (ls : list str) : result DataFrame :=
  ns <- rmap index_of_line ls ;;
  match ls with
  | [] => Raise (KeyError (lit "time(i)"))
  | _ :: _ =>
      c1 <- rmap (cell_field 1) ls ;;
      c2 <- rmap (cell_field 2) ls ;;
      c3 <- rmap (cell_field 3) ls ;;
      c4 <- rmap (cell_field 4) ls ;;
      c5 <- rmap (cell_field 5) ls ;;
      Ok (with_totals (map CInt ns) c1 c2 c3 c4 c5)
  end.

Lemma convert_time c0 c1 c2 c3 c4 c5 :
  convert_column (lit "time(i)") (frame6 c0 c1 c2 c3 c4 c5)
  = (ints <- astype_int (str_replace_commas c1) ;;
     Ok (frame6 c0 ints c2 c3 c4 c5)).
Proof. reflexivity. Qed.

Lemma convert_total c0 c1 c2 c3 c4 c5 :
  convert_column (lit "total(B)") (frame6 c0 c1 c2 c3 c4 c5)
  = (ints <- astype_int (str_replace_commas c2) ;;
     Ok (frame6 c0 c1 ints c3 c4 c5)).
Proof. reflexivity. Qed.

Lemma convert_useful c0 c1 c2 c3 c4 c5 :
  convert_column (lit "useful-heap(B)") (frame6 c0 c1 c2 c3 c4 c5)
  = (ints <- astype_int (str_replace_commas c3) ;;
     Ok (frame6 c0 c1 c2 ints c4 c5)).
Proof. reflexivity. Qed.

Lemma convert_extra c0 c1 c2 c3 c4 c5 :
  convert_column (lit "extra-heap(B)") (frame6 c0 c1 c2 c3 c4 c5)
  = (ints <- astype_int (str_replace_commas c4) ;;
     Ok (frame6 c0 c1 c2 c3 ints c5)).
Proof. reflexivity. Qed.

Lemma convert_stacks c0 c1 c2 c3 c4 c5 :
  convert_column (lit "stacks(B)") (frame6 c0 c1 c2 c3 c4 c5)
  = (ints <- astype_int (str_replace_commas c5) ;;
     Ok (frame6 c0 c1 c2 c3 c4 ints)).
Proof. reflexivity. Qed.

Lemma process_massif_output_stages output :
  process_massif_output output = process_stages (data_lines output).
Proof.
  unfold process_massif_output, process_stages, data_lines.
  rewrite parse_table_lines_data, rmap_parse_data_line.
  set (ls := filter is_data_line (split_lines output)).
  destruct (rmap index_of_line ls) as [ns|e] eqn:En; [|reflexivity].
  cbn [rbind]. rewrite (records_of_frame ns ls)
    by (eapply rmap_length; exact En).
  destruct ls as [|l ls']; [reflexivity|].
  set (ls := l :: ls') in *.
  rewrite convert_time, astype_fields.
  destruct (rmap (cell_field 1) ls) as [c1|]; [|reflexivity]. cbn [rbind].
  rewrite convert_total, astype_fields.
  destruct (rmap (cell_field 2) ls) as [c2|]; [|reflexivity]. cbn [rbind].
  rewrite convert_useful, astype_fields.
  destruct (rmap (cell_field 3) ls) as [c3|]; [|reflexivity]. cbn [rbind].
  rewrite convert_extra, astype_fields.
  destruct (rmap (cell_field 4) ls) as [c4|]; [|reflexivity]. cbn [rbind].
  rewrite convert_stacks, astype_fields.
  destruct (rmap (cell_field 5) ls) as [c5|]; [|reflexivity]. cbn [rbind].
  now rewrite concat_total_row.
Qed.

(** ** Samples *)

(** One parsed row: the sample index, the time in instructions and the
    four byte counts. *)
Record sample := {
  s_n : Z;
  s_time : Z;
  s_total : Z;
  s_useful : Z;
  s_extra : Z;
  s_stacks : Z
}.

(** Part [i] of a line without its commas, as an [int64]. *)
Definition int64_field (i : nat) (line : str) : result Z :=
  z <- py_int (remove_commas (part i (parts_of line))) ;;
  if in_int64 z then Ok z else Raise OverflowError.

(** The sample a data line stands for; a data line is well formed when
    this succeeds. *)
Definition sample_of_line (line : str) : result sample :=
  n <- index_of_line line ;;
  time <- int64_field 1 line ;;
  total <- int64_field 2 line ;;
  useful <- int64_field 3 line ;;
  extra <- int64_field 4 line ;;
  stacks <- int64_field 5 line ;;
  Ok {| s_n := n; s_time := time; s_total := total; s_useful := useful;
        s_extra := extra; s_stacks := stacks |}.

Definition int_column (f : sample -> Z) (samples : list sample) : Series :=
  map (fun s => CInt (f s)) samples.

Definition column_sum (f : sample -> Z) (samples : list sample) : Z :=
  fold_right (fun s acc => (f s + acc)%Z) 0%Z samples.

(** The report of a list of samples: their rows, then the total row. *)
Definition report_of (samples : list sample) : DataFrame :=
  frame6 (int_column s_n samples ++ [CStr (lit "Total")])
         (int_column s_time samples
          ++ [CInt (wrap64 (column_sum s_time samples))])
         (int_column s_total samples
          ++ [CInt (wrap64 (column_sum s_total samples))])
         (int_column s_useful samples
          ++ [CInt (wrap64 (column_sum s_useful samples))])
         (int_column s_extra samples
          ++ [CInt (wrap64 (column_sum s_extra samples))])
         (int_column s_stacks samples
          ++ [CInt (wrap64 (column_sum s_stacks samples))]).

Lemma cell_field_int64 i l :
  cell_field i l = (z <- int64_field i l ;; Ok (CInt z)).
Proof.
  unfold cell_field, int64_field, to_int64.
  destruct (py_int _) as [z|]; simpl; [|reflexivity].
  destruct (in_int64 z); reflexivity.
Qed.

Lemma series_sum_int_column f samples :
  series_sum (int_column f samples) = CInt (wrap64 (column_sum f samples)).
Proof.
  unfold series_sum. do 2 f_equal.
  induction samples as [|s samples IH]; simpl; [reflexivity|].
  now rewrite IH.
Qed.

Lemma with_totals_report samples :
  with_totals (map CInt (map s_n samples))
              (int_column s_time samples) (int_column s_total samples)
              (int_column s_useful samples) (int_column s_extra samples)
              (int_column s_stacks samples)
  = report_of samples.
Proof.
  unfold with_totals, report_of. rewrite !series_sum_int_column.
  unfold int_column. now rewrite map_map.
Qed.

(** The stages succeed on well-formed lines... *)
Lemma stages_of_samples ls samples :
  Forall2 (fun l s => sample_of_line l = Ok s) ls samples ->
  rmap index_of_line ls = Ok (map s_n samples)
  /\ rmap (cell_field 1) ls = Ok (int_column s_time samples)
  /\ rmap (cell_field 2) ls = Ok (int_column s_total samples)
  /\ rmap (cell_field 3) ls = Ok (int_column s_useful samples)
  /\ rmap (cell_field 4) ls = Ok (int_column s_extra samples)
  /\ rmap (cell_field 5) ls = Ok (int_column s_stacks samples).
Proof.
  induction 1 as [|l s ls samples Hs _ IH]; [repeat split|].
  destruct IH as (I0 & I1 & I2 & I3 & I4 & I5).
  unfold sample_of_line in Hs.
  destruct (index_of_line l) as [n|] eqn:E0; [|discriminate].
  destruct (int64_field 1 l) as [x1|] eqn:E1; [|discriminate].
  destruct (int64_field 2 l) as [x2|] eqn:E2; [|discriminate].
  destruct (int64_field 3 l) as [x3|] eqn:E3; [|discriminate].
  destruct (int64_field 4 l) as [x4|] eqn:E4; [|discriminate].
  destruct (int64_field 5 l) as [x5|] eqn:E5; [|discriminate].
  injection Hs as <-. cbn [rmap map int_column].
  rewrite !cell_field_int64, E0, E1, E2, E3, E4, E5, I0, I1, I2, I3, I4, I5.
  repeat split.
Qed.

(** ... and only on them. *)
Lemma samples_of_stages ls :
  forall ns c1 c2 c3 c4 c5,
    rmap index_of_line ls = Ok ns ->
    rmap (cell_field 1) ls = Ok c1 ->
    rmap (cell_field 2) ls = Ok c2 ->
    rmap (cell_field 3) ls = Ok c3 ->
    rmap (cell_field 4) ls = Ok c4 ->
    rmap (cell_field 5) ls = Ok c5 ->
    exists samples,
      Forall2 (fun l s => sample_of_line l = Ok s) ls samples.
Proof.
  induction ls as [|l ls IH]; intros ns c1 c2 c3 c4 c5 H0 H1 H2 H3 H4 H5.
  - exists []. constructor.
  - cbn [rmap] in *. rewrite !cell_field_int64 in *.
    destruct (index_of_line l) as [n|] eqn:F0; [|discriminate].
    destruct (int64_field 1 l) as [x1|] eqn:F1; [|discriminate].
    destruct (int64_field 2 l) as [x2|] eqn:F2; [|discriminate].
    destruct (int64_field 3 l) as [x3|] eqn:F3; [|discriminate].
    destruct (int64_field 4 l) as [x4|] eqn:F4; [|discriminate].
    destruct (int64_field 5 l) as [x5|] eqn:F5; [|discriminate].
    cbn [rbind] in *.
    destruct (rmap index_of_line ls) as [ns'|]; [|discriminate].
    destruct (rmap (cell_field 1) ls) as [c1'|]; [|discriminate].
    destruct (rmap (cell_field 2) ls) as [c2'|]; [|discriminate].
    destruct (rmap (cell_field 3) ls) as [c3'|]; [|discriminate].
    destruct (rmap (cell_field 4) ls) as [c4'|]; [|discriminate].
    destruct (rmap (cell_field 5) ls) as [c5'|]; [|discriminate].
    destruct (IH _ _ _ _ _ _ eq_refl eq_refl eq_refl eq_refl eq_refl eq_refl)
      as [samples Hs].
    exists ({| s_n := n; s_time := x1; s_total := x2; s_useful := x3;
               s_extra := x4; s_stacks := x5 |} :: samples).
    constructor; [|exact Hs].
    unfold sample_of_line. now rewrite F0, F1, F2, F3, F4, F5.
Qed.

Lemma process_of_samples output samples :
  data_lines output <> [] ->
  Forall2 (fun l s => sample_of_line l = Ok s) (data_lines output) samples ->
  process_massif_output output = Ok (report_of samples).
Proof.
  intros Hne Hs. rewrite process_massif_output_stages. unfold process_stages.
  destruct (stages_of_samples Hs) as (-> & -> & -> & -> & -> & ->).
  cbn [rbind]. destruct (data_lines output); [congruence|].
  now rewrite with_totals_report.
Qed.

Lemma process_Ok output df :
  process_massif_output output = Ok df ->
  data_lines output <> []
  /\ exists samples,
       Forall2 (fun l s => sample_of_line l = Ok s) (data_lines output) samples
       /\ df = report_of samples.
Proof.
  intros H. pose proof H as H'.
  rewrite process_massif_output_stages in H. unfold process_stages in H.
  destruct (rmap index_of_line _) as [ns|] eqn:E0; [|discriminate].
  cbn [rbind] in H.
  destruct (data_lines output) as [|l ls] eqn:El; [discriminate|].
  split; [discriminate|].
  destruct (rmap (cell_field 1) _) as [c1|] eqn:E1; [|discriminate].
  destruct (rmap (cell_field 2) _) as [c2|] eqn:E2; [|discriminate].
  destruct (rmap (cell_field 3) _) as [c3|] eqn:E3; [|discriminate].
  destruct (rmap (cell_field 4) _) as [c4|] eqn:E4; [|discriminate].
  destruct (rmap (cell_field 5) _) as [c5|] eqn:E5; [|discriminate].
  destruct (samples_of_stages _ E0 E1 E2 E3 E4 E5) as [samples Hs].
  exists samples. split; [exact Hs|].
  rewrite <- El in Hs.
  rewrite (@process_of_samples output samples) in H'.
  - congruence.
  - rewrite El. discriminate.
  - exact Hs.
Qed.

Lemma wrap64_in_range z : in_int64 z = true -> wrap64 z = z.
Proof.
  unfold in_int64, wrap64, int64_min, int64_max. intros H.
  apply andb_prop in H as [H1 H2]. apply Z.leb_le in H1, H2.
  rewrite Z.mod_small; lia.
Qed.

Lemma process_no_data_lines output :
  data_lines output = [] ->
  process_massif_output output = Raise (KeyError (lit "time(i)")).
Proof.
  intros H. rewrite process_massif_output_stages, H. reflexivity.
Qed.

(** ** C1, C7 and C8: the memory-report parser *)

(** The five summed columns, each with the field of a sample it holds. *)
Definition numeric_columns : list (str * (sample -> Z)) :=
  [(lit "time(i)", s_time); (lit "total(B)", s_total);
   (lit "useful-heap(B)", s_useful); (lit "extra-heap(B)", s_extra);
   (lit "stacks(B)", s_stacks)].

(** C1, as the code has it.  For a text whose data lines are [N >= 1]
    well-formed lines the call returns a table of [N + 1] rows.  Its last
    row is the total row: the label ["Total"] under [n] and, under each of
    the five numeric columns, the sum of the [N] sample values reduced to
    signed 64 bits; that is the sum itself whenever the sum fits in 64
    bits. *)
Theorem process_massif_output_total_row output N samples :
  (1 <= N)%nat ->
  List.length (data_lines output) = N ->
  Forall2 (fun l s => sample_of_line l = Ok s) (data_lines output) samples ->
  exists df,
    process_massif_output output = Ok df
    /\ nrows df = (N + 1)%nat
    /\ Forall (fun kc => List.length (snd kc) = (N + 1)%nat) df
    /\ get_column df (lit "n")
       = Ok (int_column s_n samples ++ [CStr (lit "Total")])
    /\ forall k f,
         In (k, f) numeric_columns ->
         get_column df k
         = Ok (int_column f samples
               ++ [CInt (wrap64 (column_sum f samples))])
         /\ (in_int64 (column_sum f samples) = true ->
             wrap64 (column_sum f samples) = column_sum f samples).
Proof.
  intros HN Hlen Hs.
  assert (Hne : data_lines output <> [])
    by (destruct (data_lines output); [simpl in Hlen; lia|discriminate]).
  exists (report_of samples). split; [now apply process_of_samples|].
  assert (Hl : List.length samples = N)
    by (rewrite <- Hlen; symmetry; exact (Forall2_length Hs)).
  assert (Hc : forall f x, List.length (int_column f samples ++ [x])
                           = (N + 1)%nat)
    by (intros; unfold int_column;
        rewrite length_app, length_map, Hl; reflexivity).
  split; [apply Hc|]. split.
  - unfold report_of, frame6. repeat constructor; apply Hc.
  - split; [reflexivity|]. intros k f Hin. split.
    + cbn [numeric_columns In] in Hin.
      repeat (destruct Hin as [[= <- <-]|Hin]; [reflexivity|]).
      destruct Hin.
    + apply wrap64_in_range.
Qed.

Definition two_lines : str :=
  lit "0 1 1,000 800 150 50" ++ [newline] ++ lit "1 2 2,000 1,600 300 100".

Definition two_samples : list sample :=
  [{| s_n := 0; s_time := 1; s_total := 1000; s_useful := 800;
      s_extra := 150; s_stacks := 50 |};
   {| s_n := 1; s_time := 2; s_total := 2000; s_useful := 1600;
      s_extra := 300; s_stacks := 100 |}].

Lemma process_massif_output_total_row_witness :
  (1 <= 2)%nat
  /\ List.length (data_lines two_lines) = 2%nat
  /\ Forall2 (fun l s => sample_of_line l = Ok s)
             (data_lines two_lines) two_samples
  /\ exists df,
       process_massif_output two_lines = Ok df
       /\ nrows df = 3%nat
       /\ get_column df (lit "total(B)")
          = Ok [CInt 1000; CInt 2000; CInt 3000].
Proof.
  assert (H1 : (1 <= 2)%nat) by lia.
  assert (H2 : List.length (data_lines two_lines) = 2%nat)
    by (vm_compute; reflexivity).
  assert (H3 : Forall2 (fun l s => sample_of_line l = Ok s)
                       (data_lines two_lines) two_samples).
  { replace (data_lines two_lines)
      with [lit "0 1 1,000 800 150 50"; lit "1 2 2,000 1,600 300 100"]
      by (vm_compute; reflexivity).
    repeat constructor; vm_compute; reflexivity. }
  split; [exact H1|]. split; [exact H2|]. split; [exact H3|].
  destruct (@process_massif_output_total_row two_lines 2 two_samples H1 H2 H3)
    as (df & Hdf & Hrows & _ & _ & Hcols).
  exists df. split; [exact Hdf|]. split; [exact Hrows|].
  destruct (Hcols (lit "total(B)") s_total) as [Hcol _].
  - cbn. tauto.
  - exact Hcol.
Defined.

Definition wrapping_report : str :=
  lit "0 1 9223372036854775807 0 0 0" ++ [newline] ++ lit "1 2 1 0 0 0".

(** The claim of C1 that the total is the sum fails when the sum leaves
    the 64-bit range: the two rows below are well formed, and the total
    row holds [-2^63] where the sum is [2^63]. *)
Lemma process_massif_output_total_wraps :
  exists df,
    process_massif_output wrapping_report = Ok df
    /\ get_column df (lit "total(B)")
       = Ok [CInt 9223372036854775807; CInt 1; CInt (-9223372036854775808)]
    /\ (9223372036854775807 + 1 <> -9223372036854775808)%Z.
Proof.
  eexists. split; [vm_compute; reflexivity|].
  split; [reflexivity|discriminate].
Qed.

(** C7 fails on the code: for the empty text the frame built from no
    records has no columns, and reading its column [time(i)] raises
    [KeyError]; no total row is returned. *)
Theorem process_massif_output_empty :
  process_massif_output [] = Raise (KeyError (lit "time(i)")).
Proof. apply process_no_data_lines. reflexivity. Qed.

(** C8.  A line becomes a row exactly when it has the shape (optional
    white space, digits, white space, a digit) and splits into six parts
    or more.  The other lines are dropped without a trace: two texts with
    the same data lines give the same outcome.  And in a returned table
    the sample rows are the samples of the data lines, one per line and in
    their order. *)
Theorem process_massif_output_rows output :
  (forall line,
     is_data_line line = true
     <-> table_shape line /\ (6 <= List.length (parts_of line))%nat)
  /\ (forall other,
        filter is_data_line (split_lines other)
        = filter is_data_line (split_lines output) ->
        process_massif_output other = process_massif_output output)
  /\ (forall df,
        process_massif_output output = Ok df ->
        exists samples,
          Forall2 (fun l s => sample_of_line l = Ok s)
                  (filter is_data_line (split_lines output)) samples
          /\ df = report_of samples).
Proof.
  split; [|split].
  - intros line. unfold is_data_line. rewrite andb_true_iff.
    now rewrite is_table_line_shape, Nat.leb_le.
  - intros other H. rewrite !process_massif_output_stages.
    unfold data_lines. now rewrite H.
  - intros df H. exact (proj2 (process_Ok _ H)).
Qed.

Definition mixed_report : str :=
  lit "    n        time(i)         total(B)" ++ [newline]
  ++ lit " 3  4 x" ++ [newline]
  ++ lit "  7 1 10 0 0 0 extra" ++ [newline]
  ++ lit "8 1 1 2 3 4".

Definition mixed_samples : list sample :=
  [{| s_n := 7; s_time := 1; s_total := 10; s_useful := 0;
      s_extra := 0; s_stacks := 0 |};
   {| s_n := 8; s_time := 1; s_total := 1; s_useful := 2;
      s_extra := 3; s_stacks := 4 |}].

Lemma process_massif_output_rows_witness :
  process_massif_output mixed_report = Ok (report_of mixed_samples)
  /\ exists samples,
       Forall2 (fun l s => sample_of_line l = Ok s)
               [lit "  7 1 10 0 0 0 extra"; lit "8 1 1 2 3 4"] samples
       /\ report_of mixed_samples = report_of samples.
Proof.
  assert (H : process_massif_output mixed_report
              = Ok (report_of mixed_samples)) by (vm_compute; reflexivity).
  split; [exact H|].
  exact (proj2 (proj2 (process_massif_output_rows mixed_report)) _ H).
Defined.

(** ** The session *)

Lemma join_names sep f xs :
  In f xs -> exists a b, join sep xs = a ++ f ++ b.
Proof.
  induction xs as [|x xs IH]; [intros []|].
  intros [->|Hin].
  - destruct xs as [|y xs].
    + exists [], []. simpl. now rewrite app_nil_r.
    + exists [], (sep ++ join sep (y :: xs)). reflexivity.
  - destruct xs as [|y xs]; [destruct Hin|].
    destruct (IH Hin) as (a & b & E).
    exists (x ++ sep ++ a), b. cbn [join] in *. rewrite E.
    now rewrite <- !app_assoc.
Qed.

Section SessionFacts.
Variable OS : Type.
Variable path_exists : OS -> str -> result bool.
Variable subprocess_run :
  OS -> str -> option str -> result CompletedProcess * OS.
Variable float_str : Float64.t -> str.

Definition add_log (w : world OS) (l : level) (msg : str) : world OS :=
  {| self := self w; os := os w; logged := logged w ++ [(l, msg)];
     printed := printed w; commands := commands w |}.

(** What [(self.build_src / f).exists()] gives for the file [f]. *)
Definition check (w : world OS) (f : str) : result bool :=
  path_exists (os w) (joinpath (build_src (self w)) f).

(** The three checks, in the order of the comprehension. *)
Definition checks (w : world OS) : result (bool * bool * bool) :=
  (ll <- check w (lit "template.ll") ;;
   crct <- check w (lit "template.crct") ;;
   tbl <- check w (lit "template.tbl") ;;
   Ok (ll, crct, tbl))%result.

(** The names of the files that are not there, given which ones are. *)
Definition missing_names (ll crct tbl : bool) : list str :=
  (if ll then [] else [lit "template.ll"])
  ++ (if crct then [] else [lit "template.crct"])
  ++ (if tbl then [] else [lit "template.tbl"]).

Definition missing_message (ll crct tbl : bool) : str :=
  lit "Missing required build files: "
  ++ join (lit ", ") (missing_names ll crct tbl).

Lemma verify_build_unfold w :
  verify_build path_exists w
  = match checks w with
    | Ok (ll, crct, tbl) =>
        if ll && crct && tbl then (Ok true, w)
        else (Ok false, add_log w ERROR (missing_message ll crct tbl))
    | Raise e => (Raise e, w)
    end.
Proof.
  unfold verify_build, required_files, checks, check, missing_message,
    missing_names, rbind.
  unfold bind at 1. unfold get_self. cbn [reject].
  unfold bind, exists_, ret.
  destruct (path_exists (os w) (joinpath (build_src (self w))
                                         (lit "template.ll")))
    as [[|]|e1]; [| |reflexivity];
    (destruct (path_exists (os w) (joinpath (build_src (self w))
                                            (lit "template.crct")))
       as [[|]|e2]; [| |reflexivity]);
    (destruct (path_exists (os w) (joinpath (build_src (self w))
                                            (lit "template.tbl")))
       as [[|]|e3]; reflexivity).
Qed.

Lemma checks_Ok w ll crct tbl :
  check w (lit "template.ll") = Ok ll ->
  check w (lit "template.crct") = Ok crct ->
  check w (lit "template.tbl") = Ok tbl ->
  checks w = Ok (ll, crct, tbl).
Proof. intros H1 H2 H3. unfold checks. now rewrite H1, H2, H3. Qed.

Lemma checks_Raise w e :
  check w (lit "template.ll") = Raise e
  \/ (exists ll,
        check w (lit "template.ll") = Ok ll
        /\ check w (lit "template.crct") = Raise e)
  \/ (exists ll crct,
        check w (lit "template.ll") = Ok ll
        /\ check w (lit "template.crct") = Ok crct
        /\ check w (lit "template.tbl") = Raise e) ->
  checks w = Raise e.
Proof.
  unfold checks.
  intros [H1|[(ll & H1 & H2)|(ll & crct & H1 & H2 & H3)]].
  - now rewrite H1.
  - now rewrite H1, H2.
  - now rewrite H1, H2, H3.
Qed.

(** [verify_build] once the three checks have answered. *)
Lemma verify_build_returns w ll crct tbl :
  check w (lit "template.ll") = Ok ll ->
  check w (lit "template.crct") = Ok crct ->
  check w (lit "template.tbl") = Ok tbl ->
  verify_build path_exists w
  = (if ll && crct && tbl then (Ok true, w)
     else (Ok false, add_log w ERROR (missing_message ll crct tbl))).
Proof.
  intros H1 H2 H3.
  now rewrite verify_build_unfold, (checks_Ok H1 H2 H3).
Qed.

(** C5.  When the three existence checks answer, [verify_build] returns
    [True], logging nothing, exactly when [template.ll],
    [template.crct] and [template.tbl] are all there; otherwise it
    returns [False] and logs one error whose message names each missing
    file.  When a check raises (the first one that does, in the order
    [template.ll], [template.crct], [template.tbl]), [verify_build]
    raises that exception and logs nothing. *)
Theorem verify_build_names_missing w :
  (forall ll crct tbl,
     check w (lit "template.ll") = Ok ll ->
     check w (lit "template.crct") = Ok crct ->
     check w (lit "template.tbl") = Ok tbl ->
     verify_build path_exists w
     = (if ll && crct && tbl then (Ok true, w)
        else (Ok false, add_log w ERROR (missing_message ll crct tbl)))
     /\ (fst (verify_build path_exists w) = Ok true
         <-> ll = true /\ crct = true /\ tbl = true)
     /\ (fst (verify_build path_exists w) = Ok false
         <-> ll = false \/ crct = false \/ tbl = false)
     /\ (ll = false -> In (lit "template.ll") (missing_names ll crct tbl))
     /\ (crct = false ->
         In (lit "template.crct") (missing_names ll crct tbl))
     /\ (tbl = false -> In (lit "template.tbl") (missing_names ll crct tbl))
     /\ (forall f, In f (missing_names ll crct tbl) ->
         exists a b,
           missing_message ll crct tbl
           = lit "Missing required build files: " ++ a ++ f ++ b))
  /\ (forall e,
        check w (lit "template.ll") = Raise e
        \/ (exists ll,
              check w (lit "template.ll") = Ok ll
              /\ check w (lit "template.crct") = Raise e)
        \/ (exists ll crct,
              check w (lit "template.ll") = Ok ll
              /\ check w (lit "template.crct") = Ok crct
              /\ check w (lit "template.tbl") = Raise e) ->
        verify_build path_exists w = (Raise e, w)).
Proof.
  split.
  - intros ll crct tbl H1 H2 H3.
    rewrite (verify_build_returns H1 H2 H3).
    split; [reflexivity|].
    split; [|split; [|split; [|split; [|split]]]].
    + destruct ll, crct, tbl; cbn; intuition discriminate.
    + destruct ll, crct, tbl; cbn; intuition discriminate.
    + intros ->. cbn. now left.
    + intros ->. unfold missing_names. apply in_or_app. right.
      apply in_or_app. left. now left.
    + intros ->. unfold missing_names. apply in_or_app. right.
      apply in_or_app. right. now left.
    + intros f Hin. unfold missing_message.
      destruct (@join_names (lit ", ") f (missing_names ll crct tbl) Hin)
        as (a & b & Ej).
      exists a, b. now rewrite Ej.
  - intros e H. now rewrite verify_build_unfold, (checks_Raise H).
Qed.

(** C6.  Whatever the exit status, [run_command] returns the two
    captured streams; it logs the error stream as an error when the
    status is not zero and the output stream as information when it
    is. *)
Theorem run_command_returns_streams command cwd w cp os' :
  subprocess_run (os w) command cwd = (Ok cp, os') ->
  run_command subprocess_run command cwd w
  = (Ok (stdout cp, stderr cp),
     {| self := self w; os := os';
        logged :=
          logged w
          ++ [if negb (returncode cp =? 0)%Z
              then (ERROR, lit "Command failed with error: " ++ stderr cp)
              else (INFO, lit "Command output: " ++ stdout cp)];
        printed := printed w;
        commands := commands w ++ [(command, cwd)] |}).
Proof.
  intros H. unfold run_command, bind, spawn. rewrite H.
  destruct (returncode cp =? 0)%Z; reflexivity.
Qed.

(** [n] calls of [verify_build], one after the other. *)
Fixpoint verify_build_times (n : nat) : M OS unit :=
  match n with
  | O => ret tt
  | S n' => bind (verify_build path_exists)
                 (fun _ => verify_build_times n')
  end.

Lemma verify_build_self w :
  let w' := snd (verify_build path_exists w) in
  self w' = self w /\ os w' = os w /\ printed w' = printed w
  /\ commands w' = commands w.
Proof.
  rewrite verify_build_unfold.
  destruct (checks w) as [[[ll crct] tbl]|e]; [|repeat split].
  destruct (ll && crct && tbl); repeat split.
Qed.

(** C9.  [verify_build] changes nothing but the log: the session object
    (its four results and its paths), the machine, the printed text and
    the list of commands are as before, after one call or after any
    number of them, with files missing or not. *)
Theorem verify_build_frame n w :
  let w1 := snd (verify_build path_exists w) in
  let wn := snd (verify_build_times n w) in
  (self w1 = self w /\ os w1 = os w /\ printed w1 = printed w
   /\ commands w1 = commands w)
  /\ (self wn = self w /\ os wn = os w /\ printed wn = printed w
      /\ commands wn = commands w).
Proof.
  split; [apply verify_build_self|].
  revert w. induction n as [|n IH]; intros w; [repeat split|].
  cbn [verify_build_times]. unfold bind.
  pose proof (verify_build_self w) as Hw.
  destruct (verify_build path_exists w) as [[ok|e] w1]; cbn [snd] in *;
    [|exact Hw].
  destruct (IH w1) as (I1 & I2 & I3 & I4).
  destruct Hw as (W1 & W2 & W3 & W4).
  repeat split; congruence.
Qed.
End SessionFacts.

(** ** Gigabytes are finite and print with two decimals *)

Section FloatFormat.
Local Open Scope Z_scope.
Import Float64.

Lemma ilog2_ratio_ge p q : Z.log2 p - Z.log2 q - 1 <= ilog2_ratio p q.
Proof.
  unfold ilog2_ratio.
  destruct (if 0 <=? _ then _ else _); lia.
Qed.

(** A ratio below [2^1023] rounds to a finite value. *)
Lemma of_ratio_finite p q :
  0 <= p < 2 ^ 1023 -> 0 < q -> is_finite (of_ratio p q) = true.
Proof.
  intros [Hp Hlt] Hq. unfold of_ratio.
  destruct (p =? 0) eqn:E0; [reflexivity|]. apply Z.eqb_neq in E0.
  assert (Hlog : Z.log2 p <= 1022).
  { assert (Z.log2 p < 1023); [|lia]. apply Z.log2_lt_pow2; lia. }
  pose proof (ilog2_ratio_le p q) as Hk.
  pose proof (Z.log2_nonneg q) as Hq0.
  set (e0 := Z.max emin (ilog2_ratio p q - 52)).
  assert (He0 : e0 <= 970) by (unfold e0, emin; lia).
  destruct (_ =? 2 ^ 53).
  - replace (emax <? e0 + 1) with false
      by (symmetry; apply Z.ltb_ge; unfold emax; lia).
    reflexivity.
  - replace (emax <? e0) with false
      by (symmetry; apply Z.ltb_ge; unfold emax; lia).
    reflexivity.
Qed.

Lemma of_signed_ratio_finite p q :
  - 2 ^ 1023 < p < 2 ^ 1023 -> 0 < q ->
  is_finite (of_signed_ratio p q) = true.
Proof.
  intros Hp Hq. unfold of_signed_ratio.
  destruct (p <? 0) eqn:E.
  - apply Z.ltb_lt in E.
    pose proof (@of_ratio_finite (- p) q ltac:(lia) Hq) as H.
    destruct (of_ratio (- p) q); (discriminate || reflexivity).
  - apply Z.ltb_ge in E. apply of_ratio_finite; lia.
Qed.

(** A rough bound on the float of a 64-bit integer. *)
Lemma of_ratio_int64_bounds a m e :
  0 <= a <= 2 ^ 63 -> of_ratio a 1 = Finite m e ->
  0 <= m <= 2 ^ 117 /\ -1074 <= e <= 12.
Proof.
  intros Ha. unfold of_ratio.
  destruct (a =? 0) eqn:E0.
  { intros [= <- <-]. unfold emin. lia. }
  apply Z.eqb_neq in E0.
  assert (Hlog : 0 <= Z.log2 a <= 63).
  { split; [apply Z.log2_nonneg|].
    assert (Z.log2 a < 64); [|lia]. apply Z.log2_lt_pow2; lia. }
  pose proof (ilog2_ratio_le a 1) as Hk1.
  pose proof (ilog2_ratio_ge a 1) as Hk2.
  change (Z.log2 1) with 0 in *.
  set (e0 := Z.max emin (ilog2_ratio a 1 - 52)).
  assert (He0 : -53 <= e0 <= 11) by (unfold e0, emin; lia).
  set (m0 := if 0 <=? e0 then round_half_even a (1 * 2 ^ e0)
             else round_half_even (a * 2 ^ (- e0)) 1).
  assert (Hm0 : 0 <= m0 <= 2 ^ 117).
  { unfold m0. destruct (0 <=? e0) eqn:Ee.
    - apply Z.leb_le in Ee.
      assert (0 < 1 * 2 ^ e0) by (rewrite Z.mul_1_l; apply Z.pow_pos_nonneg; lia).
      pose proof (@round_half_even_le a (1 * 2 ^ e0) ltac:(lia) H).
      assert (0 <= a / (1 * 2 ^ e0) <= a).
      { split; [apply Z.div_pos; lia|].
        apply Z.div_le_upper_bound; [lia|]. nia. }
      assert (0 <= round_half_even a (1 * 2 ^ e0)).
      { unfold round_half_even. destruct (_ || _); lia. }
      lia.
    - apply Z.leb_gt in Ee.
      assert (Hpow : 0 < 2 ^ (- e0) <= 2 ^ 53).
      { split; [apply Z.pow_pos_nonneg; lia|].
        apply Z.pow_le_mono_r; lia. }
      unfold round_half_even. rewrite Z.div_1_r, Z.mod_1_r.
      change (1 <? 2 * 0) with false. change (1 =? 2 * 0) with false.
      cbn [orb andb].
      assert (2 ^ 63 * 2 ^ 53 <= 2 ^ 117) by (vm_compute; discriminate).
      nia. }
  destruct (m0 =? 2 ^ 53).
  - destruct (emax <? e0 + 1); [discriminate|].
    intros [= <- <-]. split; [|lia]. split; [lia|].
    vm_compute; discriminate.
  - destruct (emax <? e0); [discriminate|].
    intros [= <- <-]. lia.
Qed.

(** The gigabytes of a 64-bit byte count are a finite float. *)
Lemma gigabytes_finite z x :
  in_int64 z = true -> of_int z = Ok x ->
  is_finite (div_pow2 x 30) = true.
Proof.
  unfold in_int64, int64_min, int64_max. intros Hz.
  apply andb_prop in Hz as [H1 H2]. apply Z.leb_le in H1, H2.
  unfold of_int, of_signed_ratio.
  assert (Hb : forall a m e, 0 <= a <= 2 ^ 63 ->
               of_ratio a 1 = Finite m e ->
               is_finite (div_pow2 (Finite m e) 30) = true
               /\ is_finite (div_pow2 (Finite (- m) e) 30) = true).
  { intros a m e Ha Hof.
    destruct (of_ratio_int64_bounds Ha Hof) as [Hm He].
    assert (P117 : 2 ^ 117 * 2 ^ 12 < 2 ^ 1023) by (vm_compute; reflexivity).
    assert (P0 : 0 < 2 ^ 117) by (vm_compute; reflexivity).
    unfold div_pow2. destruct (0 <=? e) eqn:Ee.
    - apply Z.leb_le in Ee.
      assert (0 < 2 ^ e <= 2 ^ 12).
      { split; [apply Z.pow_pos_nonneg; lia|apply Z.pow_le_mono_r; lia]. }
      split; apply of_signed_ratio_finite;
        try (apply Z.pow_pos_nonneg; lia); nia.
    - apply Z.leb_gt in Ee.
      split; apply of_signed_ratio_finite;
        try (apply Z.pow_pos_nonneg; lia); lia. }
  destruct (z <? 0) eqn:Es.
  - destruct (of_ratio (- z) 1) as [m e| |] eqn:Eo; try discriminate.
    intros [= <-]. apply (Hb (- z) m e); [lia|exact Eo].
  - apply Z.ltb_ge in Es.
    destruct (of_ratio z 1) as [m e| |] eqn:Eo; try discriminate.
    intros [= <-]. apply (Hb z m e); [lia|exact Eo].
Qed.
End FloatFormat.

Lemma wrap64_in_int64 z : in_int64 (wrap64 z) = true.
Proof.
  unfold in_int64, wrap64, int64_min, int64_max.
  pose proof (Z.mod_pos_bound (z + 2 ^ 63) (2 ^ 64) ltac:(lia)).
  apply andb_true_intro. split; apply Z.leb_le; lia.
Qed.

(** The text of a float with exactly two decimals: an optional minus
    sign, one or more digits, a point, two digits. *)
Definition two_decimals (s : str) : Prop :=
  exists sign ip d1 d2,
    s = sign ++ ip ++ lit "." ++ [d1; d2]
    /\ (sign = [] \/ sign = lit "-")
    /\ digits ip /\ is_digit d1 = true /\ is_digit d2 = true.

Lemma string_of_uint_digits d :
  forallb is_digit (lit (NilEmpty.string_of_uint d)) = true.
Proof. induction d; simpl; auto. Qed.

Lemma decimal_digits n : digits (Float64.decimal n).
Proof.
  unfold Float64.decimal, NilZero.string_of_uint.
  destruct (N.to_uint (Z.to_N n)) as [|d|d|d|d|d|d|d|d|d|d];
    (split; [discriminate|]); try reflexivity;
    exact (string_of_uint_digits d).
Qed.

Lemma digit_char_digit d :
  (0 <= d <= 9)%Z -> is_digit (Float64.digit_char d) = true.
Proof.
  intros H.
  assert (d = 0 \/ d = 1 \/ d = 2 \/ d = 3 \/ d = 4 \/ d = 5 \/ d = 6
          \/ d = 7 \/ d = 8 \/ d = 9)%Z as Hd by lia.
  repeat (destruct Hd as [->|Hd]; [reflexivity|]). now subst.
Qed.

Lemma format_2f_two_decimals x :
  Float64.is_finite x = true -> two_decimals (Float64.format_2f x).
Proof.
  destruct x as [m e| |]; try discriminate. intros _.
  unfold Float64.format_2f.
  set (n := if (0 <=? e)%Z then _ else _).
  exists (if (m <? 0)%Z then lit "-" else []),
    (Float64.decimal (n / 100)),
    (Float64.digit_char (n mod 100 / 10)), (Float64.digit_char (n mod 10)).
  split; [reflexivity|]. split; [destruct (m <? 0)%Z; auto|].
  split; [apply decimal_digits|].
  split; apply digit_char_digit.
  - pose proof (Z.mod_pos_bound n 100 ltac:(lia)).
    split; [apply Z.div_pos; lia|].
    assert (n mod 100 / 10 < 10)%Z by (apply Z.div_lt_upper_bound; lia).
    lia.
  - pose proof (Z.mod_pos_bound n 10 ltac:(lia)). lia.
Qed.

Lemma last_total_gb_finite output df x :
  process_massif_output output = Ok df ->
  last_total_gb df = Ok x ->
  Float64.is_finite x = true.
Proof.
  intros Hp. destruct (process_Ok _ Hp) as (_ & samples & _ & ->).
  unfold last_total_gb.
  destruct (nrows (report_of samples) =? 0)%nat; [discriminate|].
  change (get_column (report_of samples) (lit "total(B)"))
    with (Ok (int_column s_total samples
              ++ [CInt (wrap64 (column_sum s_total samples))])).
  cbn [rbind]. rewrite last_last.
  destruct (Float64.of_int _) as [fx|] eqn:Ef; [|discriminate].
  intros [= <-]. exact (gigabytes_finite _ (wrap64_in_int64 _) Ef).
Qed.

(** ** The results a session holds *)

(** Both memory results, once set, are finite floats. *)
Definition finite_memory (t : BenchmarkTool) : Prop :=
  (forall x, assigner_total_gb t = Some x -> Float64.is_finite x = true)
  /\ (forall x, proof_total_gb t = Some x -> Float64.is_finite x = true).

Lemma init_finite_memory cwd template : finite_memory (init cwd template).
Proof. split; intros x; discriminate. Qed.

Section SessionResults.
Variable OS : Type.
Variable path_exists : OS -> str -> result bool.
Variable subprocess_run :
  OS -> str -> option str -> result CompletedProcess * OS.
Variable float_str : Float64.t -> str.

(** [keeps I m Q]: running [m] keeps the invariant [I] of the session
    object, also when [m] raises, and a value it returns satisfies
    [Q]. *)
Definition keeps (I : BenchmarkTool -> Prop) A (m : M OS A)
           (Q : A -> Prop) : Prop :=
  forall w, I (self w) ->
    I (self (snd (m w))) /\ forall a, fst (m w) = Ok a -> Q a.

Lemma keeps_bind I A B (m : M OS A) (f : A -> M OS B) Q R :
  keeps I m Q -> (forall a, Q a -> keeps I (f a) R) ->
  keeps I (bind m f) R.
Proof.
  intros Hm Hf w Hw. unfold bind. destruct (Hm w Hw) as [H1 H2].
  destruct (m w) as [[a|e] w']; cbn [fst snd] in *.
  - apply Hf; auto.
  - split; [assumption|discriminate].
Qed.

Lemma keeps_frame I A (m : M OS A) (Q : A -> Prop) :
  (forall w, self (snd (m w)) = self w) ->
  (forall w a, fst (m w) = Ok a -> Q a) ->
  keeps I m Q.
Proof.
  intros Hs Hq w Hw. rewrite Hs. split; [assumption|apply Hq].
Qed.

Lemma keeps_weaken I A (m : M OS A) (Q Q' : A -> Prop) :
  keeps I m Q -> (forall a, Q a -> Q' a) -> keeps I m Q'.
Proof.
  intros Hm Hq w Hw. destruct (Hm w Hw). split; auto.
Qed.

Lemma run_command_self command cwd (w : world OS) :
  self (snd (run_command subprocess_run command cwd w)) = self w.
Proof.
  unfold run_command, bind, spawn.
  destruct (subprocess_run (os w) command cwd) as [[cp|e] os'];
    [|reflexivity].
  destruct (negb _); reflexivity.
Qed.

Lemma keeps_run_command I command cwd :
  keeps I (run_command subprocess_run command cwd) (fun _ => True).
Proof. apply keeps_frame; [apply run_command_self|trivial]. Qed.

Lemma keeps_logging I l msg : keeps I (@logging OS l msg) (fun _ => True).
Proof. apply keeps_frame; trivial. Qed.

Lemma keeps_ret I A (a : A) : keeps I (@ret OS A a) (fun _ => True).
Proof. apply keeps_frame; trivial. Qed.

Lemma keeps_lift I A (r : result A) : keeps I (@lift OS A r) (fun a => r = Ok a).
Proof. apply keeps_frame; [trivial|]. intros w a H. exact H. Qed.

Lemma keeps_get_self I : keeps I (@get_self OS) (fun _ => True).
Proof. apply keeps_frame; trivial. Qed.

Lemma keeps_parse_memory_usage I file_name :
  keeps I (parse_memory_usage subprocess_run file_name)
        (fun df => exists output, process_massif_output output = Ok df).
Proof.
  unfold parse_memory_usage.
  eapply keeps_bind; [apply keeps_run_command|]. intros out _.
  eapply keeps_weaken; [apply keeps_lift|]. intros df H.
  exists (fst out). exact H.
Qed.

Lemma keeps_verify_build I :
  keeps I (verify_build path_exists) (fun _ => True).
Proof.
  apply keeps_frame; [|trivial]. intros w.
  apply (verify_build_self path_exists).
Qed.

Lemma keeps_display_results I :
  keeps I (display_results float_str) (fun _ => True).
Proof.
  apply keeps_frame; [|trivial]. intros w.
  unfold display_results, bind, get_self. cbv beta iota.
  destruct (assigner_total_gb (self w)), (assigner_formatted_time (self w)),
    (proof_total_gb (self w)), (proof_formatted_time (self w));
    reflexivity.
Qed.

Lemma keeps_measure I (m : M OS (str * str)) :
  m = measure_assigner_heap_allocation subprocess_run
  \/ m = measure_proof_generation_heap_allocation subprocess_run
  \/ m = measure_proof_generation_execution_time subprocess_run
  \/ m = measure_assigner_execution_time subprocess_run ->
  keeps I m (fun _ => True).
Proof.
  intros [ -> | [ -> | [ -> | -> ] ] ];
    (eapply keeps_bind; [apply keeps_get_self|]; intros t _;
     apply keeps_run_command).
Qed.

Lemma keeps_set_memory (set : option Float64.t -> BenchmarkTool -> BenchmarkTool) gb :
  set = set_assigner_total_gb \/ set = set_proof_total_gb ->
  Float64.is_finite gb = true ->
  keeps finite_memory (@update_self OS (set (Some gb))) (fun _ => True).
Proof.
  intros Hset Hgb w [H1 H2]. split; [|trivial].
  destruct Hset as [-> | ->]; split; cbn; auto; intros x [= <-]; exact Hgb.
Qed.

Lemma keeps_set_time (set : option Float64.t -> BenchmarkTool -> BenchmarkTool) v :
  set = set_assigner_formatted_time \/ set = set_proof_formatted_time ->
  keeps finite_memory (@update_self OS (set v)) (fun _ => True).
Proof.
  intros Hset w [H1 H2]. split; [|trivial].
  destruct Hset as [-> | ->]; split; cbn; auto.
Qed.

Ltac step :=
  first
    [ eapply keeps_bind;
      [ first [ apply keeps_logging | apply keeps_verify_build
              | apply keeps_display_results | apply keeps_parse_memory_usage
              | apply keeps_lift
              | apply keeps_measure; tauto ]
      | cbv beta; intros ]
    | apply keeps_ret | apply keeps_logging ].

(** Every menu action keeps the memory results finite. *)
Lemma menu_action_finite_memory choice :
  keeps finite_memory
        (menu_action path_exists subprocess_run float_str choice)
        (fun _ => True).
Proof.
  unfold menu_action.
  repeat match goal with
         | |- context [if str_eqb ?a ?b then _ else _] =>
             destruct (str_eqb a b)
         end.
  - step. destruct (negb a); repeat step.
  - step. step.
    match goal with H : exists _, _ |- _ => destruct H as [output Hp] end.
    step.
    eapply keeps_bind;
      [apply keeps_set_memory; [tauto|];
       eapply last_total_gb_finite; eassumption|].
    intros; repeat step.
  - step. step.
    match goal with H : exists _, _ |- _ => destruct H as [output Hp] end.
    step.
    eapply keeps_bind;
      [apply keeps_set_memory; [tauto|];
       eapply last_total_gb_finite; eassumption|].
    intros; repeat step.
  - step. step.
    eapply keeps_bind; [apply keeps_set_time; tauto|].
    intros; repeat step.
  - step. step.
    eapply keeps_bind; [apply keeps_set_time; tauto|].
    intros; repeat step.
  - repeat step.
  - repeat step.
  - step.
Qed.
End SessionResults.

Section SessionClaims.
Variable OS : Type.
Variable path_exists : OS -> str -> result bool.
Variable subprocess_run :
  OS -> str -> option str -> result CompletedProcess * OS.
Variable float_str : Float64.t -> str.

Lemma print_menu_self (w : world OS) :
  self (snd (print_menu w)) = self w.
Proof. reflexivity. Qed.

(** From a session with finite memory results, the menu loop reaches
    only such sessions. *)
Lemma menu_loop_finite_memory inputs :
  keeps finite_memory
        (menu_loop path_exists subprocess_run float_str inputs)
        (fun _ => True).
Proof.
  induction inputs as [|choice rest IH]; cbn [menu_loop].
  - apply keeps_frame; [reflexivity|trivial].
  - eapply keeps_bind;
      [apply keeps_frame with (Q := fun _ => True);
       [apply print_menu_self|trivial]|].
    intros _ _. eapply keeps_bind; [apply menu_action_finite_memory|].
    intros [|] _; [exact IH|apply keeps_ret].
Qed.

Lemma run_finite_memory inputs :
  keeps finite_memory (run path_exists subprocess_run float_str inputs)
        (fun _ => True).
Proof.
  unfold run. eapply keeps_bind; [apply keeps_verify_build|].
  intros ok _. destruct (negb ok);
    [apply keeps_logging|apply menu_loop_finite_memory].
Qed.

(** C3 fails on the code.  The menu action 4, which measures the
    assigner's time, runs the command of the proof generator, not the
    command that [measure_assigner_execution_time] builds for the
    assigner; the two commands differ for every session. *)
Theorem assigner_time_action_runs_proof_command (w : world OS) :
  commands
    (snd (menu_action path_exists subprocess_run float_str (lit "4") w))
  = commands w
    ++ [(proof_time_command (self w), Some (current_dir_path (self w)))]
  /\ commands (snd (measure_assigner_execution_time subprocess_run w))
     = commands w
       ++ [(assigner_time_command (self w),
            Some (current_dir_path (self w)))]
  /\ proof_time_command (self w) <> assigner_time_command (self w).
Proof.
  split; [|split].
  - unfold menu_action. cbn [str_eqb lit list_ascii_of_string].
    cbn. unfold bind, measure_proof_generation_execution_time, bind,
      get_self, run_command, bind, spawn.
    destruct (subprocess_run _ _ _) as [[cp|e] os']; [|reflexivity].
    destruct (negb _); cbn;
      destruct (extract_and_convert_time (stderr cp)); reflexivity.
  - unfold measure_assigner_execution_time, bind, get_self, run_command,
      bind, spawn.
    destruct (subprocess_run _ _ _) as [[cp|e] os']; [|reflexivity].
    destruct (negb _); reflexivity.
  - unfold proof_time_command, assigner_time_command, assigner_arguments.
    cbn. discriminate.
Qed.

Definition incomplete_message : str :=
  lit "Benchmark results are incomplete. Please run the benchmark first.".

Definition assigner_text (memory time : Float64.t) : str :=
  lit "1. Assigner:" ++ [newline] ++ lit "   Memory: "
  ++ Float64.format_2f memory ++ lit "GB," ++ [newline]
  ++ lit "   Time: " ++ float_str time ++ lit "s" ++ [newline].

Definition proof_text (memory time : Float64.t) : str :=
  lit "2. Proof:" ++ [newline] ++ lit "   Memory: "
  ++ Float64.format_2f memory ++ lit "GB," ++ [newline]
  ++ lit "   Time: " ++ float_str time ++ lit "s" ++ [newline].

Definition add_printed (w : world OS) (texts : list str) : world OS :=
  {| self := self w; os := os w; logged := logged w;
     printed := printed w ++ texts; commands := commands w |}.

(** C4.  In a session whose memory results are finite floats (as they
    are in every session the tool reaches): when one of the four
    results is unset, [display_results] prints nothing and logs one
    error; when the four are set it logs nothing and prints the two
    texts, the assigner's and the proof's, each with its memory in a
    text of exactly two decimals. *)
Theorem display_results_complete_or_error (w : world OS) :
  finite_memory (self w) ->
  ((assigner_total_gb (self w) = None
    \/ assigner_formatted_time (self w) = None
    \/ proof_total_gb (self w) = None
    \/ proof_formatted_time (self w) = None) ->
   display_results float_str w
   = (Ok tt, add_log w ERROR incomplete_message))
  /\ (forall am at_ pm pt,
        assigner_total_gb (self w) = Some am ->
        assigner_formatted_time (self w) = Some at_ ->
        proof_total_gb (self w) = Some pm ->
        proof_formatted_time (self w) = Some pt ->
        display_results float_str w
        = (Ok tt, add_printed w [assigner_text am at_; proof_text pm pt])
        /\ two_decimals (Float64.format_2f am)
        /\ two_decimals (Float64.format_2f pm)).
Proof.
  intros [Ha Hp]. split.
  - intros Hnone. unfold display_results, bind, get_self. cbv beta iota.
    destruct (assigner_total_gb (self w)), (assigner_formatted_time (self w)),
      (proof_total_gb (self w)), (proof_formatted_time (self w));
      try reflexivity.
    destruct Hnone as [H|[H|[H|H]]]; discriminate.
  - intros am at_ pm pt E1 E2 E3 E4.
    split; [|split; apply format_2f_two_decimals; auto].
    unfold display_results, bind, get_self. cbv beta iota.
    rewrite E1, E2, E3, E4. unfold print, write, add_printed,
      assigner_text, proof_text. cbn [fst snd printed self os logged commands].
    rewrite <- !app_assoc. reflexivity.
Qed.
End SessionClaims.

(** ** A machine to run the session on *)

(** The machine is the list of the paths that exist; a path with a
    name of more than 255 characters cannot be examined.  Every command
    fails with status 1 and leaves a timing line on its error stream. *)
Definition listed_paths : Type := list str.

Definition name_too_long (path : str) : bool :=
  existsb (fun name => (255 <? List.length name)%nat)
          (split_on "/" [] path).

Definition listed (paths : listed_paths) (path : str) : result bool :=
  if name_too_long path then Raise OSError
  else Ok (existsb (str_eqb path) paths).

Definition failing_process : CompletedProcess :=
  {| returncode := 1; stdout := lit "out";
     stderr := lit "0:01.50elapsed" |}.

Definition always_failing (paths : listed_paths) (command : str)
           (cwd : option str) : result CompletedProcess * listed_paths :=
  (Ok failing_process, paths).

(** A session in [/w], on a template in [/t] of which only
    [template.ll] was built. *)
Definition fresh_world : world listed_paths :=
  {| self := init (lit "/w") (lit "/t");
     os := [lit "/t/build/src/template.ll"];
     logged := []; printed := []; commands := [] |}.

Definition one_and_a_half : Float64.t :=
  Float64.Finite 6755399441055744 (-52).

(** The same session after the four measurements. *)
Definition measured_world : world listed_paths :=
  {| self :=
       set_proof_formatted_time (Some one_and_a_half)
         (set_assigner_formatted_time (Some one_and_a_half)
            (set_proof_total_gb (Some one_and_a_half)
               (set_assigner_total_gb (Some one_and_a_half)
                                      (init (lit "/w") (lit "/t")))));
     os := [lit "/t/build/src/template.ll"];
     logged := []; printed := []; commands := [] |}.

(** A session on a template of which only [template.crct] was
    built. *)
Definition half_built_world : world listed_paths :=
  {| self := init (lit "/w") (lit "/t");
     os := [lit "/t/build/src/template.crct"];
     logged := []; printed := []; commands := [] |}.

Lemma verify_build_names_missing_witness :
  check listed half_built_world (lit "template.ll") = Ok false
  /\ check listed half_built_world (lit "template.crct") = Ok true
  /\ check listed half_built_world (lit "template.tbl") = Ok false
  /\ verify_build listed half_built_world
     = (Ok false,
        add_log half_built_world ERROR
          (lit "Missing required build files: template.ll, template.tbl")).
Proof.
  assert (H1 : check listed half_built_world (lit "template.ll") = Ok false)
    by reflexivity.
  assert (H2 : check listed half_built_world (lit "template.crct") = Ok true)
    by reflexivity.
  assert (H3 : check listed half_built_world (lit "template.tbl") = Ok false)
    by reflexivity.
  split; [exact H1|]. split; [exact H2|]. split; [exact H3|].
  destruct (verify_build_names_missing listed half_built_world) as [Hm _].
  destruct (Hm false true false H1 H2 H3) as [E _]. rewrite E. reflexivity.
Defined.

(** A session on a template whose directory has a name of 256
    characters: no required file is there. *)
Definition long_named_world : world listed_paths :=
  {| self := init (lit "/w") (repeat "a"%char 256);
     os := [];
     logged := []; printed := []; commands := [] |}.

(** The claim of C5 that [verify_build] returns [False] and logs the
    missing files in every state of the filesystem fails where a file
    cannot be examined: nothing exists on the machine below, and
    [verify_build] raises [OSError] and logs nothing. *)
Lemma verify_build_raises :
  os long_named_world = []
  /\ check listed long_named_world (lit "template.ll") = Raise OSError
  /\ verify_build listed long_named_world
     = (Raise OSError, long_named_world)
  /\ fst (verify_build listed long_named_world) <> Ok false
  /\ logged (snd (verify_build listed long_named_world)) = [].
Proof.
  assert (E : verify_build listed long_named_world
              = (Raise OSError, long_named_world))
    by (vm_compute; reflexivity).
  split; [reflexivity|]. split; [vm_compute; reflexivity|].
  split; [exact E|]. rewrite E. split; [discriminate|reflexivity].
Qed.

Lemma run_command_returns_streams_witness :
  always_failing (os fresh_world) (lit "ms_print x") None
  = (Ok failing_process, os fresh_world)
  /\ run_command always_failing (lit "ms_print x") None fresh_world
     = (Ok (lit "out", lit "0:01.50elapsed"),
        {| self := self fresh_world; os := os fresh_world;
           logged :=
             [(ERROR, lit "Command failed with error: 0:01.50elapsed")];
           printed := [];
           commands := [(lit "ms_print x", None)] |}).
Proof.
  assert (H : always_failing (os fresh_world) (lit "ms_print x") None
              = (Ok failing_process, os fresh_world)) by reflexivity.
  split; [exact H|].
  rewrite (@run_command_returns_streams listed_paths always_failing
             (lit "ms_print x") None fresh_world failing_process
             (os fresh_world) H).
  reflexivity.
Defined.

Lemma display_results_complete_or_error_witness :
  finite_memory (self fresh_world)
  /\ assigner_total_gb (self fresh_world) = None
  /\ display_results (fun _ => lit "1.5") fresh_world
     = (Ok tt, add_log fresh_world ERROR incomplete_message)
  /\ finite_memory (self measured_world)
  /\ printed (snd (display_results (fun _ => lit "1.5") measured_world))
     = [lit "1. Assigner:" ++ [newline] ++ lit "   Memory: 1.50GB,"
        ++ [newline] ++ lit "   Time: 1.5s" ++ [newline];
        lit "2. Proof:" ++ [newline] ++ lit "   Memory: 1.50GB,"
        ++ [newline] ++ lit "   Time: 1.5s" ++ [newline]].
Proof.
  assert (F1 : finite_memory (self fresh_world))
    by (split; intros x; discriminate).
  assert (F2 : finite_memory (self measured_world))
    by (split; intros x [= <-]; reflexivity).
  split; [exact F1|]. split; [reflexivity|]. split.
  - apply (display_results_complete_or_error (fun _ => lit "1.5") _ F1).
    left. reflexivity.
  - split; [exact F2|].
    destruct (display_results_complete_or_error (fun _ => lit "1.5") _ F2)
      as [_ H].
    destruct (H one_and_a_half one_and_a_half one_and_a_half one_and_a_half
                eq_refl eq_refl eq_refl eq_refl) as [E _].
    rewrite E. reflexivity.
Defined.

(** * Further properties of the code *)

(** ** The outcomes of [process_massif_output] *)

Lemma py_int_raises s e : py_int s = Raise e -> e = ValueError.
Proof.
  unfold py_int.
  destruct (match strip s with [] => _ | _ :: _ => _ end) as [sign body].
  destruct (int_body false 0 0 body) as [[v n]|]; [|congruence].
  destruct (_ <? _)%nat; congruence.
Qed.

Lemma to_int64_raises c e :
  to_int64 c = Raise e -> e = ValueError \/ e = OverflowError.
Proof.
  destruct c as [t|z|]; simpl.
  - destruct (py_int t) as [z|e'] eqn:E; simpl.
    + destruct (in_int64 z); [discriminate|]. intros [= <-]. now right.
    + intros [= <-]. left. exact (py_int_raises _ E).
  - destruct (in_int64 z); [discriminate|]. intros [= <-]. now right.
  - intros [= <-]. now left.
Qed.

Lemma rmap_Raise A B (f : A -> result B) xs e :
  rmap f xs = Raise e -> exists x, In x xs /\ f x = Raise e.
Proof.
  induction xs as [|x xs IH]; simpl; [discriminate|].
  destruct (f x) as [y|e'] eqn:E; simpl.
  - destruct (rmap f xs) as [ys|e'']; simpl; [discriminate|].
    intros [= <-]. destruct (IH eq_refl) as (x' & Hin & Hx). eauto.
  - intros [= <-]. eauto.
Qed.

Lemma Forall_exists_Forall2 A B (P : A -> B -> Prop) xs :
  Forall (fun x => exists y, P x y) xs -> exists ys, Forall2 P xs ys.
Proof.
  induction 1 as [|x xs [y Hy] _ [ys IH]].
  - exists []. constructor.
  - exists (y :: ys). now constructor.
Qed.

Lemma Forall2_Forall_exists A B (P : A -> B -> Prop) xs ys :
  Forall2 P xs ys -> Forall (fun x => exists y, P x y) xs.
Proof. induction 1; constructor; eauto. Qed.

(** Where an exception of the stages comes from. *)
Lemma process_stages_Raise ls e :
  process_stages ls = Raise e ->
  ls = [] /\ e = KeyError (lit "time(i)")
  \/ exists l, In l ls
       /\ (index_of_line l = Raise e
           \/ exists i, In i [1; 2; 3; 4; 5]%nat /\ cell_field i l = Raise e).
Proof.
  unfold process_stages.
  destruct (rmap index_of_line ls) as [ns|e0] eqn:E0; cbn [rbind].
  - destruct ls as [|l0 ls0]; [intros [= <-]; now left|].
    set (ls := l0 :: ls0) in *. intros H. right.
    destruct (rmap (cell_field 1) ls) as [c1|e1] eqn:E1; cbn [rbind] in H;
      [|injection H as <-; destruct (rmap_Raise _ _ E1) as (l & Hin & Hl);
        exists l; split; [exact Hin|right; exists 1%nat; cbn; tauto]].
    destruct (rmap (cell_field 2) ls) as [c2|e2] eqn:E2; cbn [rbind] in H;
      [|injection H as <-; destruct (rmap_Raise _ _ E2) as (l & Hin & Hl);
        exists l; split; [exact Hin|right; exists 2%nat; cbn; tauto]].
    destruct (rmap (cell_field 3) ls) as [c3|e3] eqn:E3; cbn [rbind] in H;
      [|injection H as <-; destruct (rmap_Raise _ _ E3) as (l & Hin & Hl);
        exists l; split; [exact Hin|right; exists 3%nat; cbn; tauto]].
    destruct (rmap (cell_field 4) ls) as [c4|e4] eqn:E4; cbn [rbind] in H;
      [|injection H as <-; destruct (rmap_Raise _ _ E4) as (l & Hin & Hl);
        exists l; split; [exact Hin|right; exists 4%nat; cbn; tauto]].
    destruct (rmap (cell_field 5) ls) as [c5|e5] eqn:E5; cbn [rbind] in H;
      [discriminate|].
    injection H as <-. destruct (rmap_Raise _ _ E5) as (l & Hin & Hl).
    exists l. split; [exact Hin|right; exists 5%nat; cbn; tauto].
  - intros [= <-]. right.
    destruct (rmap_Raise _ _ E0) as (l & Hin & Hl). eauto.
Qed.

(** A well-formed line has an index and five fields that convert. *)
Lemma sample_of_line_fields l s :
  sample_of_line l = Ok s ->
  (exists n, index_of_line l = Ok n)
  /\ forall i, In i [1; 2; 3; 4; 5]%nat -> exists c, cell_field i l = Ok c.
Proof.
  intros Hs.
  destruct (stages_of_samples (Forall2_cons _ _ Hs (Forall2_nil _)))
    as (H0 & H1 & H2 & H3 & H4 & H5).
  cbn [rmap int_column map] in *. split.
  - destruct (index_of_line l); [eauto|discriminate].
  - intros i Hi. cbn [In] in Hi.
    destruct Hi as [<-|[<-|[<-|[<-|[<-|[]]]]]].
    + destruct (cell_field 1 l); [eauto|discriminate].
    + destruct (cell_field 2 l); [eauto|discriminate].
    + destruct (cell_field 3 l); [eauto|discriminate].
    + destruct (cell_field 4 l); [eauto|discriminate].
    + destruct (cell_field 5 l); [eauto|discriminate].
Qed.

(** X1.  [process_massif_output] returns a table exactly when the text
    has a data line and every data line is well formed.  It raises
    [KeyError] for the column [time(i)] exactly when the text has no data
    line; any other exception is the [ValueError] or the [OverflowError]
    of a data line that is not well formed. *)
Theorem process_massif_output_outcome output :
  ((exists df, process_massif_output output = Ok df)
   <-> data_lines output <> []
       /\ Forall (fun l => exists s, sample_of_line l = Ok s)
                 (data_lines output))
  /\ (process_massif_output output = Raise (KeyError (lit "time(i)"))
      <-> data_lines output = [])
  /\ (forall e,
        process_massif_output output = Raise e ->
        e <> KeyError (lit "time(i)") ->
        (e = ValueError \/ e = OverflowError)
        /\ exists l, In l (data_lines output)
                     /\ forall s, sample_of_line l <> Ok s).
Proof.
  assert (Hraise : forall e,
             process_massif_output output = Raise e ->
             data_lines output = [] /\ e = KeyError (lit "time(i)")
             \/ (e = ValueError \/ e = OverflowError)
                /\ exists l, In l (data_lines output)
                             /\ forall s, sample_of_line l <> Ok s).
  { intros e He. rewrite process_massif_output_stages in He.
    destruct (process_stages_Raise _ He) as [|(l & Hin & Hl)]; [now left|].
    right. destruct Hl as [Hl|(i & Hi & Hl)].
    - split; [left; exact (py_int_raises _ Hl)|].
      exists l. split; [exact Hin|]. intros s Hs.
      destruct (sample_of_line_fields _ Hs) as [[n Hn] _]. congruence.
    - split; [exact (to_int64_raises _ Hl)|].
      exists l. split; [exact Hin|]. intros s Hs.
      destruct (sample_of_line_fields _ Hs) as [_ Hf].
      destruct (Hf i Hi) as [c Hc]. congruence. }
  split; [|split].
  - split.
    + intros [df Hdf]. destruct (process_Ok _ Hdf) as (Hne & samples & Hs & _).
      split; [exact Hne|]. exact (Forall2_Forall_exists Hs).
    + intros [Hne Hall].
      destruct (Forall_exists_Forall2 _ Hall) as [samples Hs].
      exists (report_of samples). now apply process_of_samples.
  - split; [|apply process_no_data_lines].
    intros He. destruct (Hraise _ He) as [[H _]|[[H|H] _]];
      [exact H|discriminate|discriminate].
  - intros e He Hne. destruct (Hraise _ He) as [[_ H]|H];
      [contradiction|exact H].
Qed.

Lemma process_massif_output_outcome_witness :
  data_lines (lit "no table here") = []
  /\ process_massif_output (lit "no table here")
     = Raise (KeyError (lit "time(i)")).
Proof.
  assert (H : data_lines (lit "no table here") = []) by reflexivity.
  split; [exact H|].
  exact (proj2 (proj1 (proj2 (process_massif_output_outcome
                                (lit "no table here")))) H).
Defined.

(** ** Comma-grouped numbers *)

(** Text of digits and commas with a digit in it. *)
Definition comma_grouped (t : str) : Prop :=
  forallb (fun c => is_digit c || Ascii.eqb c ",") t = true
  /\ remove_commas t <> [].

Lemma remove_commas_digits t :
  forallb (fun c => is_digit c || Ascii.eqb c ",") t = true ->
  forallb is_digit (remove_commas t) = true.
Proof.
  induction t as [|c t IH]; simpl; [reflexivity|].
  intros H. apply andb_prop in H as [Hc Ht].
  destruct (Ascii.eqb c ",") eqn:E; simpl; [auto|].
  rewrite orb_false_r in Hc. now rewrite Hc, IH.
Qed.

(** X2.  A column cell of digits and commas, with at least one digit and
    at most 4300 of them, converts to the number that its digits write,
    wherever the commas stand; the conversion raises [OverflowError] when
    that number does not fit in 64 bits. *)
Theorem comma_grouped_astype_int t :
  comma_grouped t ->
  (List.length (remove_commas t) <= int_max_str_digits)%nat ->
  astype_int (str_replace_commas [CStr t])
  = if (decimal_value (remove_commas t) <=? int64_max)%Z
    then Ok [CInt (decimal_value (remove_commas t))]
    else Raise OverflowError.
Proof.
  intros [Hall Hne] Hlen.
  assert (Hd : digits (remove_commas t))
    by (split; [exact Hne|now apply remove_commas_digits]).
  unfold astype_int, str_replace_commas. cbn [map rmap to_int64].
  rewrite (py_int_digits Hd).
  replace (int_max_str_digits <? List.length (remove_commas t))%nat
    with false by (symmetry; apply Nat.ltb_ge; exact Hlen).
  cbn [rbind]. pose proof (decimal_value_nonneg Hd) as H0.
  unfold in_int64.
  replace (int64_min <=? decimal_value (remove_commas t))%Z with true
    by (symmetry; apply Z.leb_le; unfold int64_min; lia).
  cbn [andb].
  destruct (decimal_value (remove_commas t) <=? int64_max)%Z; reflexivity.
Qed.

Lemma comma_grouped_astype_int_witness :
  comma_grouped (lit "12,345")
  /\ (List.length (remove_commas (lit "12,345")) <= int_max_str_digits)%nat
  /\ astype_int (str_replace_commas [CStr (lit "12,345")])
     = Ok [CInt 12345].
Proof.
  assert (H1 : comma_grouped (lit "12,345"))
    by (split; [reflexivity|discriminate]).
  assert (H2 : (List.length (remove_commas (lit "12,345"))
                <= int_max_str_digits)%nat) by (vm_compute; lia).
  split; [exact H1|]. split; [exact H2|].
  rewrite (comma_grouped_astype_int H1 H2). reflexivity.
Defined.

(** ** The first part of a table line *)

Lemma drop_while_app_keep (p : ascii -> bool) a c b :
  p c = false -> drop_while p (a ++ c :: b) = drop_while p a ++ c :: b.
Proof.
  intros Hc. induction a as [|x a IH]; simpl; [now rewrite Hc|].
  destruct (p x); [exact IH|reflexivity].
Qed.

(** Trailing white space goes, the text up to the last other character
    stays. *)
Lemma rstrip_keep (p : ascii -> bool) u c v :
  p c = false ->
  rev (drop_while p (rev (u ++ c :: v)))
  = u ++ c :: rev (drop_while p (rev v)).
Proof.
  intros Hc. rewrite rev_app_distr. simpl rev. rewrite <- app_assoc.
  simpl app. rewrite drop_while_app_keep by exact Hc.
  rewrite rev_app_distr. simpl rev. rewrite rev_involutive.
  now rewrite <- app_assoc.
Qed.

Lemma split_ws_word w c r cur :
  forallb is_digit w = true -> is_space c = true ->
  split_ws false cur (w ++ c :: r) = (rev cur ++ w) :: split_ws true [] r.
Proof.
  intros Hw Hc. revert cur. induction w as [|x w IH]; intros cur; simpl.
  - now rewrite Hc, app_nil_r.
  - simpl in Hw. apply andb_prop in Hw as [Hx Hw].
    rewrite (is_digit_not_space x Hx), IH by exact Hw.
    simpl. now rewrite <- app_assoc.
Qed.

Lemma split_ws_nonempty b cur s : split_ws b cur s <> [].
Proof.
  revert b cur. induction s as [|c s IH]; intros b cur; simpl;
    [discriminate|].
  destruct (is_space c); [destruct b; [apply IH|discriminate]|apply IH].
Qed.

(** X3.  In a line that matches the table pattern the first part is the
    run of digits the line starts with (after its white space), and
    there is a second part.  So the index of the line is the number
    those digits write, never negative, and [int] refuses it only when
    the run is longer than 4300 digits. *)
Theorem table_line_index line :
  is_table_line line = true ->
  let ds := take_while is_digit (drop_while is_space line) in
  digits ds
  /\ part 0 (parts_of line) = ds
  /\ (2 <= List.length (parts_of line))%nat
  /\ index_of_line line
     = (if (int_max_str_digits <? List.length ds)%nat
        then Raise ValueError else Ok (decimal_value ds))
  /\ (0 <= decimal_value ds)%Z.
Proof.
  intros H. apply is_table_line_shape in H
    as (ws & ds & ws' & d & rest & -> & Hws & Hds & Hne' & Hws' & Hd).
  assert (S1 : stops is_space (ds ++ ws' ++ d :: rest)).
  { destruct Hds as [Hne Hall]. destruct ds as [|c ds]; [congruence|].
    simpl in *. apply andb_prop in Hall as [Hc _].
    now apply is_digit_not_space. }
  assert (S2 : stops is_digit (ws' ++ d :: rest)).
  { destruct ws' as [|c ws']; [congruence|]. simpl in *.
    apply andb_prop in Hws' as [Hc _]. now apply is_space_not_digit. }
  cbv zeta.
  rewrite (@drop_while_app _ _ _ Hws S1).
  rewrite (@take_while_app _ _ _ (proj2 Hds) S2).
  assert (Hparts : exists tail,
             parts_of (ws ++ ds ++ ws' ++ d :: rest) = ds :: tail
             /\ tail <> []).
  { unfold parts_of, strip. rewrite (@drop_while_app _ _ _ Hws S1).
    replace (ds ++ ws' ++ d :: rest) with ((ds ++ ws') ++ d :: rest)
      by (now rewrite <- app_assoc).
    rewrite rstrip_keep by (now apply is_digit_not_space).
    rewrite <- app_assoc.
    destruct ws' as [|c ws']; [congruence|].
    simpl in Hws'. apply andb_prop in Hws' as [Hc _].
    unfold re_split_ws. simpl app.
    rewrite split_ws_word by (apply Hds || exact Hc).
    eexists. split; [reflexivity|apply split_ws_nonempty]. }
  destruct Hparts as (tail & Hp & Htail).
  split; [exact Hds|]. split; [now rewrite Hp|]. split.
  - rewrite Hp. destruct tail; [congruence|simpl; lia].
  - split; [|now apply decimal_value_nonneg].
    unfold index_of_line. rewrite Hp. cbn [part nth].
    now apply py_int_digits.
Qed.

Lemma table_line_index_witness :
  is_table_line (lit "  42   7,000 x") = true
  /\ index_of_line (lit "  42   7,000 x") = Ok 42%Z.
Proof.
  assert (H : is_table_line (lit "  42   7,000 x") = true) by reflexivity.
  split; [exact H|].
  destruct (table_line_index _ H) as (_ & _ & _ & E & _).
  rewrite E. reflexivity.
Defined.

(** ** Parsing the kept lines again *)

Lemma split_on_line sep l rest cur :
  ~ In sep l ->
  split_on sep cur (l ++ sep :: rest)
  = (rev cur ++ l) :: split_on sep [] rest.
Proof.
  revert cur. induction l as [|c l IH]; intros cur Hl; simpl.
  - now rewrite Ascii.eqb_refl, app_nil_r.
  - destruct (Ascii.eqb_spec c sep) as [->|_]; [exfalso; apply Hl; now left|].
    rewrite IH by (intros Hin; apply Hl; now right).
    simpl. now rewrite <- app_assoc.
Qed.

Lemma split_on_last sep l cur :
  ~ In sep l -> split_on sep cur l = [rev cur ++ l].
Proof.
  revert cur. induction l as [|c l IH]; intros cur Hl; simpl.
  - now rewrite app_nil_r.
  - destruct (Ascii.eqb_spec c sep) as [->|_]; [exfalso; apply Hl; now left|].
    rewrite IH by (intros Hin; apply Hl; now right).
    simpl. now rewrite <- app_assoc.
Qed.

Lemma split_on_no_sep sep s cur :
  ~ In sep cur -> Forall (fun l => ~ In sep l) (split_on sep cur s).
Proof.
  revert cur. induction s as [|c s IH]; intros cur Hcur; simpl.
  - constructor; [|constructor]. now rewrite <- in_rev.
  - destruct (Ascii.eqb_spec c sep) as [->|Hne].
    + constructor; [now rewrite <- in_rev|]. apply IH. intros [].
    + apply IH. intros [->|Hin]; [congruence|contradiction].
Qed.

Lemma split_join sep ls :
  ls <> [] -> Forall (fun l => ~ In sep l) ls ->
  split_on sep [] (join [sep] ls) = ls.
Proof.
  induction ls as [|l ls IH]; [congruence|]. intros _ Hall.
  inversion Hall as [|? ? Hl Hls]; subst.
  destruct ls as [|l' ls].
  - simpl. now rewrite split_on_last.
  - cbn [join]. simpl app. rewrite split_on_line by exact Hl.
    simpl. f_equal. apply IH; [discriminate|exact Hls].
Qed.

Lemma filter_filter A (f : A -> bool) l : filter f (filter f l) = filter f l.
Proof.
  induction l as [|x l IH]; simpl; [reflexivity|].
  destruct (f x) eqn:E; simpl; [now rewrite E, IH|exact IH].
Qed.

Lemma Forall_filter_keep A (P : A -> Prop) (f : A -> bool) l :
  Forall P l -> Forall P (filter f l).
Proof.
  induction 1 as [|x l Hx _ IH]; simpl; [constructor|].
  destruct (f x); [now constructor|exact IH].
Qed.

(** X4.  Filtering is idempotent: the text made of the data lines alone,
    one per line, has the same data lines and gives the same outcome,
    table or exception, as the whole text. *)
Theorem process_massif_output_data_lines_only output :
  data_lines (join [newline] (data_lines output)) = data_lines output
  /\ process_massif_output (join [newline] (data_lines output))
     = process_massif_output output.
Proof.
  assert (H : data_lines (join [newline] (data_lines output))
              = data_lines output).
  { destruct (data_lines output) as [|l ls] eqn:E; [reflexivity|].
    rewrite <- E. unfold data_lines at 1, split_lines.
    rewrite split_join.
    - unfold data_lines. apply filter_filter.
    - rewrite E. discriminate.
    - unfold data_lines, split_lines. apply Forall_filter_keep.
      apply split_on_no_sep. intros []. }
  split; [exact H|].
  rewrite !process_massif_output_stages. now rewrite H.
Qed.

(** ** The sign of an extracted time *)

(** Zero or more, or infinite; not a NaN. *)
Definition nonneg_float (x : Float64.t) : Prop :=
  match x with
  | Float64.Finite m _ => (0 <= m)%Z
  | Float64.Inf => True
  | Float64.NaN => False
  end.

Section FloatSign.
Local Open Scope Z_scope.
Import Float64.

Lemma round_half_even_nonneg p q : 0 <= p -> 0 < q -> 0 <= round_half_even p q.
Proof.
  intros Hp Hq. unfold round_half_even.
  pose proof (Z.div_pos p q Hp Hq). destruct (_ || _); lia.
Qed.

Lemma of_ratio_nonneg p q : 0 <= p -> 0 < q -> nonneg_float (of_ratio p q).
Proof.
  intros Hp Hq. unfold of_ratio.
  destruct (p =? 0); [simpl; lia|].
  set (e := Z.max emin (ilog2_ratio p q - 52)).
  set (m := if 0 <=? e then _ else _).
  assert (Hm : 0 <= m).
  { unfold m. destruct (0 <=? e) eqn:Ee.
    - apply Z.leb_le in Ee. apply round_half_even_nonneg; [lia|].
      apply Z.mul_pos_pos; [lia|apply Z.pow_pos_nonneg; lia].
    - apply round_half_even_nonneg; [|lia].
      apply Z.mul_nonneg_nonneg; [lia|apply Z.pow_nonneg; lia]. }
  destruct (m =? 2 ^ 53).
  - destruct (emax <? e + 1); simpl; [trivial|lia].
  - destruct (emax <? e); simpl; [trivial|exact Hm].
Qed.

Lemma of_signed_ratio_nonneg p q :
  0 <= p -> 0 < q -> nonneg_float (of_signed_ratio p q).
Proof.
  intros Hp Hq. unfold of_signed_ratio.
  replace (p <? 0) with false by (symmetry; apply Z.ltb_ge; lia).
  now apply of_ratio_nonneg.
Qed.

Lemma add_nonneg x y :
  nonneg_float x -> nonneg_float y -> nonneg_float (add x y).
Proof.
  destruct x as [m1 e1| |], y as [m2 e2| |]; simpl; try tauto.
  intros H1 H2. apply of_signed_ratio_nonneg.
  - apply Z.add_nonneg_nonneg; apply Z.mul_nonneg_nonneg;
      try assumption; apply Z.pow_nonneg; lia.
  - apply Z.pow_pos_nonneg; lia.
Qed.

Lemma of_int_nonneg n x : 0 <= n -> of_int n = Ok x -> nonneg_float x.
Proof.
  intros Hn. unfold of_int.
  pose proof (@of_signed_ratio_nonneg n 1 Hn ltac:(lia)) as H.
  destruct (of_signed_ratio n 1); [|discriminate|discriminate].
  intros [= <-]. exact H.
Qed.
End FloatSign.

(** X5.  A time that [extract_and_convert_time] returns is zero or more,
    or infinite (when the seconds are too large for a float); it is
    never negative and never a NaN. *)
Theorem extract_and_convert_time_nonneg text x :
  extract_and_convert_time text = Ok (Some x) -> nonneg_float x.
Proof.
  intros H.
  pose proof (re_search_time_pattern text) as Hs.
  destruct (re_search time_pattern text) as [[caps j]|] eqn:Es.
  - destruct Hs as (pre & m & sd & fd & post & Hfirst & _).
    rewrite (extract_first_token Hfirst) in H.
    destruct (_ <? _)%nat; [discriminate|].
    destruct (Float64.of_int (decimal_value m * 60)) as [total|] eqn:Et;
      [|discriminate].
    injection H as <-.
    destruct Hfirst as [(_ & Hm & Hsd & Hfd) _].
    apply add_nonneg.
    + apply (of_int_nonneg (n := (decimal_value m * 60)%Z));
        [pose proof (decimal_value_nonneg Hm); lia|exact Et].
    + unfold seconds_value. apply of_ratio_nonneg.
      * unfold decimal_value. apply digits_value_nonneg; [|lia].
        rewrite forallb_app. now rewrite (proj2 Hsd), (proj2 Hfd).
      * apply Z.pow_pos_nonneg; lia.
  - unfold extract_and_convert_time in H. rewrite Es in H. discriminate.
Qed.

Lemma extract_and_convert_time_nonneg_witness :
  extract_and_convert_time (lit "real 1:02.25elapsed")
  = Ok (Some (Float64.Finite 8760908650119168 (-47)))
  /\ nonneg_float (Float64.Finite 8760908650119168 (-47)).
Proof.
  assert (H : extract_and_convert_time (lit "real 1:02.25elapsed")
              = Ok (Some (Float64.Finite 8760908650119168 (-47))))
    by (vm_compute; reflexivity).
  split; [exact H|]. exact (extract_and_convert_time_nonneg _ H).
Defined.

(** ** Gigabytes *)

(** [represents x p q]: the float [x] is the ratio [p/q] exactly. *)
Definition represents (x : Float64.t) (p q : Z) : Prop :=
  match x with
  | Float64.Finite m e =>
      if (0 <=? e)%Z then (m * 2 ^ e * q = p)%Z
      else (m * q = p * 2 ^ (- e))%Z
  | _ => False
  end.

Section Gigabytes.
Local Open Scope Z_scope.
Import Float64.

Lemma round_half_even_exact m q : 0 < q -> round_half_even (m * q) q = m.
Proof.
  intros Hq. unfold round_half_even.
  rewrite Z.div_mul, Z.mod_mul by lia.
  replace (q <? 2 * 0) with false by (symmetry; apply Z.ltb_ge; lia).
  replace (q =? 2 * 0) with false by (symmetry; apply Z.eqb_neq; lia).
  reflexivity.
Qed.

(** A full mantissa over a power of two is a float as it stands. *)
Lemma of_ratio_mantissa M k :
  2 ^ 52 <= M < 2 ^ 53 -> 0 <= k <= 1074 ->
  of_ratio M (2 ^ k) = Finite M (- k).
Proof.
  intros HM Hk. unfold of_ratio.
  replace (M =? 0) with false by (symmetry; apply Z.eqb_neq; lia).
  assert (HlM : Z.log2 M = 52) by (apply Z.log2_unique; lia).
  assert (Hpk : 0 < 2 ^ k) by (apply Z.pow_pos_nonneg; lia).
  assert (Hil : ilog2_ratio M (2 ^ k) = 52 - k).
  { unfold ilog2_ratio. rewrite HlM, Z.log2_pow2 by lia.
    destruct (0 <=? 52 - k) eqn:E.
    - apply Z.leb_le in E.
      replace (2 ^ k * 2 ^ (52 - k) <=? M) with true; [reflexivity|].
      symmetry. apply Z.leb_le. rewrite <- Z.pow_add_r by lia.
      replace (k + (52 - k)) with 52 by lia. lia.
    - apply Z.leb_gt in E.
      replace (2 ^ k <=? M * 2 ^ (- (52 - k))) with true; [reflexivity|].
      symmetry. apply Z.leb_le.
      replace (2 ^ k) with (2 ^ 52 * 2 ^ (- (52 - k)))
        by (rewrite <- Z.pow_add_r by lia; f_equal; lia).
      apply Z.mul_le_mono_nonneg_r; [apply Z.pow_nonneg|]; lia. }
  rewrite Hil.
  replace (Z.max emin (52 - k - 52)) with (- k) by (unfold emin; lia).
  assert (Hm : (if 0 <=? - k then round_half_even M (2 ^ k * 2 ^ (- k))
                else round_half_even (M * 2 ^ (- - k)) (2 ^ k)) = M).
  { destruct (0 <=? - k) eqn:E.
    - apply Z.leb_le in E. assert (k = 0) as -> by lia.
      change (2 ^ 0 * 2 ^ (- 0)) with 1.
      rewrite <- (Z.mul_1_r M) at 1. now apply round_half_even_exact.
    - rewrite Z.opp_involutive. now apply round_half_even_exact. }
  rewrite Hm.
  replace (M =? 2 ^ 53) with false by (symmetry; apply Z.eqb_neq; lia).
  replace (emax <? - k) with false
    by (symmetry; apply Z.ltb_ge; unfold emax; lia).
  reflexivity.
Qed.

(** The float of an integer below [2^53]: the integer itself, shifted
    to a full mantissa. *)
Lemma of_ratio_small_int a :
  0 < a < 2 ^ 53 ->
  exists M L,
    of_ratio a 1 = Finite M (L - 52)
    /\ 0 <= L <= 52 /\ M = a * 2 ^ (52 - L) /\ 2 ^ 52 <= M < 2 ^ 53.
Proof.
  intros Ha. set (L := Z.log2 a).
  assert (HL : 0 <= L <= 52).
  { split; [apply Z.log2_nonneg|].
    assert (L < 53); [apply Z.log2_lt_pow2; lia|lia]. }
  pose proof (Z.log2_spec a ltac:(lia)) as [Hlo Hhi]. fold L in Hlo, Hhi.
  assert (HM : 2 ^ 52 <= a * 2 ^ (52 - L) < 2 ^ 53).
  { assert (Hp : 0 < 2 ^ (52 - L)) by (apply Z.pow_pos_nonneg; lia).
    replace (2 ^ 52) with (2 ^ L * 2 ^ (52 - L))
      by (rewrite <- Z.pow_add_r by lia; f_equal; lia).
    replace (2 ^ 53) with (2 ^ Z.succ L * 2 ^ (52 - L))
      by (rewrite <- Z.pow_add_r by lia; f_equal; lia).
    split; [apply Z.mul_le_mono_nonneg_r; lia|].
    apply Z.mul_lt_mono_pos_r; lia. }
  exists (a * 2 ^ (52 - L)), L. split; [|auto].
  unfold of_ratio.
  replace (a =? 0) with false by (symmetry; apply Z.eqb_neq; lia).
  rewrite ilog2_ratio_int by lia. fold L.
  replace (Z.max emin (L - 52)) with (L - 52) by (unfold emin; lia).
  assert (Hm : (if 0 <=? L - 52 then round_half_even a (1 * 2 ^ (L - 52))
                else round_half_even (a * 2 ^ (- (L - 52))) 1)
               = a * 2 ^ (52 - L)).
  { destruct (0 <=? L - 52) eqn:E.
    - apply Z.leb_le in E. assert (L = 52) as -> by lia.
      change (1 * 2 ^ (52 - 52)) with 1. change (2 ^ (52 - 52)) with 1.
      rewrite Z.mul_1_r. rewrite <- (Z.mul_1_r a) at 1.
      apply round_half_even_exact. lia.
    - replace (- (L - 52)) with (52 - L) by lia.
      rewrite <- (Z.mul_1_r (a * 2 ^ (52 - L))) at 1.
      apply round_half_even_exact. lia. }
  rewrite Hm.
  replace (a * 2 ^ (52 - L) =? 2 ^ 53) with false
    by (symmetry; apply Z.eqb_neq; lia).
  replace (emax <? L - 52) with false
    by (symmetry; apply Z.ltb_ge; unfold emax; lia).
  reflexivity.
Qed.

(** Below [2^53] bytes the gigabytes are exact. *)
Lemma gigabytes_exact z :
  - 2 ^ 53 < z < 2 ^ 53 ->
  exists x y,
    of_int z = Ok x /\ div_pow2 x 30 = y /\ represents y z (2 ^ 30).
Proof.
  intros Hz. destruct (Z.eq_dec z 0) as [->|Hnz].
  { eexists _, _. split; [reflexivity|]. split; [reflexivity|].
    vm_compute. reflexivity. }
  assert (Hsigned : forall a s,
             0 < a < 2 ^ 53 -> (s = 1 \/ s = -1) ->
             forall M L, of_ratio a 1 = Finite M (L - 52) ->
             0 <= L <= 52 -> M = a * 2 ^ (52 - L) -> 2 ^ 52 <= M < 2 ^ 53 ->
             div_pow2 (Finite (s * M) (L - 52)) 30 = Finite (s * M) (L - 82)
             /\ represents (Finite (s * M) (L - 82)) (s * a) (2 ^ 30)).
  { intros a s Ha Hs M L _ HL HMa HM. split.
    - assert (Hr : of_ratio M (2 ^ (82 - L)) = Finite M (- (82 - L)))
        by (apply of_ratio_mantissa; lia).
      replace (- (82 - L)) with (L - 82) in Hr by lia.
      unfold div_pow2, of_signed_ratio.
      destruct (0 <=? L - 52) eqn:E.
      + apply Z.leb_le in E. assert (L = 52) as -> by lia.
        change (2 ^ (52 - 52)) with 1. rewrite Z.mul_1_r.
        change (82 - 52) with 30 in Hr.
        destruct Hs as [-> | ->].
        * rewrite Z.mul_1_l.
          replace (M <? 0) with false by (symmetry; apply Z.ltb_ge; lia).
          exact Hr.
        * replace (-1 * M <? 0) with true by (symmetry; apply Z.ltb_lt; lia).
          replace (- (-1 * M)) with M by lia. now rewrite Hr.
      + replace (30 - (L - 52)) with (82 - L) by lia.
        destruct Hs as [-> | ->].
        * rewrite Z.mul_1_l.
          replace (M <? 0) with false by (symmetry; apply Z.ltb_ge; lia).
          exact Hr.
        * replace (-1 * M <? 0) with true by (symmetry; apply Z.ltb_lt; lia).
          replace (- (-1 * M)) with M by lia. now rewrite Hr.
    - unfold represents.
      replace (0 <=? L - 82) with false by (symmetry; apply Z.leb_gt; lia).
      replace (- (L - 82)) with ((52 - L) + 30) by lia.
      rewrite Z.pow_add_r by lia. subst M. ring. }
  unfold of_int, of_signed_ratio. destruct (z <? 0) eqn:Es.
  - apply Z.ltb_lt in Es.
    destruct (@of_ratio_small_int (- z) ltac:(lia)) as (M & L & Hof & HL & HMa & HM).
    rewrite Hof.
    destruct (Hsigned (- z) (-1) ltac:(lia) ltac:(auto) M L Hof HL HMa HM)
      as [Hd Hr].
    replace (-1 * M) with (- M) in * by lia.
    replace (-1 * - z) with z in Hr by lia.
    eexists _, _. split; [reflexivity|]. split; [exact Hd|exact Hr].
  - apply Z.ltb_ge in Es.
    destruct (@of_ratio_small_int z ltac:(lia)) as (M & L & Hof & HL & HMa & HM).
    rewrite Hof.
    destruct (Hsigned z 1 ltac:(lia) ltac:(auto) M L Hof HL HMa HM)
      as [Hd Hr].
    replace (1 * M) with M in * by lia.
    replace (1 * z) with z in Hr by lia.
    eexists _, _. split; [reflexivity|]. split; [exact Hd|exact Hr].
Qed.

Lemma of_int_int64 z : in_int64 z = true -> exists x, of_int z = Ok x.
Proof.
  unfold in_int64, int64_min, int64_max. intros H.
  apply andb_prop in H as [H1 H2]. apply Z.leb_le in H1, H2.
  assert (P : 2 ^ 63 < 2 ^ 1023) by (vm_compute; reflexivity).
  pose proof (@of_signed_ratio_finite z 1 ltac:(lia) ltac:(lia)) as Hf.
  unfold of_int. destruct (of_signed_ratio z 1); try discriminate. eauto.
Qed.
End Gigabytes.

Lemma last_total_gb_report samples :
  last_total_gb (report_of samples)
  = (x <- Float64.of_int (wrap64 (column_sum s_total samples)) ;;
     Ok (Float64.div_pow2 x 30)).
Proof.
  unfold last_total_gb.
  replace (nrows (report_of samples) =? 0)%nat with false.
  - change (get_column (report_of samples) (lit "total(B)"))
      with (Ok (int_column s_total samples
                ++ [CInt (wrap64 (column_sum s_total samples))])).
    cbn [rbind]. now rewrite last_last.
  - symmetry. apply Nat.eqb_neq. unfold report_of, frame6, nrows.
    rewrite length_app. simpl. lia.
Qed.

Lemma last_total_gb_succeeds output df :
  process_massif_output output = Ok df ->
  exists samples fx,
    df = report_of samples
    /\ Float64.of_int (wrap64 (column_sum s_total samples)) = Ok fx
    /\ last_total_gb df = Ok (Float64.div_pow2 fx 30).
Proof.
  intros Hp. destruct (process_Ok _ Hp) as (_ & samples & _ & ->).
  destruct (of_int_int64 _ (wrap64_in_int64 (column_sum s_total samples)))
    as [fx Hfx].
  exists samples, fx. split; [reflexivity|]. split; [exact Hfx|].
  rewrite last_total_gb_report, Hfx. reflexivity.
Qed.

(** X6.  What the memory actions read from a parsed report never fails:
    for every table that [process_massif_output] returns, the last value
    of [total(B)] divided by [2^30] is a finite float.  It is the total
    of the report in gigabytes without any rounding when that total is
    below [2^53] bytes in size. *)
Theorem last_total_gb_of_report output df :
  process_massif_output output = Ok df ->
  exists samples x,
    df = report_of samples
    /\ last_total_gb df = Ok x
    /\ Float64.is_finite x = true
    /\ ((- 2 ^ 53 < wrap64 (column_sum s_total samples) < 2 ^ 53)%Z ->
        represents x (wrap64 (column_sum s_total samples)) (2 ^ 30)).
Proof.
  intros Hp.
  destruct (last_total_gb_succeeds _ Hp) as (samples & fx & -> & Hfx & Hgb).
  exists samples, (Float64.div_pow2 fx 30).
  split; [reflexivity|]. split; [exact Hgb|]. split.
  - exact (gigabytes_finite _ (wrap64_in_int64 _) Hfx).
  - intros Hs. destruct (gigabytes_exact Hs) as (x & y & Hx & Hy & Hr).
    rewrite Hfx in Hx. injection Hx as <-. now rewrite Hy.
Qed.

Definition one_gigabyte_report : str := lit "0 1 1,073,741,824 0 0 0".

Lemma last_total_gb_of_report_witness :
  process_massif_output one_gigabyte_report
  = Ok (report_of [{| s_n := 0; s_time := 1; s_total := 1073741824;
                      s_useful := 0; s_extra := 0; s_stacks := 0 |}])
  /\ exists samples x,
       report_of [{| s_n := 0; s_time := 1; s_total := 1073741824;
                     s_useful := 0; s_extra := 0; s_stacks := 0 |}]
       = report_of samples
       /\ last_total_gb (report_of samples) = Ok x
       /\ Float64.is_finite x = true.
Proof.
  assert (H : process_massif_output one_gigabyte_report
              = Ok (report_of
                      [{| s_n := 0; s_time := 1; s_total := 1073741824;
                          s_useful := 0; s_extra := 0; s_stacks := 0 |}]))
    by (vm_compute; reflexivity).
  split; [exact H|].
  destruct (last_total_gb_of_report _ H) as (samples & x & E & Hx & Hf & _).
  exists samples, x. split; [exact E|]. split; [|exact Hf].
  rewrite <- E. exact Hx.
Defined.

(** ** Runs of the session *)

Lemma str_eqb_eq a b : str_eqb a b = true -> a = b.
Proof.
  revert b. induction a as [|x a IH]; intros [|y b]; simpl;
    try discriminate; [reflexivity|].
  intros H. apply andb_prop in H as [Hx Hab].
  apply Ascii.eqb_eq in Hx. subst. now rewrite (IH _ Hab).
Qed.

Section SessionRuns.
Variable OS : Type.
Variable path_exists : OS -> str -> result bool.
Variable subprocess_run :
  OS -> str -> option str -> result CompletedProcess * OS.
Variable float_str : Float64.t -> str.

(** *** The commands of a session *)

Definition assigner_massif_command (t : BenchmarkTool) : str :=
  lit "valgrind --massif-out-file=assigner_memory_bench --tool=massif "
  ++ assigner_arguments t.

Definition ms_print_assigner : str := lit "ms_print assigner_memory_bench".

Definition proof_massif_command (t : BenchmarkTool) : str :=
  lit "valgrind --massif-out-file=proof_memory_bench --tool=massif "
  ++ lit "proof-generator-single-threaded --circuit " ++ build t
  ++ lit "/template.crct --assignment " ++ build_src t
  ++ lit "/template.tbl --proof proof.bin".

Definition ms_print_proof : str := lit "ms_print proof_memory_bench".

(** The commands that the menu can start, each with the directory it
    runs in ([None] for the directory of the script's own process). *)
Definition session_commands (t : BenchmarkTool) : list (str * option str) :=
  [(assigner_massif_command t, Some (current_dir_path t));
   (ms_print_assigner, None);
   (proof_massif_command t, Some (current_dir_path t));
   (ms_print_proof, None);
   (proof_time_command t, Some (current_dir_path t))].

(** *** What every step respects *)

Section Steps.
(** A relation between the world before and after, kept by each
    primitive step and closed under composition. *)
Variable R : world OS -> world OS -> Prop.
Hypothesis R_refl : forall w, R w w.
Hypothesis R_trans : forall w1 w2 w3, R w1 w2 -> R w2 w3 -> R w1 w3.
Hypothesis R_logging : forall l msg w, R w (snd (logging l msg w)).
Hypothesis R_write : forall text w, R w (snd (write text w)).
(** The commands that the relation lets a session start. *)
Variable permitted : BenchmarkTool -> str * option str -> Prop.
Hypothesis R_spawn :
  forall command cwd w,
    permitted (self w) (command, cwd) ->
    R w (snd (spawn subprocess_run command cwd w)).
Hypothesis permitted_commands :
  forall t c, In c (session_commands t) -> permitted t c.
(** The results that may be stored, each named by its setter. *)
Variable allowed :
  (option Float64.t -> BenchmarkTool -> BenchmarkTool) -> Prop.
Hypothesis R_update :
  forall set v w, allowed set -> R w (snd (update_self (set v) w)).

Definition steps A (m : M OS A) : Prop := forall w, R w (snd (m w)).

Lemma steps_bind A B (m : M OS A) (f : A -> M OS B) :
  steps m -> (forall a, steps (f a)) -> steps (bind m f).
Proof.
  intros Hm Hf w. unfold bind. pose proof (Hm w) as H1.
  destruct (m w) as [[a|e] w1]; cbn [snd] in *; [|exact H1].
  exact (R_trans H1 (Hf a w1)).
Qed.

Lemma steps_same A (m : M OS A) : (forall w, snd (m w) = w) -> steps m.
Proof. intros H w. rewrite H. apply R_refl. Qed.

Lemma steps_run_command command cwd w :
  permitted (self w) (command, cwd) ->
  R w (snd (run_command subprocess_run command cwd w)).
Proof.
  intros Hp. unfold run_command. unfold bind at 1.
  pose proof (@R_spawn command cwd w Hp) as H1.
  destruct (spawn subprocess_run command cwd w) as [[cp|e] w1];
    cbn [snd] in *; [|exact H1].
  apply (R_trans H1).
  apply steps_bind; [|intros; apply steps_same; reflexivity].
  destruct (negb _); intros w'; apply R_logging.
Qed.

Lemma steps_print text : steps (@print OS text).
Proof. intros w. apply R_write. Qed.

Lemma steps_reject t xs :
  steps (reject (fun f => exists_ path_exists (joinpath (build_src t) f)) xs).
Proof.
  induction xs as [|x xs IH]; cbn [reject]; [apply steps_same; reflexivity|].
  apply steps_bind; [apply steps_same; reflexivity|]. intros b.
  apply steps_bind; [exact IH|]. intros rest. apply steps_same; reflexivity.
Qed.

Lemma steps_verify_build : steps (verify_build path_exists).
Proof.
  unfold verify_build. apply steps_bind; [(apply steps_same; reflexivity)|]. intros t.
  apply steps_bind; [apply steps_reject|]. intros [|f fs].
  - (apply steps_same; reflexivity).
  - apply steps_bind; [intros w; apply R_logging|intros; (apply steps_same; reflexivity)].
Qed.

Lemma steps_display_results : steps (display_results float_str).
Proof.
  unfold display_results. apply steps_bind; [(apply steps_same; reflexivity)|]. intros t.
  destruct (assigner_total_gb t), (assigner_formatted_time t),
    (proof_total_gb t), (proof_formatted_time t);
    try (intros w; apply R_logging).
  apply steps_bind; [apply steps_print|intros; apply steps_print].
Qed.

Ltac listed_command :=
  apply permitted_commands; unfold session_commands;
  repeat first [left; reflexivity | right].

Lemma steps_measure (m : M OS (str * str)) :
  m = measure_assigner_heap_allocation subprocess_run
  \/ m = measure_proof_generation_heap_allocation subprocess_run
  \/ m = measure_proof_generation_execution_time subprocess_run ->
  steps m.
Proof.
  intros [ -> | [ -> | -> ] ] w.
  - unfold measure_assigner_heap_allocation, bind, get_self.
    apply steps_run_command. listed_command.
  - unfold measure_proof_generation_heap_allocation, bind, get_self.
    apply steps_run_command. listed_command.
  - unfold measure_proof_generation_execution_time, bind, get_self.
    apply steps_run_command. listed_command.
Qed.

Lemma steps_parse_memory_usage file_name :
  file_name = lit "assigner_memory_bench"
  \/ file_name = lit "proof_memory_bench" ->
  steps (parse_memory_usage subprocess_run file_name).
Proof.
  intros Hf. unfold parse_memory_usage.
  apply steps_bind; [|intros; (apply steps_same; reflexivity)].
  intros w. apply steps_run_command.
  destruct Hf as [ -> | -> ]; listed_command.
Qed.

Ltac walk :=
  repeat first
    [ (apply steps_same; reflexivity)
    | apply steps_verify_build
    | apply steps_display_results
    | apply steps_parse_memory_usage; tauto
    | apply steps_measure; tauto
    | (intros w; apply R_logging)
    | (intros w; apply R_update; auto)
    | apply steps_bind; [|intros] ].

(** An action respects the relation when the result it stores is
    allowed. *)
Lemma steps_menu_action choice :
  (choice = lit "2" -> allowed set_assigner_total_gb) ->
  (choice = lit "3" -> allowed set_proof_total_gb) ->
  (choice = lit "4" -> allowed set_assigner_formatted_time) ->
  (choice = lit "5" -> allowed set_proof_formatted_time) ->
  steps (menu_action path_exists subprocess_run float_str choice).
Proof.
  intros A2 A3 A4 A5. unfold menu_action.
  repeat match goal with
         | |- context [if str_eqb ?a ?b then _ else _] =>
             let E := fresh "E" in
             destruct (str_eqb a b) eqn:E;
             [apply str_eqb_eq in E|]
         end; walk.
  destruct (negb _); walk.
Qed.

Lemma steps_print_menu : steps (@print_menu OS).
Proof.
  unfold print_menu.
  repeat (apply steps_bind; [apply steps_print|intros _]).
  intros w. apply R_write.
Qed.

Hypothesis all_allowed :
  allowed set_assigner_total_gb /\ allowed set_proof_total_gb
  /\ allowed set_assigner_formatted_time /\ allowed set_proof_formatted_time.

Lemma steps_menu_loop inputs :
  steps (menu_loop path_exists subprocess_run float_str inputs).
Proof.
  induction inputs as [|choice rest IH]; cbn [menu_loop].
  - apply steps_bind;
      [apply steps_print_menu|intros; apply steps_same; reflexivity].
  - apply steps_bind; [apply steps_print_menu|intros _].
    apply steps_bind; [apply steps_menu_action; intros; apply all_allowed|].
    intros [|]; [exact IH|apply steps_same; reflexivity].
Qed.

Lemma steps_run inputs :
  steps (run path_exists subprocess_run float_str inputs).
Proof.
  unfold run. apply steps_bind; [apply steps_verify_build|].
  intros ok. destruct (negb ok);
    [intros w; apply R_logging|apply steps_menu_loop].
Qed.
End Steps.

(** *** The paths are fixed and each result has one writer *)

Definition same_paths (t t' : BenchmarkTool) : Prop :=
  current_dir_path t' = current_dir_path t
  /\ zkllvm_template_path t' = zkllvm_template_path t
  /\ build_src t' = build_src t
  /\ build t' = build t
  /\ input_json t' = input_json t.

Definition any_result
           (set : option Float64.t -> BenchmarkTool -> BenchmarkTool) : Prop :=
  set = set_assigner_total_gb \/ set = set_proof_total_gb
  \/ set = set_assigner_formatted_time \/ set = set_proof_formatted_time.

(** The steps respect a relation on the session object that is an
    equivalence and that storing an allowed result respects. *)
Lemma steps_on_self (R : BenchmarkTool -> BenchmarkTool -> Prop)
      (allowed : (option Float64.t -> BenchmarkTool -> BenchmarkTool) -> Prop) :
  (forall t, R t t) ->
  (forall t1 t2 t3, R t1 t2 -> R t2 t3 -> R t1 t3) ->
  (forall set v t, allowed set -> R t (set v t)) ->
  forall choice,
    (choice = lit "2" -> allowed set_assigner_total_gb) ->
    (choice = lit "3" -> allowed set_proof_total_gb) ->
    (choice = lit "4" -> allowed set_assigner_formatted_time) ->
    (choice = lit "5" -> allowed set_proof_formatted_time) ->
    forall w,
      R (self w)
        (self (snd (menu_action path_exists subprocess_run float_str
                                choice w))).
Proof.
  intros Hrefl Htrans Hset choice A2 A3 A4 A5.
  refine (@steps_menu_action (fun w w' => R (self w) (self w'))
            _ _ _ _ (fun _ _ => True) _ _ allowed _ choice A2 A3 A4 A5).
  - intros w. apply Hrefl.
  - intros w1 w2 w3. apply Htrans.
  - intros l msg w. apply Hrefl.
  - intros text w. apply Hrefl.
  - intros command cwd w _. unfold spawn.
    destruct (subprocess_run (os w) command cwd). apply Hrefl.
  - trivial.
  - intros set v w Ha. cbn. now apply Hset.
Qed.

(** X8.  The five paths of the session never change during a run. *)
Theorem run_keeps_paths inputs w :
  same_paths (self w)
             (self (snd (run path_exists subprocess_run float_str inputs w))).
Proof.
  refine (@steps_run (fun w w' => same_paths (self w) (self w'))
            _ _ _ _ (fun _ _ => True) _ _ any_result _ _ inputs w).
  - intros w0. repeat split.
  - intros w1 w2 w3 (A1 & A2 & A3 & A4 & A5) (B1 & B2 & B3 & B4 & B5).
    repeat split; congruence.
  - intros l msg w0. repeat split.
  - intros text w0. repeat split.
  - intros command cwd w0 _. unfold spawn.
    destruct (subprocess_run (os w0) command cwd). repeat split.
  - trivial.
  - intros set v w0 [ -> | [ -> | [ -> | -> ] ] ]; repeat split.
  - unfold any_result. tauto.
Qed.

(** *** The commands a run starts *)

Lemma session_commands_paths t t' :
  same_paths t t' -> session_commands t' = session_commands t.
Proof.
  intros (E1 & E2 & E3 & E4 & E5).
  unfold session_commands, assigner_massif_command, proof_massif_command,
    proof_time_command, assigner_arguments.
  now rewrite E1, E3, E4, E5.
Qed.

(** From one world to the next the paths are kept and the commands
    started in between are commands of the session. *)
Definition starts_only (w w' : world OS) : Prop :=
  same_paths (self w) (self w')
  /\ exists cs,
       commands w' = commands w ++ cs
       /\ Forall (fun c => In c (session_commands (self w))) cs.

Lemma starts_only_quiet w w' :
  same_paths (self w) (self w') -> commands w' = commands w ->
  starts_only w w'.
Proof.
  intros Hs Hc. split; [exact Hs|]. exists [].
  split; [now rewrite app_nil_r|constructor].
Qed.

Lemma same_paths_refl t : same_paths t t.
Proof. repeat split. Qed.

Lemma starts_only_trans w1 w2 w3 :
  starts_only w1 w2 -> starts_only w2 w3 -> starts_only w1 w3.
Proof.
  intros [S1 (cs1 & C1 & F1)] [S2 (cs2 & C2 & F2)].
  rewrite (session_commands_paths S1) in F2.
  split.
  - destruct S1 as (A1 & A2 & A3 & A4 & A5).
    destruct S2 as (B1 & B2 & B3 & B4 & B5).
    repeat split; congruence.
  - exists (cs1 ++ cs2). split.
    + now rewrite C2, C1, <- app_assoc.
    + apply Forall_app. now split.
Qed.

Lemma starts_only_spawn command cwd w :
  In (command, cwd) (session_commands (self w)) ->
  starts_only w (snd (spawn subprocess_run command cwd w)).
Proof.
  intros Hin. unfold spawn.
  destruct (subprocess_run (os w) command cwd) as [r os'].
  split; [apply same_paths_refl|]. exists [(command, cwd)].
  split; [reflexivity|]. constructor; [exact Hin|constructor].
Qed.

Lemma other_commands t :
  ~ In (assigner_time_command t, Some (current_dir_path t))
       (session_commands t)
  /\ ~ In (lit "scripts/run.sh --docker compile",
           Some (zkllvm_template_path t))
          (session_commands t).
Proof.
  unfold session_commands, assigner_massif_command, proof_massif_command,
    proof_time_command, assigner_time_command, assigner_arguments,
    ms_print_assigner, ms_print_proof.
  cbn. split; intros H;
    repeat (destruct H as [H|H]; [discriminate H|]); exact H.
Qed.

(** X7.  Whatever the operator types and whatever the commands do, the
    commands that a run of the tool starts are commands of the session:
    the two valgrind profiles and the timing of the proof generator, each
    in the directory the script was started in, and [ms_print] on the two
    profiles.  The run never starts the command that times the assigner
    nor the compile script. *)
Theorem run_starts_session_commands inputs w :
  exists cs,
    commands (snd (run path_exists subprocess_run float_str inputs w))
    = commands w ++ cs
    /\ (forall c, In c cs -> In c (session_commands (self w)))
    /\ ~ In (assigner_time_command (self w),
             Some (current_dir_path (self w))) cs
    /\ ~ In (lit "scripts/run.sh --docker compile",
             Some (zkllvm_template_path (self w))) cs.
Proof.
  assert (H : starts_only
                w (snd (run path_exists subprocess_run float_str inputs w))).
  { refine (@steps_run starts_only _ _ _ _
              (fun t c => In c (session_commands t)) _ _
              any_result _ _ inputs w).
    - intros w0. apply starts_only_quiet; [apply same_paths_refl|reflexivity].
    - apply starts_only_trans.
    - intros l msg w0.
      apply starts_only_quiet; [apply same_paths_refl|reflexivity].
    - intros text w0.
      apply starts_only_quiet; [apply same_paths_refl|reflexivity].
    - intros command cwd w0. apply starts_only_spawn.
    - trivial.
    - intros set v w0 [ -> | [ -> | [ -> | -> ] ] ];
        (apply starts_only_quiet; [repeat split|reflexivity]).
    - unfold any_result. tauto. }
  destruct H as [_ (cs & Hc & Hf)]. exists cs.
  rewrite Forall_forall in Hf.
  destruct (other_commands (self w)) as [Ht Hs].
  split; [exact Hc|]. split; [exact Hf|].
  split; intros Hin; [apply Ht|apply Hs]; now apply Hf.
Qed.

(** X9.  Each result has one writer: a menu action other than 2 leaves
    the assigner's memory as it is, other than 3 the proof's memory,
    other than 4 the assigner's time, other than 5 the proof's time. *)
Theorem menu_action_writes_own_result choice w :
  let t := self w in
  let t' := self (snd (menu_action path_exists subprocess_run float_str
                                   choice w)) in
  (choice <> lit "2" -> assigner_total_gb t' = assigner_total_gb t)
  /\ (choice <> lit "3" -> proof_total_gb t' = proof_total_gb t)
  /\ (choice <> lit "4" ->
      assigner_formatted_time t' = assigner_formatted_time t)
  /\ (choice <> lit "5" ->
      proof_formatted_time t' = proof_formatted_time t).
Proof.
  cbv zeta. split; [|split; [|split]]; intros Hne.
  - apply (@steps_on_self
             (fun t t' => assigner_total_gb t' = assigner_total_gb t)
             (fun set => set = set_proof_total_gb
                         \/ set = set_assigner_formatted_time
                         \/ set = set_proof_formatted_time));
      try tauto; try congruence.
    intros set v t [ -> | [ -> | -> ] ]; reflexivity.
  - apply (@steps_on_self
             (fun t t' => proof_total_gb t' = proof_total_gb t)
             (fun set => set = set_assigner_total_gb
                         \/ set = set_assigner_formatted_time
                         \/ set = set_proof_formatted_time));
      try tauto; try congruence.
    intros set v t [ -> | [ -> | -> ] ]; reflexivity.
  - apply (@steps_on_self
             (fun t t' => assigner_formatted_time t'
                          = assigner_formatted_time t)
             (fun set => set = set_assigner_total_gb
                         \/ set = set_proof_total_gb
                         \/ set = set_proof_formatted_time));
      try tauto; try congruence.
    intros set v t [ -> | [ -> | -> ] ]; reflexivity.
  - apply (@steps_on_self
             (fun t t' => proof_formatted_time t' = proof_formatted_time t)
             (fun set => set = set_assigner_total_gb
                         \/ set = set_proof_total_gb
                         \/ set = set_assigner_formatted_time));
      try tauto; try congruence.
    intros set v t [ -> | [ -> | -> ] ]; reflexivity.
Qed.

(** *** Actions that measure nothing *)




(** *** Starting and leaving the loop *)

Lemma bind_ext A B (m : M OS A) (f g : A -> M OS B) w :
  (forall a w', f a w' = g a w') -> bind m f w = bind m g w.
Proof.
  intros H. unfold bind. destruct (m w) as [[a|e] w1]; [apply H|reflexivity].
Qed.

Lemma menu_action_exit (w : world OS) :
  menu_action path_exists subprocess_run float_str (lit "7") w
  = (Ok false, add_log w INFO (lit "Exiting.")).
Proof. reflexivity. Qed.

(** X11.  The choice 7 ends the run: what the operator would type
    after it is never read, so it changes nothing. *)
Theorem run_stops_at_exit before after w :
  menu_loop path_exists subprocess_run float_str
            (before ++ lit "7" :: after) w
  = menu_loop path_exists subprocess_run float_str (before ++ [lit "7"]) w
  /\ run path_exists subprocess_run float_str (before ++ lit "7" :: after) w
     = run path_exists subprocess_run float_str (before ++ [lit "7"]) w.
Proof.
  assert (Hloop : forall w0,
             menu_loop path_exists subprocess_run float_str
                       (before ++ lit "7" :: after) w0
             = menu_loop path_exists subprocess_run float_str
                         (before ++ [lit "7"]) w0).
  { induction before as [|choice before IH]; intros w0.
    - cbn [app menu_loop]. apply bind_ext. intros _ w1.
      unfold bind. rewrite menu_action_exit. reflexivity.
    - cbn [app menu_loop]. apply bind_ext. intros _ w1.
      apply bind_ext. intros [|] w2; [apply IH|reflexivity]. }
  split; [apply Hloop|].
  unfold run, bind.
  destruct (verify_build path_exists w) as [[ok|e] w1]; [|reflexivity].
  destruct (negb ok); [reflexivity|apply Hloop].
Qed.

(** X12.  With a required file missing [run] does not start: it logs
    the missing files and that the verification failed, and returns
    without printing the menu, reading a choice or running a command.
    When an existence check raises, [run] raises that exception at once,
    and nothing is logged or printed. *)
Theorem run_refuses_unbuilt inputs w :
  (forall ll crct tbl,
     check path_exists w (lit "template.ll") = Ok ll ->
     check path_exists w (lit "template.crct") = Ok crct ->
     check path_exists w (lit "template.tbl") = Ok tbl ->
     ll && crct && tbl = false ->
     run path_exists subprocess_run float_str inputs w
     = (Ok tt,
        add_log (add_log w ERROR (missing_message ll crct tbl))
                ERROR build_failed))
  /\ (forall e,
        checks path_exists w = Raise e ->
        run path_exists subprocess_run float_str inputs w = (Raise e, w)).
Proof.
  split.
  - intros ll crct tbl H1 H2 H3 Hm. unfold run, bind.
    rewrite (@verify_build_returns _ path_exists w ll crct tbl H1 H2 H3), Hm.
    reflexivity.
  - intros e He. unfold run, bind.
    rewrite verify_build_unfold, He. reflexivity.
Qed.

(** *** An action that fails stores nothing *)

Definition framed A (m : M OS A) : Prop :=
  forall w, self (snd (m w)) = self w.

Definition never_raises A (m : M OS A) : Prop :=
  forall w, exists a, fst (m w) = Ok a.

Definition raise_keeps_self A (m : M OS A) : Prop :=
  forall w e, fst (m w) = Raise e -> self (snd (m w)) = self w.

Lemma framed_then A B (m : M OS A) (f : A -> M OS B) :
  framed m -> (forall a, raise_keeps_self (f a)) ->
  raise_keeps_self (bind m f).
Proof.
  intros Hm Hf w e. unfold bind. pose proof (Hm w) as Hw.
  destruct (m w) as [[a|e'] w1]; cbn [fst snd] in *.
  - intros H. rewrite (Hf a w1 e H). exact Hw.
  - intros _. exact Hw.
Qed.

Lemma never_raises_keeps A (m : M OS A) : never_raises m -> raise_keeps_self m.
Proof.
  intros Hm w e H. destruct (Hm w) as [a Ha]. congruence.
Qed.

Lemma never_raises_bind A B (m : M OS A) (f : A -> M OS B) :
  never_raises m -> (forall a, never_raises (f a)) -> never_raises (bind m f).
Proof.
  intros Hm Hf w. unfold bind. destruct (Hm w) as [a Ha].
  destruct (m w) as [[a'|e] w1]; cbn [fst] in Ha; [|discriminate].
  apply Hf.
Qed.

Lemma framed_steps A (m : M OS A) :
  steps (fun w w' => self w' = self w) m -> framed m.
Proof. intros H w. apply H. Qed.

Lemma self_refl (w : world OS) : self w = self w.
Proof. reflexivity. Qed.

Lemma self_trans (w1 w2 w3 : world OS) :
  self w2 = self w1 -> self w3 = self w2 -> self w3 = self w1.
Proof. congruence. Qed.

Lemma self_spawn command cwd (w : world OS) :
  self (snd (spawn subprocess_run command cwd w)) = self w.
Proof.
  unfold spawn. now destruct (subprocess_run (os w) command cwd).
Qed.

Lemma framed_measure (m : M OS (str * str)) :
  m = measure_assigner_heap_allocation subprocess_run
  \/ m = measure_proof_generation_heap_allocation subprocess_run
  \/ m = measure_proof_generation_execution_time subprocess_run ->
  framed m.
Proof.
  intros H. apply framed_steps.
  apply (@steps_measure _ self_refl self_trans)
    with (permitted := fun _ _ => True); auto using self_spawn.
Qed.

Lemma framed_parse_memory_usage file_name :
  file_name = lit "assigner_memory_bench"
  \/ file_name = lit "proof_memory_bench" ->
  framed (parse_memory_usage subprocess_run file_name).
Proof.
  intros H. apply framed_steps.
  apply (@steps_parse_memory_usage _ self_refl self_trans)
    with (permitted := fun _ _ => True); auto using self_spawn.
Qed.

Lemma framed_verify_build : framed (verify_build path_exists).
Proof.
  apply framed_steps.
  apply (@steps_verify_build _ self_refl self_trans); auto.
Qed.

Lemma framed_display_results : framed (display_results float_str).
Proof.
  apply framed_steps.
  apply (@steps_display_results _ self_refl self_trans); auto.
Qed.

Ltac settle :=
  repeat first
    [ apply never_raises_keeps
    | apply never_raises_bind; [|intros]
    | (intros w0; eexists; reflexivity) ].

(** X13.  A menu action that raises has stored nothing: the session
    object, with the results measured before, is as it was. *)
Theorem menu_action_raise_keeps_results choice w e :
  fst (menu_action path_exists subprocess_run float_str choice w) = Raise e ->
  self (snd (menu_action path_exists subprocess_run float_str choice w))
  = self w.
Proof.
  revert w e. change (raise_keeps_self
    (menu_action path_exists subprocess_run float_str choice)).
  unfold menu_action.
  repeat match goal with
         | |- context [if str_eqb ?a ?b then _ else _] =>
             destruct (str_eqb a b)
         end.
  - apply framed_then; [apply framed_verify_build|]. intros ok.
    destruct (negb ok); settle.
  - apply framed_then; [apply framed_measure; tauto|]. intros _.
    apply framed_then; [apply framed_parse_memory_usage; tauto|]. intros table.
    apply framed_then; [intros w0; reflexivity|]. intros gb. settle.
  - apply framed_then; [apply framed_measure; tauto|]. intros _.
    apply framed_then; [apply framed_parse_memory_usage; tauto|]. intros table.
    apply framed_then; [intros w0; reflexivity|]. intros gb. settle.
  - apply framed_then; [apply framed_measure; tauto|]. intros out.
    apply framed_then; [intros w0; reflexivity|]. intros time. settle.
  - apply framed_then; [apply framed_measure; tauto|]. intros out.
    apply framed_then; [intros w0; reflexivity|]. intros time. settle.
  - apply framed_then; [intros w0; reflexivity|]. intros _.
    apply framed_then; [apply framed_display_results|]. intros _. settle.
  - settle.
  - settle.
Qed.

(** *** What the measuring actions store *)

(** The world after [run_command] on a process that returned [cp]. *)
Definition after_command (w : world OS) (os' : OS) (command : str)
           (cwd : option str) (cp : CompletedProcess) : world OS :=
  {| self := self w; os := os';
     logged :=
       logged w
       ++ [if negb (returncode cp =? 0)%Z
           then (ERROR, lit "Command failed with error: " ++ stderr cp)
           else (INFO, lit "Command output: " ++ stdout cp)];
     printed := printed w;
     commands := commands w ++ [(command, cwd)] |}.

Lemma run_command_after command cwd w cp os' :
  subprocess_run (os w) command cwd = (Ok cp, os') ->
  run_command subprocess_run command cwd w
  = (Ok (stdout cp, stderr cp), after_command w os' command cwd cp).
Proof.
  intros H. unfold run_command, bind, spawn, after_command. rewrite H.
  destruct (returncode cp =? 0)%Z; reflexivity.
Qed.

Definition with_self (f : BenchmarkTool -> BenchmarkTool) (w : world OS)
  : world OS :=
  {| self := f (self w); os := os w; logged := logged w;
     printed := printed w; commands := commands w |}.

(** X14.  The action 5 stores whatever [extract_and_convert_time] finds
    in the error stream of the timed command, whatever its exit status:
    a float, or [None] when the stream has no elapsed token, and [None]
    then replaces a time measured before.  In both cases it logs that
    the time was measured.  When the extraction raises, nothing is
    stored. *)
Theorem proof_time_action w cp os' :
  subprocess_run (os w) (proof_time_command (self w))
                 (Some (current_dir_path (self w)))
  = (Ok cp, os') ->
  let w1 := after_command w os' (proof_time_command (self w))
                          (Some (current_dir_path (self w))) cp in
  menu_action path_exists subprocess_run float_str (lit "5") w
  = match extract_and_convert_time (stderr cp) with
    | Ok time =>
        (Ok true,
         add_log (with_self (set_proof_formatted_time time) w1) INFO
                 (lit "Proof generation execution time measured."))
    | Raise e => (Raise e, w1)
    end.
Proof.
  intros H. cbv zeta.
  change (menu_action path_exists subprocess_run float_str (lit "5") w)
    with (bind (measure_proof_generation_execution_time subprocess_run)
               (fun out =>
                  bind (lift (extract_and_convert_time (snd out)))
                       (fun time =>
                          bind (update_self (set_proof_formatted_time time))
                               (fun _ =>
                                  bind (logging INFO
                                          (lit "Proof generation execution time measured."))
                                       (fun _ => ret true)))) w).
  unfold bind at 1. unfold measure_proof_generation_execution_time.
  unfold bind at 1. unfold get_self.
  rewrite (@run_command_after _ _ _ _ _ H). cbn [snd].
  unfold bind at 1. unfold lift.
  destruct (extract_and_convert_time (stderr cp)); reflexivity.
Qed.

(** The action 2, once valgrind and [ms_print] have returned. *)
Lemma assigner_memory_action_unfold w cp1 os1 cp2 os2 :
  subprocess_run (os w) (assigner_massif_command (self w))
                 (Some (current_dir_path (self w))) = (Ok cp1, os1) ->
  subprocess_run os1 ms_print_assigner None = (Ok cp2, os2) ->
  let w1 := after_command w os1 (assigner_massif_command (self w))
                          (Some (current_dir_path (self w))) cp1 in
  let w2 := after_command w1 os2 ms_print_assigner None cp2 in
  menu_action path_exists subprocess_run float_str (lit "2") w
  = match process_massif_output (stdout cp2) with
    | Ok table =>
        match last_total_gb table with
        | Ok gb =>
            (Ok true,
             add_log (with_self (set_assigner_total_gb (Some gb)) w2) INFO
                     (lit "Assigner heap allocation measured."))
        | Raise e => (Raise e, w2)
        end
    | Raise e => (Raise e, w2)
    end.
Proof.
  intros H1 H2. cbv zeta.
  change (menu_action path_exists subprocess_run float_str (lit "2") w)
    with (bind (measure_assigner_heap_allocation subprocess_run)
            (fun _ =>
               bind (parse_memory_usage subprocess_run
                       (lit "assigner_memory_bench"))
                 (fun table =>
                    bind (lift (last_total_gb table))
                      (fun gb =>
                         bind (update_self (set_assigner_total_gb (Some gb)))
                           (fun _ =>
                              bind (logging INFO
                                      (lit "Assigner heap allocation measured."))
                                   (fun _ => ret true))))) w).
  unfold bind at 1. unfold measure_assigner_heap_allocation.
  unfold bind at 1. unfold get_self.
  fold (assigner_massif_command (self w)).
  rewrite (@run_command_after _ _ _ _ _ H1).
  unfold bind at 1. unfold parse_memory_usage. unfold bind at 1.
  change (lit "ms_print " ++ lit "assigner_memory_bench")
    with ms_print_assigner.
  rewrite (@run_command_after ms_print_assigner None
             (after_command w os1 (assigner_massif_command (self w))
                            (Some (current_dir_path (self w))) cp1)
             cp2 os2 H2).
  unfold lift at 1. cbn [fst].
  destruct (process_massif_output (stdout cp2)) as [table|e]; [|reflexivity].
  unfold bind at 1. unfold lift.
  destruct (last_total_gb table); reflexivity.
Qed.

(** X15.  The action 2 parses the output stream of [ms_print], whatever
    the exit status of valgrind and of [ms_print].  When that stream has
    no data line (as when the profile is missing) the action raises
    [KeyError], stores nothing, and the exception ends the menu loop,
    whatever choices follow.  When the stream parses, the action stores
    the gigabytes of the report's total as the assigner's memory. *)
Theorem assigner_memory_action w cp1 os1 cp2 os2 :
  subprocess_run (os w) (assigner_massif_command (self w))
                 (Some (current_dir_path (self w))) = (Ok cp1, os1) ->
  subprocess_run os1 ms_print_assigner None = (Ok cp2, os2) ->
  let r := menu_action path_exists subprocess_run float_str (lit "2") w in
  (data_lines (stdout cp2) = [] ->
   fst r = Raise (KeyError (lit "time(i)")) /\ self (snd r) = self w
   /\ forall rest,
        fst (menu_loop path_exists subprocess_run float_str
                       (lit "2" :: rest) w)
        = Raise (KeyError (lit "time(i)")))
  /\ (forall table,
        process_massif_output (stdout cp2) = Ok table ->
        exists gb,
          last_total_gb table = Ok gb
          /\ fst r = Ok true
          /\ self (snd r) = set_assigner_total_gb (Some gb) (self w)).
Proof.
  intros H1 H2. cbv zeta.
  rewrite (@assigner_memory_action_unfold w cp1 os1 cp2 os2 H1 H2). split.
  - intros Hnone. rewrite (process_no_data_lines _ Hnone).
    split; [reflexivity|]. split; [reflexivity|].
    intros rest. cbn [menu_loop]. unfold bind at 1.
    set (w' := snd (print_menu w)).
    change (print_menu w) with (Ok tt, w'). cbv beta iota.
    unfold bind at 1.
    rewrite (@assigner_memory_action_unfold w' cp1 os1 cp2 os2 H1 H2).
    rewrite (process_no_data_lines _ Hnone). reflexivity.
  - intros table Ht. rewrite Ht.
    destruct (last_total_gb_succeeds _ Ht) as (samples & fx & _ & _ & Hgb).
    exists (Float64.div_pow2 fx 30). rewrite Hgb. repeat split.
Qed.
End SessionRuns.

(** *** The session on a machine *)

(** A session whose template is built, before any measurement. *)
Definition built_world : world listed_paths :=
  {| self := init (lit "/w") (lit "/t");
     os := [lit "/t/build/src/template.ll"; lit "/t/build/src/template.crct";
            lit "/t/build/src/template.tbl"];
     logged := []; printed := []; commands := [] |}.

Lemma menu_action_writes_own_result_witness :
  lit "3" <> lit "2"
  /\ assigner_total_gb
       (self (snd (menu_action listed always_failing (fun _ => lit "1.5")
                               (lit "3") measured_world)))
     = Some one_and_a_half.
Proof.
  assert (H : lit "3" <> lit "2") by discriminate.
  split; [exact H|].
  exact (proj1 (@menu_action_writes_own_result listed_paths listed
                  always_failing (fun _ => lit "1.5") (lit "3")
                  measured_world) H).
Defined.


Lemma run_refuses_unbuilt_witness :
  check listed fresh_world (lit "template.ll") = Ok true
  /\ check listed fresh_world (lit "template.crct") = Ok false
  /\ check listed fresh_world (lit "template.tbl") = Ok false
  /\ run listed always_failing (fun _ => lit "1.5") [lit "2"; lit "7"]
         fresh_world
     = (Ok tt,
        add_log
          (add_log fresh_world ERROR
             (lit "Missing required build files: template.crct, template.tbl"))
          ERROR build_failed).
Proof.
  assert (H1 : check listed fresh_world (lit "template.ll") = Ok true)
    by reflexivity.
  assert (H2 : check listed fresh_world (lit "template.crct") = Ok false)
    by reflexivity.
  assert (H3 : check listed fresh_world (lit "template.tbl") = Ok false)
    by reflexivity.
  split; [exact H1|]. split; [exact H2|]. split; [exact H3|].
  exact (proj1 (@run_refuses_unbuilt listed_paths listed always_failing
                  (fun _ => lit "1.5") [lit "2"; lit "7"] fresh_world)
               true false false H1 H2 H3 eq_refl).
Defined.

Lemma menu_action_raise_keeps_results_witness :
  fst (menu_action listed always_failing (fun _ => lit "1.5") (lit "2")
                   measured_world)
  = Raise (KeyError (lit "time(i)"))
  /\ self (snd (menu_action listed always_failing (fun _ => lit "1.5")
                            (lit "2") measured_world))
     = self measured_world.
Proof.
  assert (H : fst (menu_action listed always_failing (fun _ => lit "1.5")
                               (lit "2") measured_world)
              = Raise (KeyError (lit "time(i)"))) by (vm_compute; reflexivity).
  split; [exact H|].
  exact (@menu_action_raise_keeps_results listed_paths listed
           always_failing (fun _ => lit "1.5") (lit "2") measured_world
           (KeyError (lit "time(i)")) H).
Defined.

Lemma proof_time_action_witness :
  always_failing (os built_world) (proof_time_command (self built_world))
                 (Some (current_dir_path (self built_world)))
  = (Ok failing_process, os built_world)
  /\ proof_formatted_time
       (self (snd (menu_action listed always_failing (fun _ => lit "1.5")
                               (lit "5") built_world)))
     = Some one_and_a_half.
Proof.
  assert (H : always_failing (os built_world)
                (proof_time_command (self built_world))
                (Some (current_dir_path (self built_world)))
              = (Ok failing_process, os built_world)) by reflexivity.
  split; [exact H|].
  rewrite (@proof_time_action listed_paths listed always_failing
             (fun _ => lit "1.5") built_world failing_process
             (os built_world) H).
  vm_compute. reflexivity.
Defined.

Lemma assigner_memory_action_witness :
  always_failing (os built_world) (assigner_massif_command (self built_world))
                 (Some (current_dir_path (self built_world)))
  = (Ok failing_process, os built_world)
  /\ always_failing (os built_world) ms_print_assigner None
     = (Ok failing_process, os built_world)
  /\ data_lines (stdout failing_process) = []
  /\ fst (menu_action listed always_failing (fun _ => lit "1.5") (lit "2")
                      built_world)
     = Raise (KeyError (lit "time(i)")).
Proof.
  assert (H1 : always_failing (os built_world)
                 (assigner_massif_command (self built_world))
                 (Some (current_dir_path (self built_world)))
               = (Ok failing_process, os built_world)) by reflexivity.
  assert (H2 : always_failing (os built_world) ms_print_assigner None
               = (Ok failing_process, os built_world)) by reflexivity.
  assert (H3 : data_lines (stdout failing_process) = []) by reflexivity.
  split; [exact H1|]. split; [exact H2|]. split; [exact H3|].
  exact (proj1 (proj1 (@assigner_memory_action listed_paths listed
                         always_failing (fun _ => lit "1.5") built_world
                         failing_process (os built_world) failing_process
                         (os built_world) H1 H2) H3)).
Defined.
